(** * StarEngine: the DX12 frame queue and the shader asset builder

    A shallow embedding of [Star/DX12Engine/SDX12FrameQueue.cpp]
    ([DX12FrameQueue::initPipeline], [beginFrame], [renderFrame], [endFrame]
    and the file-local [buildDynamicDescriptors]) and of the per-stage branch
    of [buildShaderData] in the shader asset builder.

    Conventions.
    - Fixed-width unsigned integers are [Z] with the wrap-around written out
      ([u32], [u64]).
    - Calls on the command list, the device, the descriptor heap, the upload
      buffer, the queue and the fence are recorded, in program order, in a
      log of [Event]s.  A computation is a pair of the log written so far and
      an [Outcome]: it returned, it raised, or it never returns.
    - [throw], a failed [Expects]/[Ensures], a throwing [at()] and an
      unchecked [operator[]] past the end are the constructors of [Failure].
    - HRESULT checks ([V], [check_hresult]) are assumed to see [S_OK]. *)

From Stdlib Require Import String ZArith List Bool Lia.
Import ListNotations.
Open Scope Z_scope.

(** ** Machine integers *)

Definition u32 (z : Z) : Z := z mod 2 ^ 32.
Definition u64 (z : Z) : Z := z mod 2 ^ 64.

Abbreviation byte := Byte.byte.

(** ** Failures and outcomes *)

Inductive Failure : Type :=
| runtime_error (what : string)      (* throw std::runtime_error(what) *)
| invalid_argument (what : string)   (* throw std::invalid_argument(what) *)
| out_of_range                       (* thrown by a container's at() *)
| contract_violation                 (* Expects / Ensures does not hold *)
| undefined_behaviour.               (* operator[] past the end, x % 0 *)

Inductive Outcome (A : Type) : Type :=
| Done (a : A)
| Fatal (f : Failure)
| Blocked.                           (* the call never returns *)
Arguments Done {A} a.
Arguments Fatal {A} f.
Arguments Blocked {A}.

(** ** D3D12 values that the code passes through *)

(* D3D12_RESOURCE_STATES, as in d3d12.h; RESOURCE_STATE_* of the engine is
   cast to it unchanged. *)
Definition RESOURCE_STATE_COMMON : Z := 0.
Definition RESOURCE_STATE_RENDER_TARGET : Z := 4.
Definition D3D12_RESOURCE_STATE_PRESENT : Z := 0.
Definition D3D12_RESOURCE_STATE_RENDER_TARGET : Z := 4.
Definition D3D_PRIMITIVE_TOPOLOGY_TRIANGLELIST : Z := 4.
Definition D3D12_CLEAR_FLAG_DEPTH : Z := 1.
Definition D3D12_CLEAR_FLAG_STENCIL : Z := 2.

(* A float is only ever copied; it is its 32-bit pattern. *)
Definition float32 := Z.

(* ID3D12Resource*, ID3D12PipelineState*, ID3D12RootSignature*: the address,
   0 for nullptr. *)
Definition Resource := Z.
Definition PipelineState := Z.
Definition RootSignature := Z.

(* Matrix4f is 16 floats; it is used through its 64-byte object
   representation, byte [i] for [i < 64]. *)
Definition Matrix4f := nat -> byte.
Definition sizeof_Matrix4f : nat := 64.
Definition matrix_data (m : Matrix4f) : list byte := map m (seq 0 sizeof_Matrix4f).

Inductive CpuHandle : Type :=
| RTV (index : Z)                    (* resource.mRTVs.getCpuHandle(index) *)
| DSV (index : Z)                    (* resource.mDSVs.getCpuHandle(index) *)
| NullHandle.                        (* D3D12_CPU_DESCRIPTOR_HANDLE{} *)

Inductive GpuHandle : Type :=
| GpuOffset (offset : Z)             (* list.mGpuOffset of a persistent table *)
| CircularBase (capacity : Z).       (* descs.first.mGpuHandle of allocateCircular(capacity) *)

Record Barrier : Type := Transition {
  pResource : Resource;
  StateBefore : Z;
  StateAfter : Z }.

Record VIEWPORT : Type := { vpX : float32; vpY : float32; vpW : float32; vpH : float32;
                            vpMinDepth : float32; vpMaxDepth : float32 }.
Record RECT : Type := { left : Z; top : Z; right : Z; bottom : Z }.
Record VertexBufferView : Type := { vbLocation : Z; vbSize : Z; vbStride : Z }.
Record IndexBufferView : Type := { BufferLocation : Z; ibSize : Z; ibFormat : Z }.

(** ** The shader-binding description *)

Inductive RootType := Constants_ | CBV_ | UAV_ | SRV_ | Table_ | SSV_.
Inductive Persistency := Persistent_ | Dynamic_.
Inductive Source := EngineSource_ | RenderTargetSource_ | MaterialSource_.

(* The alternatives of a constant's mDataType. *)
Inductive DataID := Data_monostate | Proj_ | View_ | WorldView_ | WorldInvT_.

(* The alternatives of a descriptor attribute's mDataType. *)
Inductive AttributeID :=
| Attr_monostate | ConstantBuffer_ | MainTex_ | PointSampler_ | LinearSampler_.

(* UpdateEnum is kept as its underlying value; the enumerators used by the
   code are parameters of the development. *)
Record DescriptorIndex : Type := {
  mUpdate : Z;
  mType : RootType;
  mPersistency : Persistency }.

Definition RootType_eqb (a b : RootType) : bool :=
  match a, b with
  | Constants_, Constants_ | CBV_, CBV_ | UAV_, UAV_
  | SRV_, SRV_ | Table_, Table_ | SSV_, SSV_ => true
  | _, _ => false
  end.

Definition Persistency_eqb (a b : Persistency) : bool :=
  match a, b with
  | Persistent_, Persistent_ | Dynamic_, Dynamic_ => true
  | _, _ => false
  end.

(* operator== / operator!= on the index: member-wise. *)
Definition DescriptorIndex_eqb (a b : DescriptorIndex) : bool :=
  (mUpdate a =? mUpdate b) && RootType_eqb (mType a) (mType b)
  && Persistency_eqb (mPersistency a) (mPersistency b).

(* Members that several structs share are told apart by a prefix; the
   member's own name is in the comment. *)
Record Constant : Type := {
  cSource : Source;                  (* mSource *)
  cDataType : DataID }.              (* mDataType *)

Record ConstantBuffer : Type := {
  cbIndex : DescriptorIndex;         (* mIndex *)
  mSize : Z;
  mConstants : list Constant }.

Record Descriptor : Type := { dDataType : AttributeID }.   (* mDataType *)

Record DescriptorSubrange : Type := {
  srSource : Source;                 (* mSource *)
  srDescriptors : list Descriptor }. (* mDescriptors *)

Record DescriptorRange : Type := { mSubranges : list DescriptorSubrange }.

Record DescriptorList : Type := {
  mSlot : Z;
  mCapacity : Z;
  mGpuOffset : Z;
  mRanges : list DescriptorRange }.

Record DescriptorCollection : Type := {
  mIndex : DescriptorIndex;
  mResourceViewLists : list DescriptorList;
  mSamplerLists : list DescriptorList }.

(** ** Shaders and materials *)

Record PipelineStateEntry : Type := { mObject : PipelineState }.

Record DX12ShaderSubpassData : Type := {
  mVertexLayoutIndex : list Z;
  mStates : list PipelineStateEntry;
  ssConstantBuffers : list ConstantBuffer }.   (* mConstantBuffers *)

(* mSubpasses, mPasses, mLevels of the shader. *)
Record DX12ShaderPassData : Type := { spSubpasses : list DX12ShaderSubpassData }.
Record DX12ShaderLevelData : Type := { slPasses : list DX12ShaderPassData }.
Record DX12ShaderQueueData : Type := { sqLevels : list DX12ShaderLevelData }.

Record DX12MaterialSubpassData : Type := { mCollections : list DescriptorCollection }.

(* mSubpasses, mPasses, mLevels, mQueues, mPipelines of the material. *)
Record DX12MaterialPassData : Type := { mpSubpasses : list DX12MaterialSubpassData }.
Record DX12MaterialLevelData : Type := { mlPasses : list DX12MaterialPassData }.
Record DX12MaterialQueueData : Type := { mqLevels : list DX12MaterialLevelData }.
Record DX12MaterialPipelineData : Type := { mQueues : list DX12MaterialQueueData }.
Record DX12MaterialSolutionData : Type := { msPipelines : list DX12MaterialPipelineData }.

(* [mShader] stands for what getSubpassData reads of the material. *)
Record DX12Material : Type := {
  mShader : Z;
  mShaderData : list DX12MaterialSolutionData }.

(** ** Meshes, batches, draw items *)

Record SubMesh : Type := { mIndexCount : Z; mIndexOffset : Z }.

Record DX12MeshData : Type := {
  mSubMeshes : list SubMesh;
  mPrimitiveTopology : Z;            (* mIndexBuffer.mPrimitiveTopology *)
  mVertexBufferViews : list VertexBufferView;
  mIndexBufferView : IndexBufferView;
  mLayoutID : Z }.

Record MeshRenderer : Type := {
  mMesh : DX12MeshData;
  mMaterials : list DX12Material }.

Record DX12FlattenedObjects : Type := {
  mWorldTransforms : list Matrix4f;
  mWorldTransformInvs : list Matrix4f;
  mMeshRenderers : list MeshRenderer }.

Inductive DrawCallType := FullScreenTriangle_ | DrawCall_monostate.

Record DrawCallData : Type := {
  dcType : DrawCallType;             (* mType *)
  dcMaterial : DX12Material }.       (* mMaterial *)

Inductive ObjectType := DrawCall_ | ObjectBatch_.

Record ContentID : Type := { idType : ObjectType; idIndex : Z }.   (* mType, mIndex *)

Record ContentData : Type := {
  mIDs : list ContentID;
  mDrawCalls : list DrawCallData;
  mFlattenedObjects : list DX12FlattenedObjects }.

Record RenderQueue : Type := { mContents : list ContentData }.

(** ** The render graph *)

Inductive LoadOp : Type :=
| ClearColor (mClearColor : list float32)
| ClearDepthStencil (mClearDepth mClearStencil : bool)
                    (mDepthClearValue : float32) (mStencilClearValue : Z)
| LoadOther.                         (* every other alternative *)

Record Attachment : Type := {
  mDescriptorHandle : Z;             (* mDescriptor.mHandle *)
  mLoadOp : LoadOp }.

Record ViewTransition : Type := {
  mFramebufferHandle : Z;            (* mFramebuffer.mHandle *)
  mSource : Z;
  mTarget : Z }.

Record GraphicsSubpass : Type := {
  mOutputAttachments : list Attachment;
  mDepthStencilAttachment : option Attachment;
  mOrderedRenderQueue : list RenderQueue;
  mRootSignature : RootSignature;
  mDescriptors : list DescriptorCollection;
  mConstantBuffers : list ConstantBuffer;
  mPostViewTransitions : list ViewTransition }.

Record RenderPass : Type := {
  mViewports : list VIEWPORT;
  mScissorRects : list RECT;
  mGraphicsSubpasses : list GraphicsSubpass }.

Record DX12RenderPipeline : Type := {
  mPasses : list RenderPass;
  mRTVInitialStates : list Z }.

Record DX12RenderSolution : Type := {
  mPipelines : list DX12RenderPipeline;
  mRTVSources : list Z }.            (* the mHandle of each source *)

Record DX12RenderWorks : Type := {
  mFramebuffers : list Resource;
  mNumBackBuffers : Z }.

(** ** Commands and events *)

Inductive Command : Type :=
| ResourceBarrier (barriers : list Barrier)
| SetDescriptorHeaps
| RSSetViewports (count : Z) (viewport : VIEWPORT)
| RSSetScissorRects (count : Z) (rect : RECT)
| ClearRenderTargetView (rtv : CpuHandle) (color : list float32)
| ClearDepthStencilView (dsv : CpuHandle) (flags : Z) (depth : float32) (stencil : Z)
| OMSetRenderTargets (rtvs : list CpuHandle) (dsv : option CpuHandle)
| SetGraphicsRootSignature (rs : RootSignature)
| SetGraphicsRootDescriptorTable (slot : Z) (table : GpuHandle)
| IASetPrimitiveTopology (topology : Z)
| IASetVertexBuffers (views : list VertexBufferView)
| IASetIndexBuffer (view : option IndexBufferView)
| SetPipelineState (pso : PipelineState)
| DrawInstanced (vertexCount instanceCount startVertex startInstance : Z)
| DrawIndexedInstanced (indexCount instanceCount startIndex : Z)
                       (baseVertex startInstance : Z)
| Close.

Inductive Event : Type :=
| Record_ (c : Command)              (* a call on the frame's command list *)
| AllocateCircular (capacity : Z)    (* the shader descriptor heap *)
| Upload (data : list byte) (size count alignment : Z)   (* the upload buffer *)
| CreateConstantBufferView (SizeInBytes : Z) (descID : nat)
                                     (* at advance(descs.first, descID) *)
| WaitForFence (value : Z)
| ResetCommandAllocator (slot : nat)
| ResetCommandList (slot : nat)
| DescriptorsAdvanceFrame
| UploadBufferAdvanceFrame
| ExecuteCommandLists
| SetEventOnCompletion (value : Z)
| Signal (value : Z).

(** ** The recording monad: a log and an outcome *)

Definition Exec (A : Type) : Type := list Event * Outcome A.

Definition ret {A} (a : A) : Exec A := ([], Done a).

Definition bind {A B} (m : Exec A) (k : A -> Exec B) : Exec B :=
  match m with
  | (log, Done a) => let (log', r) := k a in (log ++ log', r)
  | (log, Fatal f) => (log, Fatal f)
  | (log, Blocked) => (log, Blocked)
  end.

Definition throw {A} (f : Failure) : Exec A := ([], Fatal f).
(* A call that touches none of the logged objects. *)
Definition call {A} (o : Outcome A) : Exec A := ([], o).
Definition emit (e : Event) : Exec unit := ([e], Done tt).
Definition record (c : Command) : Exec unit := emit (Record_ c).
Definition Expects (b : bool) : Exec unit :=
  if b then ret tt else throw contract_violation.

Declare Scope exec_scope.
Delimit Scope exec_scope with exec.
Notation "x <- m ;; k" := (bind m (fun x => k))
  (at level 61, m at next level, right associativity) : exec_scope.
Notation "m ;; k" := (bind m (fun _ => k))
  (at level 61, right associativity) : exec_scope.
Open Scope exec_scope.

(* A range-based for loop whose body may raise and that carries a value. *)
Fixpoint for_each {A S} (l : list A) (s : S) (body : A -> S -> Exec S) : Exec S :=
  match l with
  | [] => ret s
  | a :: rest => s' <- body a s ;; for_each rest s' body
  end.

Definition for_ {A} (l : list A) (body : A -> Exec unit) : Exec unit :=
  for_each l tt (fun a _ => body a).

(* v.at(i): throws std::out_of_range. *)
Definition at_ {A} (l : list A) (i : Z) : Exec A :=
  if i <? 0 then throw out_of_range
  else match nth_error l (Z.to_nat i) with
       | Some a => ret a
       | None => throw out_of_range
       end.

(* v[i]: unchecked. *)
Definition index {A} (l : list A) (i : Z) : Exec A :=
  if i <? 0 then throw undefined_behaviour
  else match nth_error l (Z.to_nat i) with
       | Some a => ret a
       | None => throw undefined_behaviour
       end.

Definition log_of {A} (m : Exec A) : list Event := fst m.
Definition outcome_of {A} (m : Exec A) : Outcome A := snd m.

(* The commands of a log, in recording order. *)
Fixpoint commands (log : list Event) : list Command :=
  match log with
  | [] => []
  | Record_ c :: rest => c :: commands rest
  | _ :: rest => commands rest
  end.

(** ** Frame contexts, the swap chain, the frame queue *)

Record DX12FrameContext : Type := {
  mFrameFenceId : Z;                 (* uint64_t *)
  mBackBufferIndex : Z;              (* uint32_t *)
  mBackBufferCount : Z;              (* uint32_t *)
  mBackBuffer : Z;                   (* sc.getBackBuffer(index) *)
  mBackBufferRTV : Z * bool;         (* sc.getBackBufferDescriptor(index, sRGB) *)
  mBackBufferRTVsRGB : Z * bool;
  mRenderSolution : option DX12RenderSolution;
  mRenderWorks : option DX12RenderWorks;
  mSolutionID : Z;
  mPipelineID : Z }.

Record DX12SwapChain : Type := {
  mSwapChain : bool;                 (* the IDXGISwapChain pointer is not null *)
  GetCurrentBackBufferIndex : Z;
  mRenderGraph : DX12RenderWorks;    (* sc.mRenderGraph->mRenderGraph *)
  currentSolution : DX12RenderSolution;
  getSolutionID : Z;
  getPipelineID : Z }.

Record DX12FrameQueue : Type := {
  mNextFrameFence : Z;               (* uint64_t *)
  mNextFrameIndex : Z;               (* uint32_t *)
  mFrames : list DX12FrameContext }.

(* The fence as the queue sees it: the value completed so far and the values
   whose Signal is still queued on the GPU, oldest first. *)
Record Fence : Type := {
  completed : Z;
  queued : list Z }.

(** Modelled from the spec: [DX12::waitForFence] is not part of the sources
    at hand.  The spec has it block "the calling thread until the slot's
    previous fence value is observed complete"; the wait is an OS wait, so
    while it lasts the only progress is the GPU retiring queued signals. *)
Fixpoint wait_retire (queue : list Z) (done value : Z) : option Fence :=
  if value <=? done then Some {| completed := done; queued := queue |}
  else match queue with
       | [] => None
       | s :: rest => wait_retire rest s value
       end.

Definition waitForFence (fence : Fence) (value : Z) : Exec Fence :=
  match wait_retire (queued fence) (completed fence) value with
  | Some fence' => ([WaitForFence value], Done fence')
  | None => ([WaitForFence value], Blocked)
  end.

Fixpoint replace_nth {A} (n : nat) (a : A) (l : list A) : list A :=
  match l, n with
  | [], _ => []
  | _ :: rest, O => a :: rest
  | x :: rest, S n' => x :: replace_nth n' a rest
  end.

(* DX12FrameContext::currentPipeline and its swap-chain twin:
   mPipelines[mPipelineID]. *)
Definition currentPipeline (rsl : DX12RenderSolution) (pipelineID : Z)
  : Exec DX12RenderPipeline :=
  index (mPipelines rsl) pipelineID.

(* DX12FrameQueue::beginFrame.  The queue object is mutated in place: the
   second component is the queue as the call leaves it, whatever the
   outcome.  The returned pointer is the slot's position in mFrames. *)
Definition beginFrame (sc : DX12SwapChain) (q : DX12FrameQueue) (fence : Fence)
  : Exec (Fence * nat) * DX12FrameQueue :=
  if negb (mSwapChain sc) then (throw contract_violation, q) else
  (* Get/Increment the fence counter *)
  let FrameFence := mNextFrameFence q in
  let q1 := {| mNextFrameFence := u64 (FrameFence + 1);
               mNextFrameIndex := mNextFrameIndex q;
               mFrames := mFrames q |} in
  (* Get/Increment the frame ring-buffer index *)
  let FrameIndex := mNextFrameIndex q1 in
  let size := u32 (Z.of_nat (length (mFrames q1))) in
  if size =? 0 then (throw undefined_behaviour, q1) else
  let q2 := {| mNextFrameFence := mNextFrameFence q1;
               mNextFrameIndex := u32 (FrameIndex + 1) mod size;
               mFrames := mFrames q1 |} in
  (* Wait for the last frame occupying this slot to be complete *)
  match index (mFrames q2) FrameIndex with
  | (_, Done pFrame) =>
    match waitForFence fence (mFrameFenceId pFrame) with
    | (log, Done fence') =>
      let backBufferIndex := GetCurrentBackBufferIndex sc in
      let slot := Z.to_nat FrameIndex in
      let frame := {|
        mFrameFenceId := FrameFence;
        mBackBufferIndex := backBufferIndex;
        mBackBufferCount := mNumBackBuffers (mRenderGraph sc);
        mBackBuffer := backBufferIndex;
        mBackBufferRTV := (backBufferIndex, false);
        mBackBufferRTVsRGB := (backBufferIndex, true);
        mRenderSolution := Some (currentSolution sc);
        mRenderWorks := Some (mRenderGraph sc);
        mSolutionID := getSolutionID sc;
        mPipelineID := getPipelineID sc |} in
      ((log ++ [ResetCommandAllocator slot; ResetCommandList slot;
                DescriptorsAdvanceFrame; UploadBufferAdvanceFrame],
        Done (fence', slot)),
       {| mNextFrameFence := mNextFrameFence q2;
          mNextFrameIndex := mNextFrameIndex q2;
          mFrames := replace_nth slot frame (mFrames q2) |})
    | (log, Fatal f) => ((log, Fatal f), q2)
    | (log, Blocked) => ((log, Blocked), q2)
    end
  | (log, Fatal f) => ((log, Fatal f), q2)
  | (log, Blocked) => ((log, Blocked), q2)
  end.

(* DX12FrameQueue::endFrame: the Signal is queued behind the submitted work. *)
Definition endFrame (q : DX12FrameQueue) (fence : Fence) (slot : nat) : Exec Fence :=
  match nth_error (mFrames q) slot with
  | Some pFrame =>
    let id := mFrameFenceId pFrame in
    ([SetEventOnCompletion id; Signal id],
     Done {| completed := completed fence; queued := queued fence ++ [id] |})
  | None => throw undefined_behaviour
  end.

Definition indexed {A} (l : list A) : list (Z * A) :=
  combine (map Z.of_nat (seq 0 (length l))) l.

(* The loop of initPipeline over k. *)
Definition initPipeline_barriers (sc : DX12SwapChain) (pipeline : DX12RenderPipeline)
  : Exec unit :=
  for_ (indexed (mRTVInitialStates pipeline)) (fun '(k, state) =>
    if (state =? RESOURCE_STATE_COMMON) || (state =? RESOURCE_STATE_RENDER_TARGET)
    then ret tt
    else
      resourceID <- index (mRTVSources (currentSolution sc)) k ;;
      resource <- at_ (mFramebuffers (mRenderGraph sc)) resourceID ;;
      record (ResourceBarrier
                [Transition resource RESOURCE_STATE_RENDER_TARGET state])).

(* DX12FrameQueue::initPipeline. *)
Definition initPipeline (sc : DX12SwapChain) (q : DX12FrameQueue) (fence : Fence)
  : Exec Fence * DX12FrameQueue :=
  let '(begun, q') := beginFrame sc q fence in
  ((r <- begun ;;
    let '(fence', pContext) := r in
    pipeline <- currentPipeline (currentSolution sc) (getPipelineID sc) ;;
    initPipeline_barriers sc pipeline ;;
    record Close ;;
    emit ExecuteCommandLists ;;
    endFrame q' fence' pContext), q').

(** ** Constant-buffer payloads *)

Record CameraData : Type := {
  mView : Matrix4f;
  mProj : Matrix4f }.

(* boost::alignment::align_up on std::size_t (64 bits). *)
Definition align_up (value alignment : Z) : Z :=
  Z.land (u64 (value + (alignment - 1))) (u64 (Z.lnot (alignment - 1))).

(* v.clear(); v.resize(n): n value-initialised bytes. *)
Definition resize (n : Z) : list byte := repeat Byte.x00 (Z.to_nat n).

(* A constant-buffer under construction: the vector and pData - data(). *)
Abbreviation Cursor := (list byte * nat)%type.

(* Expects(pData + sizeof(m) <= data() + size()); memcpy; pData += sizeof(m). *)
Definition put_matrix (m : Matrix4f) (c : Cursor) : Exec Cursor :=
  let '(buf, pData) := c in
  Expects (Nat.leb (pData + sizeof_Matrix4f) (List.length buf)) ;;
  ret (firstn pData buf ++ matrix_data m ++ skipn (pData + sizeof_Matrix4f) buf,
       (pData + sizeof_Matrix4f)%nat).

(* The loop over the declared constant buffers: the first one whose index
   is the collection's is built, and the loop is left. *)
Fixpoint find_constant_buffer (cbs : list ConstantBuffer) (collectionIndex : DescriptorIndex)
    (build : ConstantBuffer -> Exec unit) : Exec bool :=
  match cbs with
  | [] => ret false
  | cb :: rest =>
    if negb (DescriptorIndex_eqb (cbIndex cb) collectionIndex)
    then find_constant_buffer rest collectionIndex build
    else (build cb ;; ret true)
  end.

(* Expects(cb.mSize), the payload, the upload and the view. *)
Definition build_constant_buffer (write : Constant -> Cursor -> Exec Cursor)
    (descID : nat) (cb : ConstantBuffer) : Exec unit :=
  Expects (negb (mSize cb =? 0)) ;;
  let sizeCB := align_up (mSize cb) 256 in
  c <- for_each (mConstants cb) (resize sizeCB, O) write ;;
  let payload := fst c in
  emit (Upload payload (u32 (Z.of_nat (List.length payload))) 1 256) ;;
  emit (CreateConstantBufferView (u32 (Z.of_nat (List.length payload))) descID).

Definition resolve_constant_buffer (write : Constant -> Cursor -> Exec Cursor)
    (cbs : list ConstantBuffer) (collectionIndex : DescriptorIndex)
    (descID : nat) : Exec unit :=
  foundDescriptor <- find_constant_buffer cbs collectionIndex
                       (build_constant_buffer write descID) ;;
  if negb foundDescriptor
  then throw (runtime_error "constant buffer not found")
  else ret tt.

Definition is_Table (t : RootType) : bool := RootType_eqb t Table_.
Definition is_SSV (t : RootType) : bool := RootType_eqb t SSV_.

Definition bind_list (list : DescriptorList) : Exec unit :=
  record (SetGraphicsRootDescriptorTable (mSlot list) (GpuOffset (mGpuOffset list))).

Section Engine.

(* Matrix4f * Matrix4f, in single precision. *)
Variable mat_mul : Matrix4f -> Matrix4f -> Matrix4f.

(* UpdateEnum::PerPass. *)
Variable PerPass : Z.

(* getSubpassData(material, solutionID, pipelineID, passID, subpassID,
   shaderSolutionID, shaderPipelineID, shaderQueueID): the queue it returns
   and the three indices it writes. *)
Variable getSubpassData :
  DX12Material -> Z -> Z -> Z -> Z -> Outcome (DX12ShaderQueueData * (Z * Z * Z)).

(* The constants of a per-draw buffer (buildDynamicDescriptors). *)
Definition write_perInstance (cam : CameraData) (pBatch : option DX12FlattenedObjects)
    (objectID : Z) (constant : Constant) (c : Cursor) : Exec Cursor :=
  match cSource constant with
  | EngineSource_ =>
    match cDataType constant with
    | Proj_ => throw (runtime_error "Proj cannot be per instance")
    | View_ => throw (runtime_error "View cannot be per instance")
    | WorldView_ =>
      match pBatch with
      | None => throw (runtime_error "batch is nullptr")
      | Some batch =>
        world <- index (mWorldTransforms batch) objectID ;;
        put_matrix (mat_mul (mView cam) world) c
      end
    | WorldInvT_ =>
      match pBatch with
      | None => throw (runtime_error "batch is nullptr")
      | Some batch =>
        worldInvT <- index (mWorldTransformInvs batch) objectID ;;
        put_matrix worldInvT c
      end
    | Data_monostate =>
      throw (runtime_error "engine source constant cannot be monostate")
    end
  | RenderTargetSource_ =>
    throw (runtime_error "dynamic constant cannot be render target source")
  | MaterialSource_ =>
    throw (runtime_error "dynamic constant cannot be material source")
  end.

(* The constants of a per-pass buffer (renderFrame). *)
Definition write_perPass (cam : CameraData) (constant : Constant) (c : Cursor)
  : Exec Cursor :=
  match cSource constant with
  | EngineSource_ =>
    match cDataType constant with
    | Proj_ => put_matrix (mProj cam) c
    | View_ => put_matrix (mView cam) c
    | WorldView_ => throw (runtime_error "WorldView cannot be per pass")
    | WorldInvT_ => throw (runtime_error "WorldInvT cannot be per pass")
    | Data_monostate =>
      throw (runtime_error "engine source constant cannot be monostate")
    end
  | RenderTargetSource_ =>
    throw (runtime_error "dynamic constant cannot be render target source")
  | MaterialSource_ =>
    throw (runtime_error "dynamic constant cannot be material source")
  end.

(* One attribute of an engine-source subrange, per draw. *)
Definition perInstance_attribute (shaderSubpass : DX12ShaderSubpassData)
    (collection : DescriptorCollection)
    (cam : CameraData) (pBatch : option DX12FlattenedObjects) (objectID : Z)
    (attr : Descriptor) (descID : nat) : Exec nat :=
  match dDataType attr with
  | ConstantBuffer_ =>
    resolve_constant_buffer (write_perInstance cam pBatch objectID)
      (ssConstantBuffers shaderSubpass) (mIndex collection) descID
  | MainTex_ => throw (runtime_error "not supported yet")
  | PointSampler_ => ret tt
  | LinearSampler_ => ret tt
  | Attr_monostate => throw (runtime_error "engine source should not be std::monostate")
  end ;;
  ret (S descID).

(* buildDynamicDescriptors. *)
Definition buildDynamicDescriptors (shaderSubpass : DX12ShaderSubpassData)
    (subpassData : DX12MaterialSubpassData) (cam : CameraData)
    (pBatch : option DX12FlattenedObjects) (objectID : Z) : Exec unit :=
  for_ (mCollections subpassData) (fun collection =>
    Expects (is_Table (mType (mIndex collection))) ;;
    match mPersistency (mIndex collection) with
    | Persistent_ =>
      for_ (mResourceViewLists collection) bind_list ;;
      for_ (mSamplerLists collection) bind_list
    | Dynamic_ =>
      Expects (mUpdate (mIndex collection) <? PerPass) ;;
      for_ (mResourceViewLists collection) (fun list =>
        Expects (negb (Nat.eqb (List.length (mRanges list)) 0)) ;;
        Expects (negb (mCapacity list =? 0)) ;;
        emit (AllocateCircular (mCapacity list)) ;;
        for_each (mRanges list) O (fun range descID =>
          for_each (mSubranges range) descID (fun subrange descID =>
            match srSource subrange with
            | EngineSource_ =>
              for_each (srDescriptors subrange) descID
                (perInstance_attribute shaderSubpass collection cam pBatch objectID)
            | RenderTargetSource_ =>
              throw (runtime_error
                "render target source's Update Frequency should not be less than PerPass")
            | MaterialSource_ => throw (runtime_error "not supported yet")
            end)) ;;
        record (SetGraphicsRootDescriptorTable (mSlot list)
                  (CircularBase (mCapacity list)))) ;;
      for_ (mSamplerLists collection) (fun list =>
        Expects (is_Table (mType (mIndex collection))) ;;
        throw (runtime_error "not supported yet"))
    end).

(* One attribute of an engine-source subrange, per pass. *)
Definition perPass_attribute (subpass : GraphicsSubpass)
    (collection : DescriptorCollection)
    (cam : CameraData) (attr : Descriptor) (descID : nat) : Exec nat :=
  match dDataType attr with
  | ConstantBuffer_ =>
    resolve_constant_buffer (write_perPass cam)
      (mConstantBuffers subpass) (mIndex collection) descID
  | _ => throw (runtime_error "not supported yet")
  end ;;
  ret (S descID).

(* "PerPass Descriptors" of renderFrame. *)
Definition perPassDescriptors (subpass : GraphicsSubpass) (cam : CameraData) : Exec unit :=
  for_ (mDescriptors subpass) (fun collection =>
    if negb (mUpdate (mIndex collection) =? PerPass) then ret tt
    else if is_SSV (mType (mIndex collection)) then ret tt
    else
      match mPersistency (mIndex collection) with
      | Persistent_ =>
        for_ (mResourceViewLists collection) (fun list =>
          Expects (is_Table (mType (mIndex collection))) ;;
          Expects (negb (mCapacity list =? 0)) ;;
          bind_list list)
      | Dynamic_ =>
        for_ (mResourceViewLists collection) (fun list =>
          Expects (is_Table (mType (mIndex collection))) ;;
          Expects (negb (mCapacity list =? 0)) ;;
          emit (AllocateCircular (mCapacity list)) ;;
          for_each (mRanges list) O (fun range descID =>
            for_each (mSubranges range) descID (fun subrange descID =>
              match srSource subrange with
              | EngineSource_ =>
                for_each (srDescriptors subrange) descID
                  (perPass_attribute subpass collection cam)
              | RenderTargetSource_ =>
                throw (runtime_error "dynamic descriptor cannot be render target source")
              | MaterialSource_ => throw (runtime_error "not supported yet")
              end)) ;;
          record (SetGraphicsRootDescriptorTable (mSlot list)
                    (CircularBase (mCapacity list))))
      end ;;
      for_ (mSamplerLists collection) (fun list =>
        throw (runtime_error "not supported yet"))).

(** ** Draw items *)

(* prevTopology and pPrevPSO of a subpass. *)
Definition DrawState : Type := Z * PipelineState.

Definition set_topology (primTopology : Z) (st : DrawState) : Exec DrawState :=
  let '(prevTopology, pPrevPSO) := st in
  if negb (primTopology =? prevTopology)
  then record (IASetPrimitiveTopology primTopology) ;; ret (primTopology, pPrevPSO)
  else ret st.

(* queue.mLevels.at(levelID).mPasses.at(variantID).mSubpasses, both 0. *)
Definition shader_subpasses (queue : DX12ShaderQueueData)
  : Exec (list DX12ShaderSubpassData) :=
  level <- at_ (sqLevels queue) 0 ;;
  pass <- at_ (slPasses level) 0 ;;
  ret (spSubpasses pass).

(* material->mShaderData.at(s).mPipelines.at(p).mQueues.at(q)
     .mLevels.at(0).mPasses.at(0).mSubpasses.at(subpassID) *)
Definition material_subpass (material : DX12Material)
    (ids : Z * Z * Z) (subpassID : Z) : Exec DX12MaterialSubpassData :=
  let '(shaderSolutionID, shaderPipelineID, shaderQueueID) := ids in
  solution <- at_ (mShaderData material) shaderSolutionID ;;
  pipeline <- at_ (msPipelines solution) shaderPipelineID ;;
  queue <- at_ (mQueues pipeline) shaderQueueID ;;
  level <- at_ (mqLevels queue) 0 ;;
  pass <- at_ (mlPasses level) 0 ;;
  at_ (mpSubpasses pass) subpassID.

(* The loop "materials" over the shader subpasses; both draw items have it,
   with their own vertex-layout key, batch and draw command. *)
Definition draw_shader_subpasses (material : DX12Material) (ids : Z * Z * Z)
    (layoutKey : Z) (cam : CameraData) (pBatch : option DX12FlattenedObjects)
    (objectID : Z) (draw : Command)
    (subpasses : list DX12ShaderSubpassData) (st : DrawState) : Exec DrawState :=
  let '(prevTopology, pPrevPSO) := st in
  r <- for_each subpasses (0, pPrevPSO) (fun shaderSubpass '(subpassID, pPrevPSO) =>
    layoutID <- at_ (mVertexLayoutIndex shaderSubpass) layoutKey ;;
    state <- at_ (mStates shaderSubpass) layoutID ;;
    pPrevPSO' <- (if negb (pPrevPSO =? mObject state)
                  then record (SetPipelineState (mObject state)) ;; ret (mObject state)
                  else ret pPrevPSO) ;;
    subpassData <- material_subpass material ids subpassID ;;
    buildDynamicDescriptors shaderSubpass subpassData cam pBatch objectID ;;
    record draw ;;
    ret (subpassID + 1, pPrevPSO')) ;;
  ret (prevTopology, snd r).

(* A draw call of a content. *)
Definition draw_drawCall (solutionID pipelineID passID subpassID : Z)
    (cam : CameraData) (dc : DrawCallData) (st : DrawState) : Exec DrawState :=
  match dcType dc with
  | FullScreenTriangle_ =>
    st <- set_topology D3D_PRIMITIVE_TOPOLOGY_TRIANGLELIST st ;;
    record (IASetVertexBuffers []) ;;
    record (IASetIndexBuffer None) ;;
    let material := dcMaterial dc in
    r <- call (getSubpassData material solutionID pipelineID passID subpassID) ;;
    let '(queue, ids) := r in
    subpasses <- shader_subpasses queue ;;
    draw_shader_subpasses material ids 0 cam None 0 (DrawInstanced 3 1 0 0)
      subpasses st
  | DrawCall_monostate => throw (runtime_error "mesh drawcall not supported")
  end.

(* The body of the loop over renderer.mMaterials, after its test. *)
Definition draw_material (solutionID pipelineID passID subpassID : Z)
    (cam : CameraData) (batch : DX12FlattenedObjects) (objectID : Z)
    (mesh : DX12MeshData) (material : DX12Material) (materialID : Z)
    (st : DrawState) : Exec DrawState :=
  submesh <- at_ (mSubMeshes mesh) materialID ;;
  r <- call (getSubpassData material solutionID pipelineID passID subpassID) ;;
  let '(queue, ids) := r in
  (* mesh *)
  st <- set_topology (mPrimitiveTopology mesh) st ;;
  record (IASetVertexBuffers (mVertexBufferViews mesh)) ;;
  (if negb (BufferLocation (mIndexBufferView mesh) =? 0)
   then record (IASetIndexBuffer (Some (mIndexBufferView mesh)))
   else record (IASetIndexBuffer None)) ;;
  (* materials *)
  subpasses <- shader_subpasses queue ;;
  draw_shader_subpasses material ids (mLayoutID mesh) cam (Some batch) objectID
    (DrawIndexedInstanced (mIndexCount submesh) 1 (mIndexOffset submesh) 0 0)
    subpasses st.

(* The loop over renderer.mMaterials, with its size_t materialID: it is left
   at the first material that has no submesh. *)
Fixpoint draw_materials (solutionID pipelineID passID subpassID : Z)
    (cam : CameraData) (batch : DX12FlattenedObjects) (objectID : Z)
    (mesh : DX12MeshData) (materials : list DX12Material) (materialID : Z)
    (st : DrawState) : Exec DrawState :=
  match materials with
  | [] => ret st
  | material :: rest =>
    if materialID >=? Z.of_nat (List.length (mSubMeshes mesh)) then ret st
    else
      st <- draw_material solutionID pipelineID passID subpassID cam batch objectID
              mesh material materialID st ;;
      draw_materials solutionID pipelineID passID subpassID cam batch objectID
        mesh rest (materialID + 1) st
  end.

(* An object batch of a content. *)
Definition draw_objectBatch (solutionID pipelineID passID subpassID : Z)
    (cam : CameraData) (batch : DX12FlattenedObjects) (st : DrawState)
  : Exec DrawState :=
  Expects (Nat.eqb (List.length (mWorldTransforms batch))
                   (List.length (mMeshRenderers batch))) ;;
  Expects (Nat.eqb (List.length (mWorldTransformInvs batch))
                   (List.length (mMeshRenderers batch))) ;;
  for_each (indexed (mMeshRenderers batch)) st (fun '(objectID, renderer) st =>
    draw_materials solutionID pipelineID passID subpassID cam batch objectID
      (mMesh renderer) (mMaterials renderer) 0 st).

Definition draw_content (solutionID pipelineID passID subpassID : Z)
    (cam : CameraData) (content : ContentData) (st : DrawState) : Exec DrawState :=
  for_each (mIDs content) st (fun object st =>
    match idType object with
    | DrawCall_ =>
      dc <- at_ (mDrawCalls content) (idIndex object) ;;
      draw_drawCall solutionID pipelineID passID subpassID cam dc st
    | ObjectBatch_ =>
      batch <- at_ (mFlattenedObjects content) (idIndex object) ;;
      draw_objectBatch solutionID pipelineID passID subpassID cam batch st
    end).

(** ** renderFrame *)

(* The render-target view of an output attachment. *)
Definition resolve_rtv (pContext : DX12FrameContext) (handle : Z) : CpuHandle :=
  if handle =? 0 then RTV (mBackBufferIndex pContext)
  else if handle =? mBackBufferCount pContext
  then RTV (u32 (mBackBufferIndex pContext + mBackBufferCount pContext))
  else RTV handle.

(* "Pre-Subpass": views, load operations, OMSetRenderTargets. *)
Definition preSubpass (pContext : DX12FrameContext) (subpass : GraphicsSubpass)
  : Exec unit :=
  rtvs <- for_each (mOutputAttachments subpass) [] (fun rt rtvs =>
    let rtv := resolve_rtv pContext (mDescriptorHandle rt) in
    match mLoadOp rt with
    | ClearColor color => record (ClearRenderTargetView rtv color)
    | ClearDepthStencil _ _ _ _ =>
      throw (runtime_error "RTV should not use clear depth stencil")
    | LoadOther => ret tt
    end ;;
    ret (rtvs ++ [rtv])) ;;
  match mDepthStencilAttachment subpass with
  | Some ds =>
    let dsv := DSV (mDescriptorHandle ds) in
    match mLoadOp ds with
    | ClearColor _ => throw (runtime_error "DSV should not use clear color")
    | ClearDepthStencil clearDepth clearStencil depth stencil =>
      let flags := Z.lor (if clearDepth then D3D12_CLEAR_FLAG_DEPTH else 0)
                         (if clearStencil then D3D12_CLEAR_FLAG_STENCIL else 0) in
      record (ClearDepthStencilView dsv flags depth stencil)
    | LoadOther => ret tt
    end ;;
    record (OMSetRenderTargets rtvs (Some dsv))
  | None =>
    match rtvs with
    | [] => ret tt
    | _ => record (OMSetRenderTargets rtvs None)
    end
  end.

(* "Post-Subpass": one batched barrier call, if any transition is declared. *)
Definition postSubpass (pContext : DX12FrameContext) (resource : DX12RenderWorks)
    (subpass : GraphicsSubpass) : Exec unit :=
  match mPostViewTransitions subpass with
  | [] => ret tt
  | transitions =>
    barriers <- for_each transitions [] (fun t barriers =>
      pRes <- (if mFramebufferHandle t =? 0
               then index (mFramebuffers resource) (mBackBufferIndex pContext)
               else index (mFramebuffers resource) (mFramebufferHandle t)) ;;
      ret (barriers ++ [Transition pRes (mSource t) (mTarget t)])) ;;
    record (ResourceBarrier barriers)
  end.

Definition renderSubpass (pContext : DX12FrameContext) (resource : DX12RenderWorks)
    (cam : CameraData) (passID subpassID : Z) (subpass : GraphicsSubpass) : Exec unit :=
  preSubpass pContext subpass ;;
  for_each (mOrderedRenderQueue subpass) (0, 0) (fun queue st =>
    record (SetGraphicsRootSignature (mRootSignature subpass)) ;;
    perPassDescriptors subpass cam ;;
    for_each (mContents queue) st
      (draw_content (mSolutionID pContext) (mPipelineID pContext) passID subpassID cam)) ;;
  postSubpass pContext resource subpass.

Definition renderPass (pContext : DX12FrameContext) (resource : DX12RenderWorks)
    (cam : CameraData) (passID : Z) (pass : RenderPass) : Exec unit :=
  match mViewports pass with
  | [] => ret tt
  | viewport :: _ =>
    Expects (Nat.eqb (List.length (mViewports pass)) 1) ;;
    record (RSSetViewports (u32 (Z.of_nat (List.length (mViewports pass)))) viewport)
  end ;;
  match mScissorRects pass with
  | [] => ret tt
  | rect :: _ =>
    Expects (Nat.eqb (List.length (mScissorRects pass)) 1) ;;
    record (RSSetScissorRects (u32 (Z.of_nat (List.length (mScissorRects pass)))) rect)
  end ;;
  for_ (indexed (mGraphicsSubpasses pass)) (fun '(subpassID, subpass) =>
    renderSubpass pContext resource cam passID subpassID subpass).

(* nullptr dereferenced. *)
Definition deref {A} (p : option A) : Exec A :=
  match p with
  | Some a => ret a
  | None => throw undefined_behaviour
  end.

(* DX12FrameQueue::renderFrame.  [cam] is the camera that every subpass
   builds from the same literals with lookTo and perspective. *)
Definition renderFrame (cam : CameraData) (pContext : DX12FrameContext) : Exec unit :=
  (* met BackBuffer's pre-condition *)
  works <- deref (mRenderWorks pContext) ;;
  backBuffer <- index (mFramebuffers works) (mBackBufferIndex pContext) ;;
  record (ResourceBarrier
            [Transition backBuffer D3D12_RESOURCE_STATE_PRESENT
                        D3D12_RESOURCE_STATE_RENDER_TARGET]) ;;
  (* Render Passes *)
  rsl <- deref (mRenderSolution pContext) ;;
  pipeline <- currentPipeline rsl (mPipelineID pContext) ;;
  record SetDescriptorHeaps ;;
  for_ (indexed (mPasses pipeline)) (fun '(passID, pass) =>
    renderPass pContext works cam passID pass) ;;
  record Close ;;
  emit ExecuteCommandLists.

End Engine.

(** ** buildShaderData: the shader stages of one subpass *)

Inductive ShaderStage := PS_ | GS_ | DS_ | HS_ | VS_ | Stage_other.

Inductive Semantic :=
| BINORMAL_ | BLENDINDICES_ | BLENDWEIGHT_ | NORMAL_ | POSITIONT_ | PSIZE_
| TANGENT_ | TEXCOORD_ | SV_Position_ | Semantic_other.

Definition Semantic_eqb (a b : Semantic) : bool :=
  match a, b with
  | BINORMAL_, BINORMAL_ | BLENDINDICES_, BLENDINDICES_
  | BLENDWEIGHT_, BLENDWEIGHT_ | NORMAL_, NORMAL_ | POSITIONT_, POSITIONT_
  | PSIZE_, PSIZE_ | TANGENT_, TANGENT_ | TEXCOORD_, TEXCOORD_
  | SV_Position_, SV_Position_ | Semantic_other, Semantic_other => true
  | _, _ => false
  end.

Record ShaderInput : Type := {
  inName : string;
  inSemantic : Semantic }.

(* What the HLSL generator returns for a stage, and the vertex-shader
   inputs without a source. *)
Record StageSource : Type := {
  generateAttributes : string;
  generateModules : string;
  generateShader : string;
  getNodeInputsWithoutSource : list ShaderInput }.

Record ShaderSubpassData : Type := {
  mPS : string;                      (* mProgram.mPS *)
  mVS : string;                      (* mProgram.mVS *)
  mSemantics : Semantic -> list string }.   (* mInputLayout.mSemantics *)

Definition newline : string := String (Ascii.ascii_of_nat 10) EmptyString.

Definition is_empty (s : string) : bool :=
  match s with
  | EmptyString => true
  | String _ _ => false
  end.

(* The text assembled in [oss]. *)
Definition stage_text (src : StageSource) : string :=
  let attributes := generateAttributes src in
  ((attributes ++ (if is_empty attributes then EmptyString else newline))
     ++ generateModules src ++ generateShader src)%string.

(* mSemantics[type].emplace_back(input.mName) for each vertex input. *)
Definition add_inputs (inputs : list ShaderInput) (semantics : Semantic -> list string)
  : Semantic -> list string :=
  fold_left (fun sem input =>
    match inSemantic input with
    | Semantic_other => sem
    | type => fun t => if Semantic_eqb t type then sem t ++ [inName input] else sem t
    end) inputs semantics.

Section ShaderAssets.

(* compileShader(target, profile, name, content): the new content of the
   target buffer. *)
Variable compileShader : string -> string -> string -> string -> Exec string.

(* The visit on stageID in buildShaderData. *)
Definition buildShaderStage (bCompile : bool) (shaderName : string)
    (stageID : ShaderStage) (src : StageSource) (subpassData : ShaderSubpassData)
  : Exec ShaderSubpassData :=
  let content := stage_text src in
  match stageID with
  | PS_ =>
    if bCompile then
      ps <- compileShader (mPS subpassData) "ps_5_0" (shaderName ++ ".vs")%string content ;;
      ret {| mPS := ps; mVS := mVS subpassData; mSemantics := mSemantics subpassData |}
    else
      Expects (is_empty (mPS subpassData)) ;;
      ret {| mPS := (mPS subpassData ++ content)%string;
             mVS := mVS subpassData; mSemantics := mSemantics subpassData |}
  | GS_ => throw (invalid_argument "shader not supported")
  | DS_ => throw (invalid_argument "shader not supported")
  | HS_ => throw (invalid_argument "shader not supported")
  | VS_ =>
    let semantics := add_inputs (getNodeInputsWithoutSource src) (mSemantics subpassData) in
    if bCompile then
      vs <- compileShader (mVS subpassData) "vs_5_0" (shaderName ++ ".vs")%string content ;;
      ret {| mPS := mPS subpassData; mVS := vs; mSemantics := semantics |}
    else
      Expects (is_empty (mVS subpassData)) ;;
      ret {| mPS := mPS subpassData;
             mVS := (mVS subpassData ++ content)%string; mSemantics := semantics |}
  | Stage_other => throw (runtime_error "unknown shader")
  end.

(* The loop over subpass.mProgram.mShaders. *)
Definition buildShaderStages (bCompile : bool) (shaderName : string)
    (mShaders : list (ShaderStage * StageSource)) (subpassData : ShaderSubpassData)
  : Exec ShaderSubpassData :=
  for_each mShaders subpassData (fun '(stageID, src) data =>
    buildShaderStage bCompile shaderName stageID src data).

End ShaderAssets.

(** ** Runs of the frame queue *)

(* A run of calls to beginFrame that all return, each paired with the slot it
   returned and the fence value it stored there.  Between two calls the
   caller and the GPU are free: each call sees its own swap chain and
   fence. *)
Inductive begins : DX12FrameQueue -> list (nat * Z) -> DX12FrameQueue -> Prop :=
| begins_nil q : begins q [] q
| begins_cons sc q fence log fence' slot q' frame calls q'' :
    beginFrame sc q fence = ((log, Done (fence', slot)), q') ->
    nth_error (mFrames q') slot = Some frame ->
    begins q' calls q'' ->
    begins q ((slot, mFrameFenceId frame) :: calls) q''.

(* The usual loop: beginFrame, then endFrame, [n] times. *)
Fixpoint run_frames (n : nat) (sc : DX12SwapChain) (q : DX12FrameQueue) (fence : Fence)
  : option (list (nat * Z) * DX12FrameQueue) :=
  match n with
  | O => Some ([], q)
  | S n' =>
    match beginFrame sc q fence with
    | ((_, Done (fence1, slot)), q1) =>
      match nth_error (mFrames q1) slot, endFrame q1 fence1 slot with
      | Some frame, (_, Done fence2) =>
        match run_frames n' sc q1 fence2 with
        | Some (calls, q2) => Some ((slot, mFrameFenceId frame) :: calls, q2)
        | None => None
        end
      | _, _ => None
      end
    | _ => None
    end
  end.

(** ** Reading a log *)

Definition is_indexed_draw (c : Command) : bool :=
  match c with
  | DrawIndexedInstanced _ _ _ _ _ => true
  | _ => false
  end.

(* The number of DrawIndexedInstanced calls of a log. *)
Definition indexed_draws (log : list Event) : nat :=
  List.length (filter is_indexed_draw (commands log)).

(** ** The render targets that initPipeline has to move *)

Definition needs_transition (state : Z) : bool :=
  negb ((state =? RESOURCE_STATE_COMMON) || (state =? RESOURCE_STATE_RENDER_TARGET)).

(* The framebuffer behind render target [k] of the current solution. *)
Definition rtv_resource (sc : DX12SwapChain) (k : Z) : option Resource :=
  match nth_error (mRTVSources (currentSolution sc)) (Z.to_nat k) with
  | Some handle =>
    if handle <? 0 then None
    else nth_error (mFramebuffers (mRenderGraph sc)) (Z.to_nat handle)
  | None => None
  end.

Definition rtv_resource_or_null (sc : DX12SwapChain) (k : Z) : Resource :=
  match rtv_resource sc k with
  | Some r => r
  | None => 0
  end.

(* The transition of the specification's wording: from the declared initial
   state to RenderTarget. *)
Definition transition_as_specified (resource : Resource) (state : Z) : Barrier :=
  Transition resource state RESOURCE_STATE_RENDER_TARGET.

(* The transition that is recorded: from RenderTarget to the declared
   initial state. *)
Definition transition_as_recorded (resource : Resource) (state : Z) : Barrier :=
  Transition resource RESOURCE_STATE_RENDER_TARGET state.

(** ** Vocabulary of the statements *)

(* The constant buffer is declared under the collection's index. *)
Definition matches (collectionIndex : DescriptorIndex) (cb : ConstantBuffer) : bool :=
  DescriptorIndex_eqb (cbIndex cb) collectionIndex.

Definition constant_buffer_attribute : Descriptor := {| dDataType := ConstantBuffer_ |}.

Definition never_blocks {A} (m : Exec A) : Prop := outcome_of m <> Blocked.

Definition per_pass_only (constant : Constant) : Prop :=
  cSource constant = EngineSource_ /\
  (cDataType constant = Proj_ \/ cDataType constant = View_).

Definition per_object_only (constant : Constant) : Prop :=
  cSource constant = EngineSource_ /\
  (cDataType constant = WorldView_ \/ cDataType constant = WorldInvT_).

Definition engine_constant (d : DataID) : Constant :=
  {| cSource := EngineSource_; cDataType := d |}.


(* The bytes of a per-pass field. *)
Definition field_bytes (cam : CameraData) (constant : Constant) : list byte :=
  matrix_data (match cDataType constant with
               | Proj_ => mProj cam
               | _ => mView cam
               end).

(** ** The indexed draws of a renderer *)

(* The DrawIndexedInstanced calls of a log, in order. *)
Definition indexed_draw_commands (log : list Event) : list Command :=
  filter is_indexed_draw (commands log).

Section ExpectedDraws.

Variable getSubpassData :
  DX12Material -> Z -> Z -> Z -> Z -> Outcome (DX12ShaderQueueData * (Z * Z * Z)).

(* The number of shader subpasses of the queue that getSubpassData yields
   for a material: level 0, variant 0. *)
Definition subpass_count (solutionID pipelineID passID subpassID : Z)
    (material : DX12Material) : nat :=
  match getSubpassData material solutionID pipelineID passID subpassID with
  | Done (queue, _) =>
    match shader_subpasses queue with
    | (_, Done subpasses) => List.length subpasses
    | _ => O
    end
  | _ => O
  end.

(* Submeshes and materials walked side by side, to the end of the shorter:
   for each pair, one indexed draw of the submesh per shader subpass of the
   material. *)
Fixpoint material_draws (solutionID pipelineID passID subpassID : Z)
    (submeshes : list SubMesh) (materials : list DX12Material) : list Command :=
  match submeshes, materials with
  | submesh :: submeshes', material :: materials' =>
    repeat (DrawIndexedInstanced (mIndexCount submesh) 1 (mIndexOffset submesh) 0 0)
           (subpass_count solutionID pipelineID passID subpassID material)
    ++ material_draws solutionID pipelineID passID subpassID submeshes' materials'
  | _, _ => []
  end.

End ExpectedDraws.

(* A computation that logs no indexed draw, whatever its outcome. *)
Definition quiet {A} (m : Exec A) : Prop := indexed_draw_commands (log_of m) = [].

Definition draw_of (submesh : SubMesh) : Command :=
  DrawIndexedInstanced (mIndexCount submesh) 1 (mIndexOffset submesh) 0 0.

(** ** More vocabulary: the frame queue *)




(** ** More vocabulary: what a log holds *)

(* Every entry of the log satisfies [P]. *)
Definition logs_only {A} (P : Event -> Prop) (m : Exec A) : Prop :=
  Forall P (log_of m).

(* The computation ends in a failure. *)
Definition raises {A} (m : Exec A) : Prop := exists log f, m = (log, Fatal f).

(* What a descriptor resolver may do: bind a root descriptor table, take
   descriptors from the heap, upload, create a constant-buffer view. *)
Definition resolver_event (e : Event) : bool :=
  match e with
  | Record_ (SetGraphicsRootDescriptorTable _ _) => true
  | AllocateCircular _ | Upload _ _ _ _ | CreateConstantBufferView _ _ => true
  | _ => false
  end.

(* What drawing a content may do besides. *)
Definition draw_event (e : Event) : bool :=
  resolver_event e ||
  match e with
  | Record_ (IASetPrimitiveTopology _) | Record_ (IASetVertexBuffers _)
  | Record_ (IASetIndexBuffer _) | Record_ (SetPipelineState _)
  | Record_ (DrawInstanced _ _ _ _) | Record_ (DrawIndexedInstanced _ _ _ _ _) => true
  | _ => false
  end.

(* What a render pass may do besides. *)
Definition pass_event (e : Event) : bool :=
  draw_event e ||
  match e with
  | Record_ (RSSetViewports _ _) | Record_ (RSSetScissorRects _ _)
  | Record_ (ClearRenderTargetView _ _) | Record_ (ClearDepthStencilView _ _ _ _)
  | Record_ (OMSetRenderTargets _ _) | Record_ (SetGraphicsRootSignature _)
  | Record_ (ResourceBarrier _) => true
  | _ => false
  end.

(* Closing the list and handing it to the queue. *)
Definition is_submission (e : Event) : bool :=
  match e with
  | Record_ Close | ExecuteCommandLists => true
  | _ => false
  end.

(** ** More vocabulary: attachments and transitions *)

Definition clears_depth (op : LoadOp) : bool :=
  match op with
  | ClearDepthStencil _ _ _ _ => true
  | _ => false
  end.

Definition clears_color (op : LoadOp) : bool :=
  match op with
  | ClearColor _ => true
  | _ => false
  end.

Definition output_view (pContext : DX12FrameContext) (rt : Attachment) : CpuHandle :=
  resolve_rtv pContext (mDescriptorHandle rt).

(* The clears of the output attachments, in order. *)
Definition target_clears (pContext : DX12FrameContext) (outputs : list Attachment)
  : list Command :=
  flat_map (fun rt =>
    match mLoadOp rt with
    | ClearColor color => [ClearRenderTargetView (output_view pContext rt) color]
    | _ => []
    end) outputs.

(* The clear of the depth-stencil attachment. *)
Definition depth_clear (ds : Attachment) : list Command :=
  match mLoadOp ds with
  | ClearDepthStencil clearDepth clearStencil depth stencil =>
    [ClearDepthStencilView (DSV (mDescriptorHandle ds))
       (match clearDepth, clearStencil with
        | true, true => 3
        | true, false => 1
        | false, true => 2
        | false, false => 0
        end) depth stencil]
  | _ => []
  end.

(* The framebuffer of a post-subpass transition: handle 0 is the back
   buffer. *)
Definition transition_resource (pContext : DX12FrameContext) (resource : DX12RenderWorks)
    (t : ViewTransition) : option Resource :=
  let i := if mFramebufferHandle t =? 0 then mBackBufferIndex pContext
           else mFramebufferHandle t in
  if i <? 0 then None else nth_error (mFramebuffers resource) (Z.to_nat i).

Definition transition_barrier (pContext : DX12FrameContext) (resource : DX12RenderWorks)
    (t : ViewTransition) : Barrier :=
  Transition (match transition_resource pContext resource t with
              | Some r => r
              | None => 0
              end) (mSource t) (mTarget t).

Definition is_OMSetRenderTargets (c : Command) : bool :=
  match c with
  | OMSetRenderTargets _ _ => true
  | _ => false
  end.

(** ** More vocabulary: collections *)

Definition is_Persistent (p : Persistency) : bool := Persistency_eqb p Persistent_.

(* A collection that the bind of a pre-built table serves. *)
Definition prebuilt (collection : DescriptorCollection) : bool :=
  is_Table (mType (mIndex collection)) && is_Persistent (mPersistency (mIndex collection)).

Definition table_binding (list : DescriptorList) : Event :=
  Record_ (SetGraphicsRootDescriptorTable (mSlot list) (GpuOffset (mGpuOffset list))).

(* The collections that the per-pass resolver looks at. *)
Definition per_pass_collection (PerPass : Z) (collection : DescriptorCollection) : bool :=
  (mUpdate (mIndex collection) =? PerPass) && negb (is_SSV (mType (mIndex collection))).

Definition with_descriptors (subpass : GraphicsSubpass)
    (descriptors : list DescriptorCollection) : GraphicsSubpass := {|
  mOutputAttachments := mOutputAttachments subpass;
  mDepthStencilAttachment := mDepthStencilAttachment subpass;
  mOrderedRenderQueue := mOrderedRenderQueue subpass;
  mRootSignature := mRootSignature subpass;
  mDescriptors := descriptors;
  mConstantBuffers := mConstantBuffers subpass;
  mPostViewTransitions := mPostViewTransitions subpass |}.

(* The bytes of a per-object field, for the object's two transforms. *)
Definition object_field_bytes (worldView worldInvT : Matrix4f) (constant : Constant)
  : list byte :=
  matrix_data (match cDataType constant with
               | WorldView_ => worldView
               | _ => worldInvT
               end).

(* A writer of constants that logs nothing and keeps the size of the
   buffer. *)
Definition keeps_size (write : Constant -> Cursor -> Exec Cursor) : Prop :=
  forall constant c log o,
    write constant c = (log, o) ->
    log = [] /\ forall c', o = Done c' -> List.length (fst c') = List.length (fst c).

(** ** More vocabulary: what the resolvers turn down *)

Definition is_Engine (s : Source) : bool :=
  match s with
  | EngineSource_ => true
  | _ => false
  end.

Definition is_ConstantBuffer (a : AttributeID) : bool :=
  match a with
  | ConstantBuffer_ => true
  | _ => false
  end.

(* Attributes that the per-draw resolver has no case for. *)
Definition perDraw_unsupported_attribute (attr : Descriptor) : bool :=
  match dDataType attr with
  | MainTex_ | Attr_monostate => true
  | _ => false
  end.

Definition perDraw_unsupported_subrange (subrange : DescriptorSubrange) : bool :=
  negb (is_Engine (srSource subrange))
  || existsb perDraw_unsupported_attribute (srDescriptors subrange).

Definition perDraw_unsupported_list (list : DescriptorList) : bool :=
  Nat.eqb (List.length (mRanges list)) 0
  || (mCapacity list =? 0)
  || existsb (fun range => existsb perDraw_unsupported_subrange (mSubranges range))
             (mRanges list).

(* A collection that the per-draw resolver turns down. *)
Definition perDraw_rejects (PerPass : Z) (collection : DescriptorCollection) : bool :=
  negb (is_Table (mType (mIndex collection)))
  || (negb (is_Persistent (mPersistency (mIndex collection)))
      && (negb (mUpdate (mIndex collection) <? PerPass)
          || existsb perDraw_unsupported_list (mResourceViewLists collection)
          || negb (Nat.eqb (List.length (mSamplerLists collection)) 0))).

Definition perPass_unsupported_subrange (subrange : DescriptorSubrange) : bool :=
  negb (is_Engine (srSource subrange))
  || existsb (fun attr => negb (is_ConstantBuffer (dDataType attr)))
             (srDescriptors subrange).

Definition perPass_unsupported_list (collection : DescriptorCollection)
    (list : DescriptorList) : bool :=
  negb (is_Table (mType (mIndex collection)))
  || (mCapacity list =? 0)
  || (negb (is_Persistent (mPersistency (mIndex collection)))
      && existsb (fun range => existsb perPass_unsupported_subrange (mSubranges range))
                 (mRanges list)).

(* A collection that the per-pass resolver turns down. *)
Definition perPass_rejects (PerPass : Z) (collection : DescriptorCollection) : bool :=
  per_pass_collection PerPass collection
  && (existsb (perPass_unsupported_list collection) (mResourceViewLists collection)
      || negb (Nat.eqb (List.length (mSamplerLists collection)) 0)).

(** ** More vocabulary: draws and pipeline states *)

Definition is_any_draw (c : Command) : bool :=
  match c with
  | DrawInstanced _ _ _ _ | DrawIndexedInstanced _ _ _ _ _ => true
  | _ => false
  end.

Definition is_SetPipelineState (c : Command) : bool :=
  match c with
  | SetPipelineState _ => true
  | _ => false
  end.

(* The pipeline state of a shader subpass for a vertex-layout key:
   mStates.at(mVertexLayoutIndex.at(key)).mObject, 0 when an at() throws. *)
Definition pso_of (layoutKey : Z) (shaderSubpass : DX12ShaderSubpassData) : PipelineState :=
  match at_ (mVertexLayoutIndex shaderSubpass) layoutKey with
  | (_, Done layoutID) =>
    match at_ (mStates shaderSubpass) layoutID with
    | (_, Done state) => mObject state
    | _ => 0
    end
  | _ => 0
  end.

(* The SetPipelineState calls that a sequence of pipeline states needs when
   [prev] is bound: one at each change. *)
Fixpoint pso_changes (prev : PipelineState) (psos : list PipelineState) : list Command :=
  match psos with
  | [] => []
  | pso :: rest =>
    (if prev =? pso then [] else [SetPipelineState pso]) ++ pso_changes pso rest
  end.

(* The pipeline-state changes and draws of a loop over shader subpasses
   with the given pipeline states, [prev] bound at the start. *)
Fixpoint subpass_commands (draw : Command) (prev : PipelineState)
    (psos : list PipelineState) : list Command :=
  match psos with
  | [] => []
  | pso :: rest =>
    (if prev =? pso then [] else [SetPipelineState pso])
    ++ [draw] ++ subpass_commands draw pso rest
  end.

(* The pipeline state bound after them. *)
Definition last_pso (prev : PipelineState) (psos : list PipelineState) : PipelineState :=
  fold_left (fun _ pso => pso) psos prev.

(** ** More vocabulary: initPipeline *)



(** ** More vocabulary: the root signature of a subpass *)

Definition is_SetGraphicsRootSignature (c : Command) : bool :=
  match c with
  | SetGraphicsRootSignature _ => true
  | _ => false
  end.

(* A log entry that does not set the root signature. *)
Definition keeps_root_signature (e : Event) : Prop :=
  match e with
  | Record_ c => is_SetGraphicsRootSignature c = false
  | _ => True
  end.

(** ** The shader asset builder: buildShaderData, buildShaders, build

    The nested maps of a prototype are association lists in iteration
    order; the maps of the data are association lists in the order in which
    the entries were put in; the vectors are lists.  A struct with one
    member is the member: a pass is its mSubpasses, a level its mPasses, a
    queue its mLevels, a pipeline its mQueues, a solution its mPipelines.
    What a failed call leaves in the data it was filling is not modelled. *)

From Stdlib Require DecimalString.

Definition Ensures (b : bool) : Exec unit := Expects b.

(* std::to_string of a size_t. *)
Definition to_string (k : nat) : string :=
  DecimalString.NilEmpty.string_of_uint (Nat.to_uint k).

(* m.count(key) != 0 *)
Definition has_key {V} (key : string) (m : list (string * V)) : bool :=
  existsb (fun kv => String.eqb (fst kv) key) m.

(* m.at(key): throws std::out_of_range. *)
Fixpoint map_at {V} (m : list (string * V)) (key : string) : Exec V :=
  match m with
  | [] => throw out_of_range
  | (k, v) :: rest => if String.eqb k key then ret v else map_at rest key
  end.

(* For every entry of a map, in order:
     auto res = data.emplace(key, {}); Ensures(res.second);
   and then the new value is filled in by [build]. *)
Definition emplace_each {V W} (build : string -> V -> Exec W)
    (m : list (string * V)) (data : list (string * W)) : Exec (list (string * W)) :=
  for_each m data (fun '(key, v) data =>
    Ensures (negb (has_key key data)) ;;
    w <- build key v ;;
    ret (data ++ [(key, w)])).

(* A descriptor of a root-signature table; of its type only "is it an SRV"
   is looked at. *)
Record RootDescriptor : Type := {
  rdType : RootType;                 (* mType *)
  rdName : string }.                 (* mName *)

(* rsg.mTables: the index of a table and its mDescriptors. *)
Definition RootTables : Type := list (DescriptorIndex * list RootDescriptor).

(* A program of a group: what the HLSLGenerator of the program yields for
   a stage, with the modules and the group of the call, and the tables of
   its root signature.  The program pointer is not null, and the program
   has a vertex shader where the inputs of one are asked for. *)
Record ProgramEntry : Type := {
  hlsl : ShaderStage -> StageSource;
  mTables : RootTables }.

(* group.mPrograms *)
Definition ShaderGroup : Type := list (string * ProgramEntry).

(* The four members of a shader state that are copied; the three
   getRenderType overloads are parameters below. *)
Record ShaderState : Type := {
  mBlendState : Z;
  mSampleMask : Z;
  mRasterizerState : Z;
  mDepthStencilState : Z }.

(* A subpass of a prototype: mShaderState, and the keys of
   mProgram.mShaders in iteration order. *)
Record ShaderSubpass : Type := {
  mShaderState : ShaderState;
  mShaders : list ShaderStage }.

Definition ShaderPass : Type := list ShaderSubpass.
Definition ShaderLevel : Type := list (string * ShaderPass).
Definition ShaderQueue : Type := list ShaderLevel.
Definition ShaderPipeline : Type := list (string * ShaderQueue).
Definition ShaderSolution : Type := list (string * ShaderPipeline).

Record ShaderPrototype : Type := {
  ptName : string;                                 (* mName *)
  ptSolutions : list (string * ShaderSolution) }.  (* mSolutions *)

(* A subpass of the data: mState, mTextures, and mProgram with
   mInputLayout. *)
Record SubpassData : Type := {
  mState : ShaderState;
  mTextures : list string;
  mProgram : ShaderSubpassData }.

Definition PassData : Type := list SubpassData.
Definition LevelData : Type := list (string * PassData).
Definition QueueData : Type := list LevelData.
Definition PipelineData : Type := list (string * QueueData).
Definition SolutionData : Type := list (string * PipelineData).

Record ShaderData : Type := {
  sdName : string;                                 (* mName *)
  sdSolutions : list (string * SolutionData) }.    (* mSolutions *)

(* What emplace_back() appends to mSubpasses, before it is filled. *)
Definition new_program : ShaderSubpassData := {|
  mPS := EmptyString; mVS := EmptyString; mSemantics := fun _ => [] |}.

(* The name under which the program of subpass number [k] is looked up. *)
Definition shader_name (k : nat) (passName prototypeName : string) : string :=
  ((to_string k ++ "/") ++ (if is_empty passName then "@" else passName)
     ++ "/" ++ prototypeName)%string.

Definition is_SRV (t : RootType) : bool := RootType_eqb t SRV_.

Section ShaderData.

(* UpdateEnum::PerBatch *)
Variable PerBatch : Z.

(* The overloads of getRenderType for the blend, the rasterizer and the
   depth-stencil state. *)
Variable getRenderBlend : Z -> Z.
Variable getRenderRasterizer : Z -> Z.
Variable getRenderDepthStencil : Z -> Z.

(* sw.getGroup(bundleName, pipelineName, queueName) *)
Variable getGroup : string -> string -> string -> Outcome ShaderGroup.

Variable compileShader : string -> string -> string -> string -> Exec string.

Definition render_state (state : ShaderState) : ShaderState := {|
  mBlendState := getRenderBlend (mBlendState state);
  mSampleMask := mSampleMask state;
  mRasterizerState := getRenderRasterizer (mRasterizerState state);
  mDepthStencilState := getRenderDepthStencil (mDepthStencilState state) |}.

(* The body of the loop over rsg.mTables of buildShaderData, for one
   table. *)
Definition collectTable (table : DescriptorIndex * list RootDescriptor)
    (textures : list string) : Exec (list string) :=
  let '(index, descriptors) := table in
  if negb (mUpdate index =? PerBatch) then ret textures
  else
    match mType index with
    | Constants_ => throw (runtime_error "root constants not supported yet")
    | CBV_ => throw (runtime_error "root cbv not supported yet")
    | UAV_ => throw (runtime_error "root uav not supported yet")
    | SRV_ => throw (runtime_error "root srv not supported yet")
    | Table_ =>
      for_each descriptors textures (fun d textures =>
        if is_SRV (rdType d)
        then Expects (negb (is_empty (rdName d))) ;; ret (textures ++ [rdName d])
        else ret textures)
    | SSV_ => ret textures
    end.

(* The loop: the texture names of the per-batch tables, appended to
   mTextures. *)
Definition collectTextures (tables : RootTables) (textures : list string)
  : Exec (list string) :=
  for_each tables textures collectTable.

(* The stages of a subpass with the text generated for each. *)
Definition stage_sources (program : ProgramEntry) (stages : list ShaderStage)
  : list (ShaderStage * StageSource) :=
  map (fun stageID => (stageID, hlsl program stageID)) stages.

(* The body of the loop over the subpasses of a pass in buildShaderData,
   from the lookup of the program on: the new element of mSubpasses as the
   body leaves it. *)
Definition buildSubpass (bCompile : bool) (group : ShaderGroup) (shaderName : string)
    (subpass : ShaderSubpass) : Exec SubpassData :=
  program <- map_at group shaderName ;;
  let state := render_state (mShaderState subpass) in
  textures <- collectTextures (mTables program) [] ;;
  data <- buildShaderStages compileShader bCompile shaderName
            (stage_sources program (mShaders subpass)) new_program ;;
  ret {| mState := state; mTextures := textures; mProgram := data |}.

(* The loop over the subpasses of a pass.  [k] is read and incremented for
   the name, and incremented again at the end of the body. *)
Definition buildSubpasses (bCompile : bool) (prototypeName : string)
    (group : ShaderGroup) (passName : string) (pass : ShaderPass) : Exec PassData :=
  r <- for_each pass (O, []) (fun subpass '(k, subpasses) =>
    let shaderName := shader_name k passName prototypeName in
    let k := S k in
    subpassData <- buildSubpass bCompile group shaderName subpass ;;
    let k := S k in
    ret (k, subpasses ++ [subpassData])) ;;
  ret (snd r).

(* The loop over the levels of a queue, after the group is fetched. *)
Definition buildQueue (bCompile : bool) (prototypeName : string)
    (bundleName pipelineName queueName : string) (queue : ShaderQueue) : Exec QueueData :=
  group <- call (getGroup bundleName pipelineName queueName) ;;
  for_each queue [] (fun level levels =>
    levelData <- emplace_each (buildSubpasses bCompile prototypeName group) level [] ;;
    ret (levels ++ [levelData])).

Definition buildSolution (bCompile : bool) (prototypeName : string)
    (bundleName : string) (bundle : ShaderSolution) : Exec SolutionData :=
  emplace_each (fun pipelineName pipeline =>
    emplace_each (buildQueue bCompile prototypeName bundleName pipelineName)
                 pipeline [])
    bundle [].

(* buildShaderData(prototype, modules, sw, prototypeData, bCompile): the
   data as the call leaves it. *)
Definition buildShaderData (prototype : ShaderPrototype) (prototypeData : ShaderData)
    (bCompile : bool) : Exec ShaderData :=
  solutions <- emplace_each (buildSolution bCompile (ptName prototype))
                 (ptSolutions prototype) (sdSolutions prototypeData) ;;
  ret {| sdName := ptName prototype; sdSolutions := solutions |}.

(** *** ShaderAssetBuilder::buildShaders *)

(* The visit on stageID in buildShaders: always compiled, the pixel shader
   under its own name. *)
Definition buildShadersStage (shaderName : string) (stageID : ShaderStage)
    (src : StageSource) (subpassData : ShaderSubpassData) : Exec ShaderSubpassData :=
  let content := stage_text src in
  match stageID with
  | PS_ =>
    ps <- compileShader (mPS subpassData) "ps_5_0" (shaderName ++ ".ps")%string content ;;
    ret {| mPS := ps; mVS := mVS subpassData; mSemantics := mSemantics subpassData |}
  | GS_ => throw (invalid_argument "shader not supported")
  | DS_ => throw (invalid_argument "shader not supported")
  | HS_ => throw (invalid_argument "shader not supported")
  | VS_ =>
    let semantics := add_inputs (getNodeInputsWithoutSource src) (mSemantics subpassData) in
    vs <- compileShader (mVS subpassData) "vs_5_0" (shaderName ++ ".vs")%string content ;;
    ret {| mPS := mPS subpassData; mVS := vs; mSemantics := semantics |}
  | Stage_other => throw (runtime_error "unknown shader")
  end.

(* The body of the loop over the subpasses of a pass in buildShaders, from
   the lookup of the program on: no table of the root signature is looked
   at. *)
Definition buildShadersSubpass (group : ShaderGroup) (shaderName : string)
    (subpass : ShaderSubpass) : Exec SubpassData :=
  program <- map_at group shaderName ;;
  let state := render_state (mShaderState subpass) in
  data <- for_each (stage_sources program (mShaders subpass)) new_program
            (fun '(stageID, src) data => buildShadersStage shaderName stageID src data) ;;
  ret {| mState := state; mTextures := []; mProgram := data |}.

Definition buildShadersSubpasses (prototypeName : string)
    (group : ShaderGroup) (passName : string) (pass : ShaderPass) : Exec PassData :=
  r <- for_each pass (O, []) (fun subpass '(k, subpasses) =>
    let shaderName := shader_name k passName prototypeName in
    let k := S k in
    subpassData <- buildShadersSubpass group shaderName subpass ;;
    let k := S k in
    ret (k, subpasses ++ [subpassData])) ;;
  ret (snd r).

Definition buildShadersQueue (prototypeName : string)
    (bundleName pipelineName queueName : string) (queue : ShaderQueue) : Exec QueueData :=
  group <- call (getGroup bundleName pipelineName queueName) ;;
  for_each queue [] (fun level levels =>
    levelData <- emplace_each (buildShadersSubpasses prototypeName group) level [] ;;
    ret (levels ++ [levelData])).

(* ShaderAssetBuilder::buildShaders(database, sw, modules): mShaders as the
   call leaves it.  The name of the new data is not assigned. *)
Definition buildShaders (mPrototypes : list (string * ShaderPrototype))
    (shaders : list (string * ShaderData)) : Exec (list (string * ShaderData)) :=
  emplace_each (fun prototypeName prototype =>
    solutions <- emplace_each (fun bundleName bundle =>
      emplace_each (fun pipelineName pipeline =>
        emplace_each (buildShadersQueue prototypeName bundleName pipelineName)
                     pipeline [])
        bundle [])
      (ptSolutions prototype) [] ;;
    ret {| sdName := EmptyString; sdSolutions := solutions |})
    mPrototypes shaders.

End ShaderData.

(** *** ShaderAssetBuilder::build *)

Section Resources.

(* The mapped type of resources.mShaders, and its constructor from the
   data of a prototype. *)
Variable ShaderResource : Type.
Variable makeResource : ShaderData -> ShaderResource.

(* boost::uuids::name_generator_sha1 on the oid namespace; the uuid as a
   number. *)
Variable gen : string -> Z.

Definition has_id {V} (id : Z) (m : list (Z * V)) : bool :=
  existsb (fun kv => fst kv =? id) m.

(* m.find(id) *)
Fixpoint find_id {V} (id : Z) (m : list (Z * V)) : option V :=
  match m with
  | [] => None
  | (k, v) :: rest => if k =? id then Some v else find_id id rest
  end.

(* build(resources): resources.mShaders as the call leaves it.  emplace
   does nothing when the key is there. *)
Definition build (shaders : list (string * ShaderData))
    (resources : list (Z * ShaderResource)) : list (Z * ShaderResource) :=
  fold_left (fun resources '(prototypeName, prototypeData) =>
    let metaID := gen prototypeName in
    if has_id metaID resources then resources
    else resources ++ [(metaID, makeResource prototypeData)])
    shaders resources.

End Resources.

(** ** More vocabulary: the shader asset builder *)

(* The semantics that name a vertex element. *)
Definition is_vertex_semantic (s : Semantic) : bool :=
  match s with
  | Semantic_other => false
  | _ => true
  end.

(* The names of the inputs with semantic [t], in order. *)
Definition inputs_of (t : Semantic) (inputs : list ShaderInput) : list string :=
  map inName (filter (fun input => Semantic_eqb t (inSemantic input)) inputs).

Definition ShaderStage_eqb (a b : ShaderStage) : bool :=
  match a, b with
  | PS_, PS_ | GS_, GS_ | DS_, DS_ | HS_, HS_ | VS_, VS_
  | Stage_other, Stage_other => true
  | _, _ => false
  end.

(* The stages that the builder has a case for. *)
Definition supported_stage (s : ShaderStage) : bool :=
  match s with
  | PS_ | VS_ => true
  | _ => false
  end.

(* The source given for a stage, if the stage is there. *)
Definition source_of (stage : ShaderStage) (stages : list (ShaderStage * StageSource))
  : option StageSource :=
  match find (fun s => ShaderStage_eqb (fst s) stage) stages with
  | Some s => Some (snd s)
  | None => None
  end.

(* The text that a stage contributes. *)
Definition text_of (stage : ShaderStage) (stages : list (ShaderStage * StageSource))
  : string :=
  match source_of stage stages with
  | Some src => stage_text src
  | None => EmptyString
  end.

(* The failure of a stage without a case. *)
Definition stage_failure (s : ShaderStage) : Failure :=
  match s with
  | Stage_other => runtime_error "unknown shader"
  | _ => invalid_argument "shader not supported"
  end.

(* The SRV names of a table. *)
Definition table_textures (descriptors : list RootDescriptor) : list string :=
  map rdName (filter (fun d => is_SRV (rdType d)) descriptors).

Definition per_batch_table (PerBatch : Z) (index : DescriptorIndex) : bool :=
  (mUpdate index =? PerBatch) && is_Table (mType index).

(* The SRV names of the per-batch descriptor tables, in order. *)
Definition batch_textures (PerBatch : Z) (tables : RootTables) : list string :=
  flat_map (fun table =>
    if per_batch_table PerBatch (fst table) then table_textures (snd table) else [])
    tables.

(* A per-batch root parameter that is neither a table nor an SSV. *)
Definition unsupported_root (PerBatch : Z) (table : DescriptorIndex * list RootDescriptor)
  : bool :=
  (mUpdate (fst table) =? PerBatch)
  && negb (is_Table (mType (fst table)) || is_SSV (mType (fst table))).

(* A per-batch table with an SRV that has no name. *)
Definition unnamed_texture (PerBatch : Z) (table : DescriptorIndex * list RootDescriptor)
  : bool :=
  per_batch_table PerBatch (fst table)
  && existsb (fun d => is_SRV (rdType d) && is_empty (rdName d)) (snd table).

(* The values of a map with [f] applied, under their keys. *)
Definition keyed {V W} (f : V -> W) (m : list (string * V)) : list (string * W) :=
  map (fun kv => (fst kv, f (snd kv))) m.

(* The names of a prototype's solutions, pipelines and queues, and for
   each level of a queue the names of its passes with their number of
   subpasses. *)
Definition Outline : Type :=
  list (string * list (string * list (string * list (list (string * nat))))).

Definition prototype_outline (prototype : ShaderPrototype) : Outline :=
  keyed (keyed (keyed (map (keyed (@List.length ShaderSubpass)))))
        (ptSolutions prototype).

Definition data_outline (data : ShaderData) : Outline :=
  keyed (keyed (keyed (map (keyed (@List.length SubpassData)))))
        (sdSolutions data).

(* All subpasses of a data, in order. *)
Definition data_subpasses (data : ShaderData) : list SubpassData :=
  flat_map (fun solution =>
    flat_map (fun pipeline =>
      flat_map (fun queue =>
        flat_map (fun level =>
          flat_map (fun pass => snd pass) level)
          (snd queue))
        (snd pipeline))
      (snd solution))
    (sdSolutions data).

(* The failure of a per-batch root parameter that the builder turns down. *)
Definition root_failure (table : DescriptorIndex * list RootDescriptor) : Failure :=
  match mType (fst table) with
  | Constants_ => runtime_error "root constants not supported yet"
  | CBV_ => runtime_error "root cbv not supported yet"
  | UAV_ => runtime_error "root uav not supported yet"
  | SRV_ => runtime_error "root srv not supported yet"
  | _ => contract_violation
  end.

(** ** Sample data *)

Module Sample.

Definition frame : DX12FrameContext := {|
  mFrameFenceId := 0; mBackBufferIndex := 0; mBackBufferCount := 0;
  mBackBuffer := 0; mBackBufferRTV := (0, false); mBackBufferRTVsRGB := (0, true);
  mRenderSolution := None; mRenderWorks := None;
  mSolutionID := 0; mPipelineID := 0 |}.

(* Three framebuffers; the third render target starts as a pixel-shader
   resource (0x80). *)
Definition works : DX12RenderWorks := {|
  mFramebuffers := [100; 101; 102]; mNumBackBuffers := 2 |}.

Definition pipeline : DX12RenderPipeline := {|
  mPasses := []; mRTVInitialStates := [0; 4; 128] |}.

Definition solution : DX12RenderSolution := {|
  mPipelines := [pipeline]; mRTVSources := [0; 1; 2] |}.

Definition sc : DX12SwapChain := {|
  mSwapChain := true; GetCurrentBackBufferIndex := 1;
  mRenderGraph := works; currentSolution := solution;
  getSolutionID := 0; getPipelineID := 0 |}.

(* A ring of three frames, as the constructor leaves it. *)
Definition queue : DX12FrameQueue := {|
  mNextFrameFence := 0; mNextFrameIndex := 0; mFrames := [frame; frame; frame] |}.

Definition fence : Fence := {| completed := 0; queued := [] |}.

(* Slot 0 holds frame 5; the GPU has completed 3 and has 4 queued. *)
Definition busy_frame : DX12FrameContext := {|
  mFrameFenceId := 5; mBackBufferIndex := 0; mBackBufferCount := 2;
  mBackBuffer := 0; mBackBufferRTV := (0, false); mBackBufferRTVsRGB := (0, true);
  mRenderSolution := Some solution; mRenderWorks := Some works;
  mSolutionID := 0; mPipelineID := 0 |}.

Definition busy_queue : DX12FrameQueue := {|
  mNextFrameFence := 6; mNextFrameIndex := 0; mFrames := [busy_frame; frame] |}.

Definition late_fence : Fence := {| completed := 3; queued := [4] |}.
Definition ready_fence : Fence := {| completed := 3; queued := [4; 5] |}.

End Sample.

Module SampleBindings.

(* UpdateEnum::PerPass, for the instances. *)
Definition PerPass : Z := 2.

Definition cam : CameraData := {|
  mView := fun _ => Byte.x11;
  mProj := fun _ => Byte.x22 |}.

(* The product is not looked into. *)
Definition mat_mul (a b : Matrix4f) : Matrix4f := fun i => b i.

Definition perPassIndex : DescriptorIndex := {|
  mUpdate := PerPass; mType := Table_; mPersistency := Dynamic_ |}.

Definition perInstanceIndex : DescriptorIndex := {|
  mUpdate := 0; mType := Table_; mPersistency := Dynamic_ |}.

Definition engine (d : DataID) : Constant := {| cSource := EngineSource_; cDataType := d |}.

(* [View (64 bytes)], declared size 64. *)
Definition viewCB : ConstantBuffer := {|
  cbIndex := perPassIndex; mSize := 64; mConstants := [engine View_] |}.

(* A second definition with the same index: projection and view, 512 bytes. *)
Definition projViewCB : ConstantBuffer := {|
  cbIndex := perPassIndex; mSize := 512; mConstants := [engine Proj_; engine View_] |}.

Definition worldViewCB : ConstantBuffer := {|
  cbIndex := perPassIndex; mSize := 64; mConstants := [engine WorldView_] |}.

Definition cbvList : DescriptorList := {|
  mSlot := 3; mCapacity := 1; mGpuOffset := 0;
  mRanges := [ {| mSubranges := [ {| srSource := EngineSource_;
                                     srDescriptors := [ {| dDataType := ConstantBuffer_ |} ] |} ] |} ] |}.

Definition perPassCollection : DescriptorCollection := {|
  mIndex := perPassIndex; mResourceViewLists := [cbvList]; mSamplerLists := [] |}.

(* A subpass with two constant buffers declared under the same index. *)
Definition ambiguous_subpass : GraphicsSubpass := {|
  mOutputAttachments := []; mDepthStencilAttachment := None;
  mOrderedRenderQueue := []; mRootSignature := 7;
  mDescriptors := [perPassCollection];
  mConstantBuffers := [viewCB; projViewCB];
  mPostViewTransitions := [] |}.

End SampleBindings.

Module SampleScene.

Import SampleBindings.

(* One per-draw constant buffer: the world-view matrix. *)
Definition objectCB : ConstantBuffer := {|
  cbIndex := perInstanceIndex; mSize := 64; mConstants := [engine WorldView_] |}.

Definition shaderSubpass : DX12ShaderSubpassData := {|
  mVertexLayoutIndex := [0];
  mStates := [ {| mObject := 9 |} ];
  ssConstantBuffers := [objectCB] |}.

(* A shader queue with [n] subpasses in level 0, variant 0. *)
Definition shaderQueue (n : nat) : DX12ShaderQueueData := {|
  sqLevels := [ {| slPasses := [ {| spSubpasses := repeat shaderSubpass n |} ] |} ] |}.

Definition perInstanceCollection : DescriptorCollection := {|
  mIndex := perInstanceIndex; mResourceViewLists := [cbvList]; mSamplerLists := [] |}.

Definition materialSubpass : DX12MaterialSubpassData := {|
  mCollections := [perInstanceCollection] |}.

(* A material whose shader has [n] subpasses. *)
Definition material (n : nat) : DX12Material := {|
  mShader := Z.of_nat n;
  mShaderData :=
    [ {| msPipelines :=
         [ {| mQueues :=
              [ {| mqLevels :=
                   [ {| mlPasses :=
                        [ {| mpSubpasses := repeat materialSubpass n |} ] |} ] |} ] |} ] |} ] |}.

Definition getSubpassData (m : DX12Material) (solutionID pipelineID passID subpassID : Z)
  : Outcome (DX12ShaderQueueData * (Z * Z * Z)) :=
  Done (shaderQueue (Z.to_nat (mShader m)), (0, 0, 0)).

(* Two submeshes. *)
Definition mesh : DX12MeshData := {|
  mSubMeshes := [ {| mIndexCount := 6; mIndexOffset := 0 |};
                  {| mIndexCount := 12; mIndexOffset := 6 |} ];
  mPrimitiveTopology := 4;
  mVertexBufferViews := [ {| vbLocation := 8192; vbSize := 960; vbStride := 32 |} ];
  mIndexBufferView := {| BufferLocation := 4096; ibSize := 36; ibFormat := 57 |};
  mLayoutID := 0 |}.

(* Three materials on the two submeshes, all of [n] shader subpasses. *)
Definition renderer (n : nat) : MeshRenderer := {|
  mMesh := mesh; mMaterials := [material n; material n; material n] |}.

Definition transform : Matrix4f := fun _ => Byte.x33.

Definition batch (n : nat) : DX12FlattenedObjects := {|
  mWorldTransforms := [transform];
  mWorldTransformInvs := [transform];
  mMeshRenderers := [renderer n] |}.

End SampleScene.

Module SampleShaders.

(* A compiler that returns a fixed blob. *)
Definition compileShader (target profile name content : string) : Exec string :=
  ret "DXBC"%string.

Definition pixel : StageSource := {|
  generateAttributes := "cbuffer PerPass : register(b0) { float4x4 View; };";
  generateModules := EmptyString;
  generateShader := "float4 main() : SV_Target { return 1; }";
  getNodeInputsWithoutSource := [] |}.

Definition empty : ShaderSubpassData := {|
  mPS := EmptyString; mVS := EmptyString; mSemantics := fun _ => [] |}.

Definition populated : ShaderSubpassData := {|
  mPS := "float4 main() : SV_Target { return 0; }"; mVS := EmptyString;
  mSemantics := fun _ => [] |}.

End SampleShaders.

(** ** More sample data *)

Module SampleCollections.

Import SampleBindings.

Definition persistentIndex : DescriptorIndex := {|
  mUpdate := 0; mType := Table_; mPersistency := Persistent_ |}.

Definition textures : DescriptorList := {|
  mSlot := 1; mCapacity := 2; mGpuOffset := 40; mRanges := [] |}.

Definition samplers : DescriptorList := {|
  mSlot := 2; mCapacity := 1; mGpuOffset := 8; mRanges := [] |}.

(* A table built ahead of the frame. *)
Definition persistent : DescriptorCollection := {|
  mIndex := persistentIndex;
  mResourceViewLists := [textures]; mSamplerLists := [samplers] |}.

(* A dynamic per-draw table with a sampler list. *)
Definition dynamic_samplers : DescriptorCollection := {|
  mIndex := perInstanceIndex;
  mResourceViewLists := [cbvList]; mSamplerLists := [samplers] |}.

(* A per-pass table with a sampler list. *)
Definition perPass_samplers : DescriptorCollection := {|
  mIndex := perPassIndex;
  mResourceViewLists := [cbvList]; mSamplerLists := [samplers] |}.

Definition perPass_subpass : GraphicsSubpass := {|
  mOutputAttachments := []; mDepthStencilAttachment := None;
  mOrderedRenderQueue := []; mRootSignature := 7;
  mDescriptors := [perPassCollection; perPass_samplers];
  mConstantBuffers := [viewCB];
  mPostViewTransitions := [] |}.

(* Shader subpasses on pipeline states 9, 9 and 11. *)
Definition onState (pso : PipelineState) : DX12ShaderSubpassData := {|
  mVertexLayoutIndex := [0];
  mStates := [ {| mObject := pso |} ];
  ssConstantBuffers := [SampleScene.objectCB] |}.

Definition subpasses : list DX12ShaderSubpassData := [onState 9; onState 9; onState 11].

(* A material whose shader has [n] subpasses, each with the persistent
   table only. *)
Definition screen_material (n : nat) : DX12Material := {|
  mShader := Z.of_nat n;
  mShaderData :=
    [ {| msPipelines :=
         [ {| mQueues :=
              [ {| mqLevels :=
                   [ {| mlPasses :=
                        [ {| mpSubpasses :=
                             repeat {| mCollections := [persistent] |} n |} ] |} ] |} ] |} ] |} ] |}.

End SampleCollections.

Module SampleFrame.

Import SampleBindings.

(* The back buffer, cleared to opaque black; a second target that is
   loaded. *)
Definition color : Attachment := {|
  mDescriptorHandle := 0; mLoadOp := ClearColor [0; 0; 0; 1065353216] |}.
Definition loaded : Attachment := {| mDescriptorHandle := 5; mLoadOp := LoadOther |}.

(* Depth cleared to 1.0, the stencil kept. *)
Definition depth : Attachment := {|
  mDescriptorHandle := 1; mLoadOp := ClearDepthStencil true false 1065353216 0 |}.

Definition triangle : DrawCallData := {|
  dcType := FullScreenTriangle_; dcMaterial := SampleCollections.screen_material 2 |}.

Definition content : ContentData := {|
  mIDs := [ {| idType := DrawCall_; idIndex := 0 |} ];
  mDrawCalls := [triangle];
  mFlattenedObjects := [] |}.

(* After the subpass the back buffer goes to Present and framebuffer 2 to a
   pixel-shader resource. *)
Definition subpass : GraphicsSubpass := {|
  mOutputAttachments := [color; loaded];
  mDepthStencilAttachment := Some depth;
  mOrderedRenderQueue := [ {| mContents := [content] |} ];
  mRootSignature := 7;
  mDescriptors := [perPassCollection];
  mConstantBuffers := [viewCB];
  mPostViewTransitions :=
    [ {| mFramebufferHandle := 0; mSource := 4; mTarget := 0 |};
      {| mFramebufferHandle := 2; mSource := 4; mTarget := 128 |} ] |}.

(* The same subpass with the queue twice. *)
Definition two_queues : GraphicsSubpass := {|
  mOutputAttachments := [color; loaded];
  mDepthStencilAttachment := Some depth;
  mOrderedRenderQueue := [ {| mContents := [content] |}; {| mContents := [content] |} ];
  mRootSignature := 7;
  mDescriptors := [perPassCollection];
  mConstantBuffers := [viewCB];
  mPostViewTransitions := [] |}.

(* The same subpass with a depth-stencil clear on an output attachment, and
   with a colour clear on the depth-stencil attachment. *)
Definition depth_on_output : GraphicsSubpass := {|
  mOutputAttachments := [color; depth];
  mDepthStencilAttachment := None;
  mOrderedRenderQueue := []; mRootSignature := 7;
  mDescriptors := []; mConstantBuffers := []; mPostViewTransitions := [] |}.

Definition color_on_depth : GraphicsSubpass := {|
  mOutputAttachments := [loaded];
  mDepthStencilAttachment := Some color;
  mOrderedRenderQueue := []; mRootSignature := 7;
  mDescriptors := []; mConstantBuffers := []; mPostViewTransitions := [] |}.

Definition pass : RenderPass := {|
  mViewports := [ {| vpX := 0; vpY := 0; vpW := 1150681088; vpH := 1144258560;
                     vpMinDepth := 0; vpMaxDepth := 1065353216 |} ];
  mScissorRects := [ {| left := 0; top := 0; right := 1280; bottom := 720 |} ];
  mGraphicsSubpasses := [subpass] |}.

Definition pipeline : DX12RenderPipeline := {|
  mPasses := [pass]; mRTVInitialStates := [0; 4; 128] |}.

Definition solution : DX12RenderSolution := {|
  mPipelines := [pipeline]; mRTVSources := [0; 1; 2] |}.

(* A frame on back buffer 1 of two. *)
Definition context : DX12FrameContext := {|
  mFrameFenceId := 5; mBackBufferIndex := 1; mBackBufferCount := 2;
  mBackBuffer := 1; mBackBufferRTV := (1, false); mBackBufferRTVsRGB := (1, true);
  mRenderSolution := Some solution; mRenderWorks := Some Sample.works;
  mSolutionID := 0; mPipelineID := 0 |}.

(* The same frame without a render solution. *)
Definition unbound : DX12FrameContext := {|
  mFrameFenceId := 5; mBackBufferIndex := 1; mBackBufferCount := 2;
  mBackBuffer := 1; mBackBufferRTV := (1, false); mBackBufferRTVsRGB := (1, true);
  mRenderSolution := None; mRenderWorks := Some Sample.works;
  mSolutionID := 0; mPipelineID := 0 |}.

End SampleFrame.


Module SampleBuilder.

(* UpdateEnum::PerBatch, for the instances. *)
Definition PerBatch : Z := 1.

(* The conversions of the states are not looked into. *)
Definition getRenderBlend (state : Z) : Z := state + 100.
Definition getRenderRasterizer (state : Z) : Z := state + 200.
Definition getRenderDepthStencil (state : Z) : Z := state + 300.

Definition vertex : StageSource := {|
  generateAttributes := EmptyString;
  generateModules := "float4x4 WorldView; ";
  generateShader := "float4 main(float3 p : POSITION) : SV_Position { return 0; }";
  getNodeInputsWithoutSource :=
    [ {| inName := "position"; inSemantic := SV_Position_ |};
      {| inName := "uv0"; inSemantic := TEXCOORD_ |};
      {| inName := "time"; inSemantic := Semantic_other |};
      {| inName := "uv1"; inSemantic := TEXCOORD_ |} ] |}.

Definition perBatchTable : DescriptorIndex := {|
  mUpdate := PerBatch; mType := Table_; mPersistency := Persistent_ |}.

Definition perPassTable : DescriptorIndex := {|
  mUpdate := 2; mType := Table_; mPersistency := Dynamic_ |}.

Definition perBatchCBV : DescriptorIndex := {|
  mUpdate := PerBatch; mType := CBV_; mPersistency := Dynamic_ |}.

Definition perBatchSSV : DescriptorIndex := {|
  mUpdate := PerBatch; mType := SSV_; mPersistency := Persistent_ |}.

(* A per-pass table, a per-batch table with two textures and a constant
   buffer, and the per-batch samplers. *)
Definition tables : RootTables :=
  [ (perPassTable, [ {| rdType := SRV_; rdName := "Shadow" |} ]);
    (perBatchTable, [ {| rdType := SRV_; rdName := "MainTex" |};
                      {| rdType := CBV_; rdName := EmptyString |};
                      {| rdType := SRV_; rdName := "Normal" |} ]);
    (perBatchSSV, [ {| rdType := SSV_; rdName := "LinearSampler" |} ]) ].

(* The same with a per-batch root CBV at the end. *)
Definition tables_with_root_cbv : RootTables := tables ++ [ (perBatchCBV, []) ].

Definition stage_source (stage : ShaderStage) : StageSource :=
  match stage with
  | VS_ => vertex
  | _ => SampleShaders.pixel
  end.

Definition textured : ProgramEntry := {| hlsl := stage_source; mTables := tables |}.
Definition plain : ProgramEntry := {| hlsl := stage_source; mTables := [] |}.

(* The programs of a pass of two subpasses, and a stray one under 1. *)
Definition group : ShaderGroup :=
  [ ("0/@/Unlit"%string, plain); ("1/@/Unlit"%string, plain);
    ("2/@/Unlit"%string, textured) ].

Definition getGroup (bundleName pipelineName queueName : string) : Outcome ShaderGroup :=
  Done group.

Definition state : ShaderState := {|
  mBlendState := 1; mSampleMask := 4294967295;
  mRasterizerState := 2; mDepthStencilState := 3 |}.

Definition subpass : ShaderSubpass := {| mShaderState := state; mShaders := [PS_; VS_] |}.

Definition with_geometry : ShaderSubpass := {|
  mShaderState := state; mShaders := [PS_; GS_; VS_] |}.

(* One solution, one pipeline, one queue, one level, the unnamed pass with
   two subpasses. *)
Definition prototype : ShaderPrototype := {|
  ptName := "Unlit";
  ptSolutions :=
    [ ("Forward"%string,
       [ ("Default"%string,
          [ ("Opaque"%string,
             [ [ (EmptyString, [subpass; subpass]) ] ]) ]) ]) ] |}.

Definition new_data : ShaderData := {| sdName := EmptyString; sdSolutions := [] |}.

(* The uuid of a name, for the instances: its length. *)
Definition gen (name : string) : Z := Z.of_nat (String.length name).

Definition lit_data : ShaderData := {| sdName := "Lit"; sdSolutions := [] |}.
Definition unlit_data : ShaderData := {| sdName := "Unlit"; sdSolutions := [] |}.
Definition older_data : ShaderData := {| sdName := "Older"; sdSolutions := [] |}.

End SampleBuilder.

(** * Properties *)

(** ** The recording monad *)

Lemma bind_done {A B} (log : list Event) (a : A) (k : A -> Exec B) :
  bind (log, Done a) k = (log ++ fst (k a), snd (k a)).
Proof. unfold bind. destruct (k a); reflexivity. Qed.

Lemma bind_ret {A B} (a : A) (k : A -> Exec B) : bind (ret a) k = k a.
Proof. unfold ret. rewrite bind_done. destruct (k a); reflexivity. Qed.

Lemma bind_throw {A B} (f : Failure) (k : A -> Exec B) : bind (throw f) k = throw f.
Proof. reflexivity. Qed.

Lemma bind_emit {B} (e : Event) (k : unit -> Exec B) :
  bind (emit e) k = (e :: fst (k tt), snd (k tt)).
Proof. unfold emit. rewrite bind_done. reflexivity. Qed.

Lemma bind_record {B} (c : Command) (k : unit -> Exec B) :
  bind (record c) k = (Record_ c :: fst (k tt), snd (k tt)).
Proof. apply bind_emit. Qed.

Lemma for__cons {A} (a : A) (l : list A) (body : A -> Exec unit) :
  for_ (a :: l) body = (body a ;; for_ l body).
Proof.
  unfold for_. cbn [for_each]. unfold bind.
  destruct (body a) as [log [[] | f |]]; reflexivity.
Qed.

Lemma for__nil {A} (body : A -> Exec unit) : for_ [] body = ret tt.
Proof. reflexivity. Qed.

Lemma log_bind_prefix {A B} (m : Exec A) (k : A -> Exec B) :
  exists rest, log_of (bind m k) = log_of m ++ rest.
Proof.
  destruct m as [log [a | f |]]; cbn.
  - destruct (k a) as [log' r]. exists log'. reflexivity.
  - exists []. now rewrite app_nil_r.
  - exists []. now rewrite app_nil_r.
Qed.

Lemma commands_app (l1 l2 : list Event) :
  commands (l1 ++ l2) = commands l1 ++ commands l2.
Proof.
  induction l1 as [| e l1 IH]; [reflexivity |].
  destruct e; cbn; rewrite IH; reflexivity.
Qed.

(** ** The ring of frames *)

Lemma replace_nth_length {A} (n : nat) (a : A) (l : list A) :
  List.length (replace_nth n a l) = List.length l.
Proof.
  revert n. induction l as [| x l IH]; intros [| n]; cbn; auto.
Qed.

Lemma replace_nth_same {A} (n : nat) (a : A) (l : list A) :
  (n < List.length l)%nat -> nth_error (replace_nth n a l) n = Some a.
Proof.
  revert n. induction l as [| x l IH]; intros [| n] H; cbn in *; try lia; auto.
  apply IH. lia.
Qed.

Lemma index_done {A} (l : list A) (i : Z) (log : list Event) (a : A) :
  index l i = (log, Done a) ->
  0 <= i /\ nth_error l (Z.to_nat i) = Some a /\ log = [].
Proof.
  unfold index. destruct (i <? 0) eqn:Hi; [discriminate |].
  destruct (nth_error l (Z.to_nat i)) eqn:Hn; [| discriminate].
  intros H. inversion H; subst. repeat split; auto. lia.
Qed.

Lemma wait_retire_done (queue : list Z) (done value : Z) (fence' : Fence) :
  wait_retire queue done value = Some fence' -> value <= completed fence'.
Proof.
  revert done. induction queue as [| s rest IH]; intros done; cbn.
  - destruct (value <=? done) eqn:H; [| discriminate].
    intros E. inversion E; subst; cbn. lia.
  - destruct (value <=? done) eqn:H.
    + intros E. inversion E; subst; cbn. lia.
    + apply IH.
Qed.

Lemma wait_retire_never (queue : list Z) (done value : Z) :
  wait_retire queue done value = None <->
  done < value /\ Forall (fun s => s < value) queue.
Proof.
  revert done. induction queue as [| s rest IH]; intros done; cbn.
  - destruct (value <=? done) eqn:H; split; intros H'.
    + discriminate.
    + lia.
    + split; [lia | constructor].
    + reflexivity.
  - destruct (value <=? done) eqn:H.
    + split; [discriminate | lia].
    + rewrite IH. split.
      * intros [H1 H2]. split; [lia | constructor; assumption].
      * intros [H1 H2]. inversion H2; subst. split; assumption.
Qed.

(* What a returning beginFrame has done. *)
Lemma beginFrame_done sc q fence log fence' slot q' :
  beginFrame sc q fence = ((log, Done (fence', slot)), q') ->
  exists pFrame frame',
    let R := u32 (Z.of_nat (List.length (mFrames q))) in
    mSwapChain sc = true /\ R <> 0 /\
    0 <= mNextFrameIndex q /\ slot = Z.to_nat (mNextFrameIndex q) /\
    nth_error (mFrames q) slot = Some pFrame /\
    wait_retire (queued fence) (completed fence) (mFrameFenceId pFrame) = Some fence' /\
    log = [WaitForFence (mFrameFenceId pFrame);
           ResetCommandAllocator slot; ResetCommandList slot;
           DescriptorsAdvanceFrame; UploadBufferAdvanceFrame] /\
    mNextFrameFence q' = u64 (mNextFrameFence q + 1) /\
    mNextFrameIndex q' = u32 (mNextFrameIndex q + 1) mod R /\
    mFrames q' = replace_nth slot frame' (mFrames q) /\
    mFrameFenceId frame' = mNextFrameFence q.
Proof.
  unfold beginFrame.
  destruct (mSwapChain sc) eqn:Hsc; cbn [negb]; [| discriminate].
  cbn [mNextFrameIndex mFrames mNextFrameFence].
  destruct (u32 (Z.of_nat (List.length (mFrames q))) =? 0) eqn:HR; [discriminate |].
  destruct (index (mFrames q) (mNextFrameIndex q)) as [ilog [pFrame | f |]] eqn:Hidx;
    try discriminate.
  apply index_done in Hidx. destruct Hidx as (Hpos & Hnth & ->).
  unfold waitForFence.
  destruct (wait_retire (queued fence) (completed fence) (mFrameFenceId pFrame))
    as [fence1 |] eqn:Hwait; [| discriminate].
  intros H. inversion H; subst; clear H.
  eexists pFrame, _. cbn.
  repeat split; try reflexivity; auto.
  apply Z.eqb_neq. exact HR.
Qed.

Lemma begins_ring q calls q' :
  begins q calls q' ->
  forall R, R = Z.of_nat (List.length (mFrames q)) -> R < 2 ^ 32 ->
  0 <= mNextFrameIndex q < R ->
  0 <= mNextFrameFence q ->
  mNextFrameFence q + Z.of_nat (List.length calls) <= 2 ^ 64 ->
  forall k slot value, nth_error calls k = Some (slot, value) ->
    Z.of_nat slot = (mNextFrameIndex q + Z.of_nat k) mod R /\
    value = mNextFrameFence q + Z.of_nat k.
Proof.
  induction 1 as [q | sc q fence log fence' slot q' frame calls q'' Hbegin Hframe Hrest IH];
    intros R HR Hsize Hidx Hfence Hroom k s v Hk.
  - destruct k; discriminate.
  - apply beginFrame_done in Hbegin.
    destruct Hbegin as (pFrame & frame' & _ & _ & _ & Hslot & Hold & _ & _
                        & Hf' & Hi' & Hframes & Hid).
    assert (Hlt : (slot < List.length (mFrames q))%nat).
    { apply nth_error_Some. rewrite Hold. discriminate. }
    rewrite Hframes, replace_nth_same in Hframe by exact Hlt.
    inversion Hframe; subst frame'; clear Hframe.
    assert (Hu : u32 (Z.of_nat (List.length (mFrames q))) = R).
    { unfold u32. rewrite Z.mod_small; lia. }
    rewrite Hu in Hi'.
    destruct k as [| k]; cbn in Hk.
    + inversion Hk; subst s v; clear Hk. split.
      * rewrite Hslot, Z2Nat.id by lia. rewrite Z.add_0_r, Z.mod_small; lia.
      * rewrite Hid. cbn. lia.
    + assert (Hne : (0 < List.length calls)%nat).
      { apply Nat.neq_0_lt_0. intros E.
        apply length_zero_iff_nil in E. subst calls. destruct k; discriminate. }
      cbn [List.length] in Hroom.
      assert (Hf1 : mNextFrameFence q' = mNextFrameFence q + 1).
      { rewrite Hf'. unfold u64. rewrite Z.mod_small; lia. }
      assert (Hi1 : mNextFrameIndex q' = (mNextFrameIndex q + 1) mod R).
      { rewrite Hi'. unfold u32. rewrite (Z.mod_small (_ + 1)); lia. }
      specialize (IH R).
      rewrite Hframes, replace_nth_length, Hf1, Hi1 in IH.
      destruct (IH HR Hsize) with (k := k) (slot := s) (value := v) as [Hs Hv]; auto.
      * apply Z.mod_pos_bound. lia.
      * lia.
      * lia.
      * split.
        -- rewrite Hs, Zplus_mod_idemp_l. f_equal. lia.
        -- lia.
Qed.

(** C1.  In a run of calls to beginFrame that return, started on a queue
    whose next ring index is 0, the [k]-th call (from 0) uses slot
    [k mod R], [R] the ring size, and stores the fence value
    [mNextFrameFence + k] in it: one more than the call before.  The
    counters are the code's [uint32_t] and [uint64_t]: the ring size fits 32
    bits and the fence counter does not pass [2 ^ 64] during the run. *)
Theorem beginFrame_slot_and_fence q0 calls q' :
  begins q0 calls q' ->
  mNextFrameIndex q0 = 0 ->
  Z.of_nat (List.length (mFrames q0)) < 2 ^ 32 ->
  0 <= mNextFrameFence q0 ->
  mNextFrameFence q0 + Z.of_nat (List.length calls) <= 2 ^ 64 ->
  forall k slot value, nth_error calls k = Some (slot, value) ->
    slot = (k mod List.length (mFrames q0))%nat /\
    value = mNextFrameFence q0 + Z.of_nat k /\
    (forall slot' value', nth_error calls (S k) = Some (slot', value') ->
       value' = value + 1).
Proof.
  intros Hrun Hidx Hsize Hfence Hroom k slot value Hk.
  assert (HR : 0 < Z.of_nat (List.length (mFrames q0))).
  { inversion Hrun as [| sc q fence log fence' s q1 frame rest q2 Hbegin _ _]; subst.
    - destruct k; discriminate.
    - apply beginFrame_done in Hbegin.
      destruct Hbegin as (pFrame & _ & _ & _ & _ & _ & Hold & _).
      assert ((s < List.length (mFrames q0))%nat).
      { apply nth_error_Some. rewrite Hold. discriminate. }
      lia. }
  pose proof (begins_ring _ _ _ Hrun _ eq_refl Hsize) as Hring.
  rewrite Hidx in Hring.
  destruct (Hring ltac:(lia) Hfence Hroom k slot value Hk) as [Hs Hv].
  split; [| split].
  - apply Nat2Z.inj. rewrite Hs, Nat2Z.inj_mod. reflexivity.
  - exact Hv.
  - intros slot' value' Hk'.
    destruct (Hring ltac:(lia) Hfence Hroom (S k) slot' value' Hk') as [_ Hv'].
    lia.
Qed.

(* Where the range of the fence counter ends: the call that hands out
   [2 ^ 64 - 1] leaves the counter at 0. *)
Remark beginFrame_fence_counter_wraps sc q fence log fence' slot q' :
  mNextFrameFence q = 2 ^ 64 - 1 ->
  beginFrame sc q fence = ((log, Done (fence', slot)), q') ->
  mNextFrameFence q' = 0.
Proof.
  intros Hmax H. apply beginFrame_done in H.
  destruct H as (pFrame & frame' & _ & _ & _ & _ & _ & _ & _ & Hf & _).
  rewrite Hf, Hmax. reflexivity.
Qed.

(* The loop of beginFrame and endFrame is such a run. *)
Lemma run_frames_begins n : forall sc q fence calls q',
  run_frames n sc q fence = Some (calls, q') -> begins q calls q'.
Proof.
  induction n as [| n IH]; intros sc q fence calls q' H; cbn in H.
  - inversion H; subst. constructor.
  - destruct (beginFrame sc q fence) as [[log [[fence1 slot] | f |]] q1] eqn:Hbegin;
      try discriminate.
    destruct (nth_error (mFrames q1) slot) as [frame |] eqn:Hframe; [| discriminate].
    destruct (endFrame q1 fence1 slot) as [elog [fence2 | f |]]; try discriminate.
    destruct (run_frames n sc q1 fence2) as [[rest q2] |] eqn:Hrest; [| discriminate].
    inversion H; subst. econstructor; eauto.
Qed.

(** C2.  A call to beginFrame that returns slot [S] has first waited on the
    fence for the value stored in slot [S], and that value is complete on
    the fence it leaves; the resets of the slot's allocator and list come
    after the wait in the log, and the slot then holds the new frame's fence
    value.  While no completed or queued signal reaches the stored value the
    call does not return: the wait is all it has logged and the frames are
    as they were. *)
Theorem beginFrame_waits_for_slot sc q fence :
  (forall log fence' slot q',
     beginFrame sc q fence = ((log, Done (fence', slot)), q') ->
     exists pFrame frame',
       nth_error (mFrames q) slot = Some pFrame /\
       mFrameFenceId pFrame <= completed fence' /\
       log = WaitForFence (mFrameFenceId pFrame)
             :: [ResetCommandAllocator slot; ResetCommandList slot;
                 DescriptorsAdvanceFrame; UploadBufferAdvanceFrame] /\
       nth_error (mFrames q') slot = Some frame' /\
       mFrameFenceId frame' = mNextFrameFence q)
  /\
  (forall pFrame,
     mSwapChain sc = true ->
     u32 (Z.of_nat (List.length (mFrames q))) <> 0 ->
     0 <= mNextFrameIndex q ->
     nth_error (mFrames q) (Z.to_nat (mNextFrameIndex q)) = Some pFrame ->
     completed fence < mFrameFenceId pFrame ->
     Forall (fun s => s < mFrameFenceId pFrame) (queued fence) ->
     exists q',
       beginFrame sc q fence = (([WaitForFence (mFrameFenceId pFrame)], Blocked), q') /\
       mFrames q' = mFrames q).
Proof.
  split.
  - intros log fence' slot q' H.
    apply beginFrame_done in H.
    destruct H as (pFrame & frame' & _ & _ & _ & Hslot & Hold & Hwait & Hlog
                   & _ & _ & Hframes & Hid).
    exists pFrame, frame'. repeat split; auto.
    + eapply wait_retire_done; eauto.
    + rewrite Hframes. apply replace_nth_same.
      apply nth_error_Some. rewrite Hold. discriminate.
  - intros pFrame Hsc HR Hpos Hnth Hdone Hqueued.
    unfold beginFrame. rewrite Hsc. cbn [negb mNextFrameIndex mFrames mNextFrameFence].
    apply Z.eqb_neq in HR. rewrite HR.
    unfold index. apply Z.ltb_ge in Hpos. rewrite Hpos, Hnth.
    assert (Hwait : wait_retire (queued fence) (completed fence) (mFrameFenceId pFrame)
                    = None) by (apply wait_retire_never; split; assumption).
    unfold waitForFence, ret. rewrite Hwait.
    eexists. split; reflexivity.
Qed.

(** ** initPipeline *)

Lemma indexed_from_nonneg {A} (l : list A) (start : nat) :
  Forall (fun p : Z * A => 0 <= fst p) (combine (map Z.of_nat (seq start (List.length l))) l).
Proof.
  revert start. induction l as [| a l IH]; intros start; cbn; constructor; cbn.
  - lia.
  - apply IH.
Qed.

Lemma initPipeline_loop sc (l : list (Z * Z)) :
  Forall (fun p => 0 <= fst p) l ->
  (forall k state, In (k, state) l -> needs_transition state = true ->
                   rtv_resource sc k <> None) ->
  for_ l (fun '(k, state) =>
    if (state =? RESOURCE_STATE_COMMON) || (state =? RESOURCE_STATE_RENDER_TARGET)
    then ret tt
    else
      resourceID <- index (mRTVSources (currentSolution sc)) k ;;
      resource <- at_ (mFramebuffers (mRenderGraph sc)) resourceID ;;
      record (ResourceBarrier
                [Transition resource RESOURCE_STATE_RENDER_TARGET state]))
  = (map (fun '(k, state) =>
            Record_ (ResourceBarrier
                       [transition_as_recorded (rtv_resource_or_null sc k) state]))
         (filter (fun '(_, state) => needs_transition state) l),
     Done tt).
Proof.
  induction l as [| [k state] l IH]; intros Hpos Hwf; [reflexivity |].
  inversion Hpos as [| ? ? Hk Hpos']; subst. cbn in Hk.
  rewrite for__cons. cbn [filter].
  specialize (IH Hpos' (fun k' s' Hin => Hwf k' s' (or_intror Hin))).
  rewrite IH. clear IH.
  assert (Hneeds : needs_transition state
                   = negb ((state =? RESOURCE_STATE_COMMON)
                           || (state =? RESOURCE_STATE_RENDER_TARGET))) by reflexivity.
  rewrite Hneeds.
  destruct ((state =? RESOURCE_STATE_COMMON) || (state =? RESOURCE_STATE_RENDER_TARGET))
    eqn:Hstate; cbn [negb].
  - rewrite bind_ret. reflexivity.
  - assert (Hres : rtv_resource sc k <> None).
    { apply (Hwf k state); [left; reflexivity |].
      rewrite Hneeds. reflexivity. }
    cbn [map].
    assert (Hnull : rtv_resource_or_null sc k
                    = match rtv_resource sc k with Some r => r | None => 0 end)
      by reflexivity.
    rewrite Hnull. clear Hnull.
    destruct (rtv_resource sc k) as [r |] eqn:Hr; [clear Hres | congruence].
    unfold rtv_resource in Hr.
    destruct (nth_error (mRTVSources (currentSolution sc)) (Z.to_nat k))
      as [handle |] eqn:Hsrc; [| discriminate].
    destruct (handle <? 0) eqn:Hneg; [discriminate |].
    unfold index, at_.
    apply Z.ltb_ge in Hk. rewrite Hk, Hsrc, bind_ret, Hneg, Hr, bind_ret.
    unfold record. rewrite bind_emit.
    reflexivity.
Qed.

(** C4, as the code has it.  After its beginFrame has returned, initPipeline
    records one barrier for each render target of the current pipeline whose
    declared initial state is neither Common nor RenderTarget, in order, and
    none for the others; the barrier goes from RenderTarget to the declared
    initial state.  Then it closes the list. *)
Theorem initPipeline_transitions sc q fence log0 fence' slot q' pipeline :
  beginFrame sc q fence = ((log0, Done (fence', slot)), q') ->
  currentPipeline (currentSolution sc) (getPipelineID sc) = ([], Done pipeline) ->
  (forall k state, In (k, state) (indexed (mRTVInitialStates pipeline)) ->
                   needs_transition state = true -> rtv_resource sc k <> None) ->
  commands (log_of (fst (initPipeline sc q fence)))
  = map (fun '(k, state) =>
           ResourceBarrier
             [Transition (rtv_resource_or_null sc k) RESOURCE_STATE_RENDER_TARGET state])
        (filter (fun '(_, state) => needs_transition state)
                (indexed (mRTVInitialStates pipeline)))
    ++ [Close].
Proof.
  intros Hbegin Hpipe Hwf.
  unfold initPipeline. rewrite Hbegin.
  pose proof (beginFrame_done _ _ _ _ _ _ _ Hbegin) as Hb.
  destruct Hb as (pFrame & frame' & _ & _ & _ & _ & Hold & _ & Hlog & _ & _ & Hframes & _).
  cbn [fst]. rewrite bind_done. cbn [fst snd log_of].
  rewrite Hpipe. change (@nil Event, Done pipeline) with (ret pipeline).
  rewrite bind_ret.
  unfold initPipeline_barriers.
  rewrite (initPipeline_loop sc (indexed (mRTVInitialStates pipeline))
             (indexed_from_nonneg _ 0) Hwf).
  rewrite bind_done. cbn [fst snd].
  rewrite !commands_app.
  replace (commands log0) with (@nil Command) by (rewrite Hlog; reflexivity).
  cbn [app]. f_equal.
  - induction (filter _ _) as [| [k state] l IH]; [reflexivity |].
    cbn. rewrite IH. reflexivity.
  - unfold record. rewrite bind_emit. cbn [fst commands]. rewrite bind_emit. cbn [fst].
    unfold endFrame.
    destruct (nth_error (mFrames q') slot); reflexivity.
Qed.

(** ** Constant buffers *)

Lemma bind_unit_ret (m : Exec unit) : (m ;; ret tt) = m.
Proof. destruct m as [log [[] | f |]]; cbn; try rewrite app_nil_r; reflexivity. Qed.

Lemma bind_assoc {A B C} (m : Exec A) (k : A -> Exec B) (h : B -> Exec C) :
  bind (bind m k) h = bind m (fun a => bind (k a) h).
Proof.
  destruct m as [log [a | f |]]; cbn; try reflexivity.
  destruct (k a) as [log1 [b | f |]]; cbn; try reflexivity.
  destruct (h b) as [log2 r]. rewrite app_assoc. reflexivity.
Qed.

Lemma find_constant_buffer_none cbs idx build :
  Forall (fun cb => matches idx cb = false) cbs ->
  find_constant_buffer cbs idx build = ret false.
Proof.
  induction 1 as [| cb cbs Hcb _ IH]; [reflexivity |].
  cbn. unfold matches in Hcb. rewrite Hcb. exact IH.
Qed.

Lemma find_constant_buffer_first pre cb post idx build :
  Forall (fun c => matches idx c = false) pre ->
  matches idx cb = true ->
  find_constant_buffer (pre ++ cb :: post) idx build = (build cb ;; ret true).
Proof.
  intros Hpre Hcb. induction Hpre as [| c pre Hc _ IH]; cbn.
  - unfold matches in Hcb. rewrite Hcb. reflexivity.
  - unfold matches in Hc. rewrite Hc. exact IH.
Qed.

Lemma resolve_constant_buffer_none write cbs idx descID :
  Forall (fun cb => matches idx cb = false) cbs ->
  resolve_constant_buffer write cbs idx descID
  = throw (runtime_error "constant buffer not found").
Proof.
  intros H. unfold resolve_constant_buffer.
  rewrite find_constant_buffer_none by exact H. rewrite bind_ret. reflexivity.
Qed.

Lemma resolve_constant_buffer_first write pre cb post idx descID :
  Forall (fun c => matches idx c = false) pre ->
  matches idx cb = true ->
  resolve_constant_buffer write (pre ++ cb :: post) idx descID
  = build_constant_buffer write descID cb.
Proof.
  intros Hpre Hcb. unfold resolve_constant_buffer.
  rewrite find_constant_buffer_first by assumption.
  rewrite bind_assoc.
  rewrite <- (bind_unit_ret (build_constant_buffer write descID cb)) at 2.
  f_equal.
Qed.

Section ResolverProperties.

Variable mat_mul : Matrix4f -> Matrix4f -> Matrix4f.

(** C3, as the code has it.  For a ConstantBuffer attribute of an
    engine-source subrange both resolvers search the constant buffers of the
    owning subpass for the collection's index.  When none has it the
    resolver raises "constant buffer not found".  Otherwise the first one
    that has it, in declared order, is built, whatever follows it. *)
Theorem constant_buffer_lookup subpass shaderSubpass collection cam pBatch objectID descID :
  (Forall (fun cb => matches (mIndex collection) cb = false) (mConstantBuffers subpass) ->
   perPass_attribute subpass collection cam constant_buffer_attribute descID
   = throw (runtime_error "constant buffer not found"))
  /\
  (Forall (fun cb => matches (mIndex collection) cb = false)
          (ssConstantBuffers shaderSubpass) ->
   perInstance_attribute mat_mul shaderSubpass collection cam pBatch objectID
     constant_buffer_attribute descID
   = throw (runtime_error "constant buffer not found"))
  /\
  (forall pre cb post,
     mConstantBuffers subpass = pre ++ cb :: post ->
     Forall (fun c => matches (mIndex collection) c = false) pre ->
     matches (mIndex collection) cb = true ->
     perPass_attribute subpass collection cam constant_buffer_attribute descID
     = (build_constant_buffer (write_perPass cam) descID cb ;; ret (S descID)))
  /\
  (forall pre cb post,
     ssConstantBuffers shaderSubpass = pre ++ cb :: post ->
     Forall (fun c => matches (mIndex collection) c = false) pre ->
     matches (mIndex collection) cb = true ->
     perInstance_attribute mat_mul shaderSubpass collection cam pBatch objectID
       constant_buffer_attribute descID
     = (build_constant_buffer (write_perInstance mat_mul cam pBatch objectID) descID cb ;;
        ret (S descID))).
Proof.
  unfold perPass_attribute, perInstance_attribute, constant_buffer_attribute.
  cbn [dDataType].
  repeat split.
  - intros H. rewrite resolve_constant_buffer_none by exact H. reflexivity.
  - intros H. rewrite resolve_constant_buffer_none by exact H. reflexivity.
  - intros pre cb post -> Hpre Hcb.
    rewrite resolve_constant_buffer_first by assumption. reflexivity.
  - intros pre cb post -> Hpre Hcb.
    rewrite resolve_constant_buffer_first by assumption. reflexivity.
Qed.

(** ** Scope of the constants *)

Lemma put_matrix_never_blocks m c : never_blocks (put_matrix m c).
Proof.
  destruct c as [buf pData]. unfold put_matrix, never_blocks, Expects.
  destruct (Nat.leb _ _); cbn; discriminate.
Qed.

Lemma index_never_blocks {A} (l : list A) i : never_blocks (index l i).
Proof.
  unfold index, never_blocks.
  destruct (i <? 0); [cbn; discriminate |].
  destruct (nth_error l (Z.to_nat i)); cbn; discriminate.
Qed.

Lemma write_perPass_never_blocks cam constant c :
  never_blocks (write_perPass cam constant c).
Proof.
  unfold write_perPass.
  destruct (cSource constant); try (cbn; discriminate).
  destruct (cDataType constant); try (cbn; discriminate);
    apply put_matrix_never_blocks.
Qed.

Lemma write_perInstance_never_blocks cam pBatch objectID constant c :
  never_blocks (write_perInstance mat_mul cam pBatch objectID constant c).
Proof.
  unfold write_perInstance.
  destruct (cSource constant); try (cbn; discriminate).
  destruct (cDataType constant); try (cbn; discriminate);
    destruct pBatch as [batch |]; try (cbn; discriminate).
  - destruct (index (mWorldTransforms batch) objectID) as [log [w | f |]] eqn:E.
    + rewrite bind_done. unfold never_blocks, outcome_of. cbn [snd].
      apply put_matrix_never_blocks.
    + cbn. discriminate.
    + exfalso. apply (index_never_blocks (mWorldTransforms batch) objectID).
      rewrite E. reflexivity.
  - destruct (index (mWorldTransformInvs batch) objectID) as [log [w | f |]] eqn:E.
    + rewrite bind_done. unfold never_blocks, outcome_of. cbn [snd].
      apply put_matrix_never_blocks.
    + cbn. discriminate.
    + exfalso. apply (index_never_blocks (mWorldTransformInvs batch) objectID).
      rewrite E. reflexivity.
Qed.

(* A loop whose body raises on one of the elements raises. *)
Lemma for_each_raises {A S} (body : A -> S -> Exec S) (x : A) (l : list A) :
  (forall a s, never_blocks (body a s)) ->
  (forall s, exists f, body x s = ([], Fatal f)) ->
  In x l ->
  forall s, exists log f, for_each l s body = (log, Fatal f).
Proof.
  intros Hnb Hx. induction l as [| a l IH]; intros Hin s; [destruct Hin |].
  cbn [for_each].
  destruct (body a s) as [log [s' | f |]] eqn:E.
  - destruct Hin as [-> | Hin].
    + destruct (Hx s) as [f Hf]. congruence.
    + destruct (IH Hin s') as (log' & f & Hrest).
      rewrite bind_done, Hrest. cbn. eauto.
  - cbn. eauto.
  - exfalso. apply (Hnb a s). rewrite E. reflexivity.
Qed.

Lemma build_constant_buffer_raises write descID cb x :
  (forall a s, never_blocks (write a s)) ->
  (forall s, exists f, write x s = ([], Fatal f)) ->
  In x (mConstants cb) ->
  exists log f, build_constant_buffer write descID cb = (log, Fatal f).
Proof.
  intros Hnb Hx Hin. unfold build_constant_buffer, Expects. cbv zeta.
  destruct (negb (mSize cb =? 0)).
  - rewrite bind_ret.
    match goal with
    | |- context [@for_each ?A ?S ?l ?s ?b] =>
      destruct (@for_each_raises A S b x l Hnb Hx Hin s) as (log & f & E)
    end.
    rewrite E. cbn. eauto.
  - cbn. eauto.
Qed.

(** C5.  Writing a Projection or View constant in the per-draw resolver
    raises, writing a WorldView or WorldInverseTranspose constant in the
    per-pass resolver raises, and so does writing one of the latter in the
    per-draw resolver without a batch.  A constant buffer that declares such
    a constant is never built: building it ends in a failure. *)
Theorem constant_scope_enforced cam :
  (forall pBatch objectID c,
     write_perInstance mat_mul cam pBatch objectID (engine_constant Proj_) c
       = throw (runtime_error "Proj cannot be per instance") /\
     write_perInstance mat_mul cam pBatch objectID (engine_constant View_) c
       = throw (runtime_error "View cannot be per instance"))
  /\
  (forall c,
     write_perPass cam (engine_constant WorldView_) c
       = throw (runtime_error "WorldView cannot be per pass") /\
     write_perPass cam (engine_constant WorldInvT_) c
       = throw (runtime_error "WorldInvT cannot be per pass"))
  /\
  (forall objectID c,
     write_perInstance mat_mul cam None objectID (engine_constant WorldView_) c
       = throw (runtime_error "batch is nullptr") /\
     write_perInstance mat_mul cam None objectID (engine_constant WorldInvT_) c
       = throw (runtime_error "batch is nullptr"))
  /\
  (forall pBatch objectID descID cb constant,
     In constant (mConstants cb) -> per_pass_only constant ->
     exists log f,
       build_constant_buffer (write_perInstance mat_mul cam pBatch objectID) descID cb
       = (log, Fatal f))
  /\
  (forall descID cb constant,
     In constant (mConstants cb) -> per_object_only constant ->
     exists log f,
       build_constant_buffer (write_perPass cam) descID cb = (log, Fatal f))
  /\
  (forall objectID descID cb constant,
     In constant (mConstants cb) -> per_object_only constant ->
     exists log f,
       build_constant_buffer (write_perInstance mat_mul cam None objectID) descID cb
       = (log, Fatal f)).
Proof.
  repeat split.
  - intros pBatch objectID descID cb constant Hin [Hsrc Hdata].
    apply build_constant_buffer_raises with (x := constant); auto.
    + intros a s. apply write_perInstance_never_blocks.
    + intros s. unfold write_perInstance. rewrite Hsrc.
      destruct Hdata as [-> | ->]; eexists; reflexivity.
  - intros descID cb constant Hin [Hsrc Hdata].
    apply build_constant_buffer_raises with (x := constant); auto.
    + intros a s. apply write_perPass_never_blocks.
    + intros s. unfold write_perPass. rewrite Hsrc.
      destruct Hdata as [-> | ->]; eexists; reflexivity.
  - intros objectID descID cb constant Hin [Hsrc Hdata].
    apply build_constant_buffer_raises with (x := constant); auto.
    + intros a s. apply write_perInstance_never_blocks.
    + intros s. unfold write_perInstance. rewrite Hsrc.
      destruct Hdata as [-> | ->]; eexists; reflexivity.
Qed.

End ResolverProperties.

(** ** The payload of a per-pass constant buffer *)

Lemma align_up_256 (v : Z) : align_up v 256 = 256 * (u64 (v + 255) / 256).
Proof.
  unfold align_up. change (256 - 1) with 255.
  set (a := u64 (v + 255)).
  assert (Ha : a mod 2 ^ 64 = a).
  { subst a. unfold u64. apply Z.mod_mod. lia. }
  unfold u64 at 1.
  rewrite <- (Z.land_ones (Z.lnot 255) 64) by lia.
  rewrite Z.land_assoc, (Z.land_comm a), <- Z.land_assoc.
  rewrite (Z.land_comm a (Z.ones 64)), Z.land_comm.
  rewrite (Z.land_comm (Z.ones 64) a), Z.land_ones, Ha by lia.
  change 255 with (Z.ones 8).
  rewrite <- Z.ldiff_land, Z.ldiff_ones_r by lia.
  rewrite Z.shiftl_mul_pow2, Z.shiftr_div_pow2 by lia.
  change (2 ^ 8) with 256. lia.
Qed.

Lemma align_up_256_small (v : Z) :
  0 <= v -> v + 255 < 2 ^ 64 ->
  align_up v 256 = 256 * ((v + 255) / 256) /\
  v <= align_up v 256 < v + 256.
Proof.
  intros H0 H1. rewrite align_up_256. unfold u64.
  rewrite Z.mod_small by lia.
  split; [reflexivity |].
  pose proof (Z.div_mod (v + 255) 256 ltac:(lia)).
  pose proof (Z.mod_pos_bound (v + 255) 256 ltac:(lia)).
  lia.
Qed.

Lemma matrix_data_length (m : Matrix4f) : List.length (matrix_data m) = sizeof_Matrix4f.
Proof. unfold matrix_data. rewrite length_map, length_seq. reflexivity. Qed.

Lemma put_matrix_at (m : Matrix4f) (pre rest : list byte) :
  (sizeof_Matrix4f <= List.length rest)%nat ->
  put_matrix m (pre ++ rest, List.length pre)
  = ret (pre ++ matrix_data m ++ skipn sizeof_Matrix4f rest,
         (List.length pre + sizeof_Matrix4f)%nat).
Proof.
  intros H. unfold put_matrix, Expects.
  replace (Nat.leb (List.length pre + sizeof_Matrix4f) (List.length (pre ++ rest)))
    with true by (symmetry; apply Nat.leb_le; rewrite length_app; lia).
  rewrite bind_ret.
  rewrite firstn_app, Nat.sub_diag, firstn_all, firstn_O, app_nil_r.
  rewrite skipn_app, skipn_all2 by lia.
  replace (List.length pre + sizeof_Matrix4f - List.length pre)%nat
    with sizeof_Matrix4f by lia.
  reflexivity.
Qed.

Lemma fill_perPass cam (constants : list Constant) :
  Forall per_pass_only constants ->
  forall pre rest,
    (sizeof_Matrix4f * List.length constants <= List.length rest)%nat ->
    for_each constants (pre ++ rest, List.length pre) (write_perPass cam)
    = ret (pre ++ concat (map (field_bytes cam) constants)
               ++ skipn (sizeof_Matrix4f * List.length constants) rest,
           (List.length pre + sizeof_Matrix4f * List.length constants)%nat).
Proof.
  induction 1 as [| constant constants [Hsrc Hdata] _ IH]; intros pre rest Hroom.
  - cbn [for_each map concat List.length]. rewrite Nat.mul_0_r, Nat.add_0_r. reflexivity.
  - change (List.length (constant :: constants))
      with (S (List.length constants)) in *.
    cbn [for_each map concat].
    assert (Hwrite : write_perPass cam constant (pre ++ rest, List.length pre)
                     = put_matrix (match cDataType constant with
                                   | Proj_ => mProj cam
                                   | _ => mView cam
                                   end) (pre ++ rest, List.length pre)).
    { unfold write_perPass. rewrite Hsrc. destruct Hdata as [-> | ->]; reflexivity. }
    rewrite Hwrite, put_matrix_at by (unfold sizeof_Matrix4f in *; lia).
    rewrite bind_ret.
    fold (field_bytes cam constant).
    rewrite app_assoc.
    replace (List.length pre + sizeof_Matrix4f)%nat
      with (List.length (pre ++ field_bytes cam constant))
      by (rewrite length_app; unfold field_bytes; rewrite matrix_data_length; reflexivity).
    rewrite IH by (rewrite length_skipn; unfold sizeof_Matrix4f in *; lia).
    rewrite <- !app_assoc, skipn_skipn, length_app.
    unfold field_bytes at 3. rewrite matrix_data_length.
    replace (sizeof_Matrix4f * List.length constants + sizeof_Matrix4f)%nat
      with (sizeof_Matrix4f * S (List.length constants))%nat by lia.
    replace (List.length pre + sizeof_Matrix4f
             + sizeof_Matrix4f * List.length constants)%nat
      with (List.length pre + sizeof_Matrix4f * S (List.length constants))%nat by lia.
    reflexivity.
Qed.

Lemma skipn_repeat_zero {A} (x : A) (k n : nat) :
  skipn k (repeat x n) = repeat x (n - k).
Proof.
  revert k. induction n as [| n IH]; intros [| k]; cbn; auto.
Qed.

(** C6.  A per-pass constant buffer whose fields are projection and view
    matrices is uploaded as these matrices in declared order, 64 bytes each
    from offset 0, followed by zero bytes up to the declared size rounded up
    to a multiple of 256, and the view is created with that size.  For the
    definition with the single field View and declared size 64 the payload
    has 256 bytes, the first 64 are the view matrix, and the view's size is
    256. *)
Theorem perPass_payload cam :
  (forall cb descID,
     0 < mSize cb <= 2 ^ 32 - 256 ->
     Forall per_pass_only (mConstants cb) ->
     64 * Z.of_nat (List.length (mConstants cb)) <= mSize cb ->
     let size := 256 * ((mSize cb + 255) / 256) in
     let fields := concat (map (field_bytes cam) (mConstants cb)) in
     build_constant_buffer (write_perPass cam) descID cb
     = ([Upload (fields ++ repeat Byte.x00 (Z.to_nat size - List.length fields))
                size 1 256;
         CreateConstantBufferView size descID], Done tt)
     /\ mSize cb <= size < mSize cb + 256)
  /\
  (forall idx descID,
     let payload := matrix_data (mView cam) ++ repeat Byte.x00 192 in
     build_constant_buffer (write_perPass cam) descID
       {| cbIndex := idx; mSize := 64; mConstants := [engine_constant View_] |}
     = ([Upload payload 256 1 256; CreateConstantBufferView 256 descID], Done tt)
     /\ List.length payload = 256%nat
     /\ firstn 64 payload = matrix_data (mView cam)).
Proof.
  split.
  - intros cb descID Hsize Hfields Hroom size fields.
    destruct (align_up_256_small (mSize cb)) as [Halign Hbounds]; try lia.
    fold size in Halign. rewrite Halign in Hbounds.
    split; [| exact Hbounds].
    assert (Hlen : List.length fields
                   = (sizeof_Matrix4f * List.length (mConstants cb))%nat).
    { subst fields. clear. induction (mConstants cb) as [| c l IH]; [reflexivity |].
      cbn [map concat List.length]. rewrite length_app, IH.
      unfold field_bytes. rewrite matrix_data_length. unfold sizeof_Matrix4f. lia. }
    unfold build_constant_buffer, Expects. cbv zeta.
    replace (negb (mSize cb =? 0)) with true
      by (symmetry; apply negb_true_iff, Z.eqb_neq; lia).
    rewrite bind_ret, Halign.
    pose proof (fill_perPass cam (mConstants cb) Hfields [] (resize size)) as Hfill.
    cbn [app List.length] in Hfill.
    rewrite Hfill.
    2:{ unfold resize. rewrite repeat_length. unfold sizeof_Matrix4f. lia. }
    rewrite bind_ret. cbn [fst].
    unfold resize. rewrite skipn_repeat_zero, <- Hlen.
    fold fields.
    assert (Hview : u32 (Z.of_nat (List.length
                       (fields ++ repeat Byte.x00 (Z.to_nat size - List.length fields))))
                    = size).
    { rewrite length_app, repeat_length, Hlen.
      unfold u32, sizeof_Matrix4f. rewrite Z.mod_small; lia. }
    rewrite Hview. unfold emit. rewrite bind_done. reflexivity.
  - intros idx descID payload. subst payload.
    repeat split.
Qed.

(** ** Render-target views *)

(** C8.  The view of an output attachment: handle 0 is the view at the
    frame's back-buffer index, a handle equal to the back-buffer count is
    the view at back-buffer index plus back-buffer count, and any other
    handle is the view at the handle itself.  The sum is a [uint32_t]; it is
    taken to fit.  The resolved view is the one that is cleared and
    bound. *)
Theorem resolve_rtv_sentinels pContext handle :
  0 <= mBackBufferIndex pContext + mBackBufferCount pContext < 2 ^ 32 ->
  (handle = 0 -> resolve_rtv pContext handle = RTV (mBackBufferIndex pContext))
  /\
  (handle = mBackBufferCount pContext ->
   resolve_rtv pContext handle
   = RTV (mBackBufferIndex pContext + mBackBufferCount pContext))
  /\
  (handle <> 0 -> handle <> mBackBufferCount pContext ->
   resolve_rtv pContext handle = RTV handle)
  /\
  (forall color rootSignature descriptors constantBuffers,
     commands (log_of (preSubpass pContext {|
       mOutputAttachments := [ {| mDescriptorHandle := handle;
                                  mLoadOp := ClearColor color |} ];
       mDepthStencilAttachment := None;
       mOrderedRenderQueue := [];
       mRootSignature := rootSignature;
       mDescriptors := descriptors;
       mConstantBuffers := constantBuffers;
       mPostViewTransitions := [] |}))
     = [ClearRenderTargetView (resolve_rtv pContext handle) color;
        OMSetRenderTargets [resolve_rtv pContext handle] None]).
Proof.
  intros Hfit. unfold resolve_rtv. repeat split.
  - intros ->. reflexivity.
  - intros ->.
    destruct (mBackBufferCount pContext =? 0) eqn:H0.
    + apply Z.eqb_eq in H0. rewrite H0, Z.add_0_r. reflexivity.
    + rewrite Z.eqb_refl. unfold u32. rewrite Z.mod_small by lia. reflexivity.
  - intros H0 Hc.
    apply Z.eqb_neq in H0. apply Z.eqb_neq in Hc. rewrite H0, Hc. reflexivity.
Qed.

(** ** The first command of renderFrame *)

Section RenderFrameProperties.

Variable mat_mul : Matrix4f -> Matrix4f -> Matrix4f.
Variable PerPass : Z.
Variable getSubpassData :
  DX12Material -> Z -> Z -> Z -> Z -> Outcome (DX12ShaderQueueData * (Z * Z * Z)).

(** C10.  On a frame context that beginFrame has filled in, with its
    back-buffer index inside the framebuffer table, the first entry of the
    log of renderFrame, and so the first command on the command list, is one
    resource barrier with the single transition of that framebuffer from
    Present to RenderTarget. *)
Theorem renderFrame_first_command cam pContext works backBuffer :
  mRenderWorks pContext = Some works ->
  0 <= mBackBufferIndex pContext ->
  nth_error (mFramebuffers works) (Z.to_nat (mBackBufferIndex pContext))
    = Some backBuffer ->
  let barrier := ResourceBarrier
                   [Transition backBuffer D3D12_RESOURCE_STATE_PRESENT
                               D3D12_RESOURCE_STATE_RENDER_TARGET] in
  exists rest,
    log_of (renderFrame mat_mul PerPass getSubpassData cam pContext)
      = Record_ barrier :: rest /\
    commands (log_of (renderFrame mat_mul PerPass getSubpassData cam pContext))
      = barrier :: commands rest.
Proof.
  intros Hworks Hpos Hnth barrier.
  unfold renderFrame, deref. rewrite Hworks, bind_ret.
  unfold index. apply Z.ltb_ge in Hpos. rewrite Hpos, Hnth, bind_ret.
  rewrite bind_record.
  eexists. split; reflexivity.
Qed.

End RenderFrameProperties.

(** ** The draws of an object batch *)

Lemma bind_Done_inv {A B} (m : Exec A) (k : A -> Exec B) log b :
  bind m k = (log, Done b) ->
  exists l1 a l2, m = (l1, Done a) /\ k a = (l2, Done b) /\ log = l1 ++ l2.
Proof.
  destruct m as [l1 [a | f |]]; cbn; try discriminate.
  destruct (k a) as [l2 r] eqn:E. intros H. inversion H; subst.
  exists l1, a, l2. auto.
Qed.

Lemma bind_ext {A B} (m : Exec A) (k k' : A -> Exec B) :
  (forall a, k a = k' a) -> bind m k = bind m k'.
Proof.
  intros H. destruct m as [log [a | f |]]; cbn; try reflexivity.
  rewrite H. reflexivity.
Qed.

Lemma indexed_draw_commands_app l1 l2 :
  indexed_draw_commands (l1 ++ l2)
  = indexed_draw_commands l1 ++ indexed_draw_commands l2.
Proof. unfold indexed_draw_commands. rewrite commands_app. apply filter_app. Qed.

Lemma quiet_log {A} (m : Exec A) log o :
  quiet m -> m = (log, o) -> indexed_draw_commands log = [].
Proof. intros H ->. exact H. Qed.

Lemma quiet_ret {A} (a : A) : quiet (ret a).
Proof. reflexivity. Qed.

Lemma quiet_throw {A} f : quiet (@throw A f).
Proof. reflexivity. Qed.

Lemma quiet_call {A} (o : Outcome A) : quiet (call o).
Proof. reflexivity. Qed.

Lemma quiet_Expects b : quiet (Expects b).
Proof. destruct b; reflexivity. Qed.

Lemma quiet_at {A} (l : list A) i : quiet (at_ l i).
Proof.
  unfold at_. destruct (i <? 0); [reflexivity |].
  destruct (nth_error l (Z.to_nat i)); reflexivity.
Qed.

Lemma quiet_index {A} (l : list A) i : quiet (index l i).
Proof.
  unfold index. destruct (i <? 0); [reflexivity |].
  destruct (nth_error l (Z.to_nat i)); reflexivity.
Qed.

Lemma quiet_record c : is_indexed_draw c = false -> quiet (record c).
Proof. intros H. unfold quiet, indexed_draw_commands. cbn. rewrite H. reflexivity. Qed.

Lemma quiet_bind {A B} (m : Exec A) (k : A -> Exec B) :
  quiet m -> (forall a, quiet (k a)) -> quiet (bind m k).
Proof.
  unfold quiet, log_of. intros Hm Hk.
  destruct m as [log [a | f |]]; cbn [bind fst] in *; auto.
  specialize (Hk a). destruct (k a) as [log' r]. cbn [fst] in *.
  rewrite indexed_draw_commands_app, Hm, Hk. reflexivity.
Qed.

Lemma quiet_for_each {A S} (l : list A) (body : A -> S -> Exec S) :
  (forall a s, quiet (body a s)) -> forall s, quiet (for_each l s body).
Proof.
  intros H. induction l as [| a l IH]; intros s; cbn [for_each].
  - apply quiet_ret.
  - apply quiet_bind; auto.
Qed.

Lemma quiet_for {A} (l : list A) (body : A -> Exec unit) :
  (forall a, quiet (body a)) -> quiet (for_ l body).
Proof. intros H. apply quiet_for_each. intros a _. apply H. Qed.

Create HintDb quiet.
#[local] Hint Resolve quiet_ret quiet_throw quiet_call quiet_Expects quiet_at
  quiet_index : quiet.
#[local] Hint Extern 1 (quiet (record _)) =>
  (apply quiet_record; reflexivity) : quiet.
#[local] Hint Extern 1 (quiet (emit _)) => reflexivity : quiet.
#[local] Hint Extern 1 (quiet (bind_list _)) =>
  (apply quiet_record; reflexivity) : quiet.

(* Through the binds, loops and case distinctions of a computation. *)
Ltac quiet_step :=
  match goal with
  | |- quiet (bind _ _) => apply quiet_bind; [| intros]
  | |- quiet (for_each _ _ _) => apply quiet_for_each; intros
  | |- quiet (for_ _ _) => apply quiet_for; intros
  | |- quiet (if ?b then _ else _) => destruct b
  | |- quiet (match ?x with _ => _ end) => destruct x
  | |- quiet _ => solve [auto with quiet]
  end.

Lemma quiet_put_matrix m c : quiet (put_matrix m c).
Proof. destruct c as [buf pData]. unfold put_matrix. repeat quiet_step. Qed.

#[local] Hint Resolve quiet_put_matrix : quiet.

Lemma quiet_build_constant_buffer write descID cb :
  (forall constant c, quiet (write constant c)) ->
  quiet (build_constant_buffer write descID cb).
Proof. intros H. unfold build_constant_buffer. repeat quiet_step. Qed.

Lemma quiet_resolve_constant_buffer write cbs idx descID :
  (forall constant c, quiet (write constant c)) ->
  quiet (resolve_constant_buffer write cbs idx descID).
Proof.
  intros H. unfold resolve_constant_buffer. apply quiet_bind.
  - induction cbs as [| cb cbs IH]; cbn [find_constant_buffer]; [auto with quiet |].
    destruct (negb _); [exact IH |].
    apply quiet_bind; [| auto with quiet].
    apply quiet_build_constant_buffer. exact H.
  - intros found. repeat quiet_step.
Qed.

Lemma quiet_set_topology t st : quiet (set_topology t st).
Proof. destruct st. unfold set_topology. repeat quiet_step. Qed.

Lemma quiet_shader_subpasses queue : quiet (shader_subpasses queue).
Proof. unfold shader_subpasses. repeat quiet_step. Qed.

Lemma quiet_material_subpass material ids subpassID :
  quiet (material_subpass material ids subpassID).
Proof. destruct ids as [[a b] c]. unfold material_subpass. repeat quiet_step. Qed.

#[local] Hint Resolve quiet_set_topology quiet_shader_subpasses
  quiet_material_subpass : quiet.

Lemma skipn_nth_error_cons {A} (l : list A) (n : nat) (a : A) :
  nth_error l n = Some a -> skipn n l = a :: skipn (S n) l.
Proof.
  revert n. induction l as [| x l IH]; intros [| n] H; cbn in *; try discriminate.
  - inversion H. reflexivity.
  - apply IH. exact H.
Qed.

Section BatchProperties.

Variable mat_mul : Matrix4f -> Matrix4f -> Matrix4f.
Variable PerPass : Z.
Variable getSubpassData :
  DX12Material -> Z -> Z -> Z -> Z -> Outcome (DX12ShaderQueueData * (Z * Z * Z)).

Lemma quiet_write_perInstance cam pBatch objectID constant c :
  quiet (write_perInstance mat_mul cam pBatch objectID constant c).
Proof. unfold write_perInstance. repeat quiet_step. Qed.

Lemma quiet_buildDynamicDescriptors shaderSubpass subpassData cam pBatch objectID :
  quiet (buildDynamicDescriptors mat_mul PerPass shaderSubpass subpassData cam
           pBatch objectID).
Proof.
  unfold buildDynamicDescriptors, perInstance_attribute.
  repeat first
    [ apply quiet_resolve_constant_buffer; intros; apply quiet_write_perInstance
    | quiet_step ].
Qed.

(* One indexed draw per shader subpass. *)
Lemma draw_shader_subpasses_draws material ids key cam pBatch objectID draw
    subpasses st log st' :
  is_indexed_draw draw = true ->
  draw_shader_subpasses mat_mul PerPass material ids key cam pBatch objectID draw
    subpasses st = (log, Done st') ->
  indexed_draw_commands log = repeat draw (List.length subpasses).
Proof.
  intros Hdraw. unfold draw_shader_subpasses. destruct st as [prevTopology pPrevPSO].
  intros H. apply bind_Done_inv in H. destruct H as (l1 & r & l2 & Hloop & Hret & ->).
  inversion Hret; subst; clear Hret. rewrite app_nil_r.
  revert Hloop. generalize (0, pPrevPSO). revert l1 r.
  induction subpasses as [| shaderSubpass subpasses IH]; intros l1 r s Hloop.
  - inversion Hloop; subst. reflexivity.
  - cbn [for_each] in Hloop.
    apply bind_Done_inv in Hloop. destruct Hloop as (la & s1 & lb & Hbody & Hrest & ->).
    rewrite indexed_draw_commands_app, (IH _ _ _ Hrest). cbn [List.length repeat].
    change (draw :: repeat draw (List.length subpasses))
      with ([draw] ++ repeat draw (List.length subpasses)).
    f_equal. clear IH Hrest.
    destruct s as [subpassID pso].
    apply bind_Done_inv in Hbody. destruct Hbody as (a1 & layoutID & a2 & H1 & Hbody & ->).
    apply bind_Done_inv in Hbody. destruct Hbody as (b1 & state & b2 & H2 & Hbody & ->).
    apply bind_Done_inv in Hbody. destruct Hbody as (c1 & pso' & c2 & H3 & Hbody & ->).
    apply bind_Done_inv in Hbody. destruct Hbody as (d1 & data & d2 & H4 & Hbody & ->).
    apply bind_Done_inv in Hbody. destruct Hbody as (e1 & [] & e2 & H5 & Hbody & ->).
    apply bind_Done_inv in Hbody. destruct Hbody as (f1 & [] & f2 & H6 & Hbody & ->).
    inversion H6; subst; clear H6. inversion Hbody; subst; clear Hbody.
    rewrite !indexed_draw_commands_app.
    rewrite (quiet_log _ _ _ (quiet_at _ _) H1).
    rewrite (quiet_log _ _ _ (quiet_at _ _) H2).
    rewrite (quiet_log _ _ _ (quiet_material_subpass _ _ _) H4).
    rewrite (quiet_log _ _ _ (quiet_buildDynamicDescriptors _ _ _ _ _) H5).
    assert (Hc : indexed_draw_commands c1 = []).
    { eapply quiet_log; [| exact H3]. repeat quiet_step. }
    rewrite Hc. unfold indexed_draw_commands. cbn. rewrite Hdraw. reflexivity.
Qed.

(* A material that is drawn has its submesh, and draws it once per shader
   subpass. *)
Lemma draw_material_draws sol pipe pass sub cam batch objectID mesh material
    materialID st log st' :
  0 <= materialID ->
  draw_material mat_mul PerPass getSubpassData sol pipe pass sub cam batch objectID
    mesh material materialID st = (log, Done st') ->
  exists submesh,
    nth_error (mSubMeshes mesh) (Z.to_nat materialID) = Some submesh /\
    indexed_draw_commands log
    = repeat (draw_of submesh) (subpass_count getSubpassData sol pipe pass sub material).
Proof.
  intros Hpos H. unfold draw_material in H.
  apply bind_Done_inv in H. destruct H as (a1 & submesh & a2 & H1 & H & ->).
  apply bind_Done_inv in H. destruct H as (b1 & [queue ids] & b2 & H2 & H & ->).
  apply bind_Done_inv in H. destruct H as (c1 & st1 & c2 & H3 & H & ->).
  apply bind_Done_inv in H. destruct H as (d1 & [] & d2 & H4 & H & ->).
  apply bind_Done_inv in H. destruct H as (e1 & [] & e2 & H5 & H & ->).
  apply bind_Done_inv in H. destruct H as (f1 & subpasses & f2 & H6 & H & ->).
  exists submesh. split.
  - unfold at_ in H1. apply Z.ltb_ge in Hpos. rewrite Hpos in H1.
    destruct (nth_error (mSubMeshes mesh) (Z.to_nat materialID)); [| discriminate].
    inversion H1. reflexivity.
  - apply draw_shader_subpasses_draws in H; [| reflexivity].
    rewrite !indexed_draw_commands_app, H.
    rewrite (quiet_log _ _ _ (quiet_at _ _) H1).
    rewrite (quiet_log _ _ _ (quiet_call _) H2).
    rewrite (quiet_log _ _ _ (quiet_set_topology _ _) H3).
    rewrite (quiet_log _ _ _ (quiet_shader_subpasses _) H6).
    assert (Hd : indexed_draw_commands d1 = []).
    { eapply quiet_log; [| exact H4]. repeat quiet_step. }
    assert (He : indexed_draw_commands e1 = []).
    { eapply quiet_log; [| exact H5]. repeat quiet_step. }
    rewrite Hd, He. cbn [app].
    unfold subpass_count. unfold call in H2. inversion H2 as [[Hl Hcall]].
    rewrite Hcall, H6. reflexivity.
Qed.

Lemma draw_materials_draws sol pipe pass sub cam batch objectID mesh materials :
  forall materialID st log st',
    0 <= materialID ->
    draw_materials mat_mul PerPass getSubpassData sol pipe pass sub cam batch objectID
      mesh materials materialID st = (log, Done st') ->
    indexed_draw_commands log
    = material_draws getSubpassData sol pipe pass sub
        (skipn (Z.to_nat materialID) (mSubMeshes mesh)) materials.
Proof.
  induction materials as [| material materials IH]; intros materialID st log st' Hpos H.
  - cbn in H. inversion H; subst.
    destruct (skipn _ _); reflexivity.
  - cbn [draw_materials] in H.
    destruct (materialID >=? Z.of_nat (List.length (mSubMeshes mesh))) eqn:Hge.
    + inversion H; subst.
      rewrite skipn_all2 by (apply Z.geb_le in Hge; lia). reflexivity.
    + apply bind_Done_inv in H. destruct H as (l1 & st1 & l2 & Hone & Hrest & ->).
      apply draw_material_draws in Hone; [| exact Hpos].
      destruct Hone as (submesh & Hnth & Hone).
      apply IH in Hrest; [| lia].
      rewrite indexed_draw_commands_app, Hone, Hrest.
      rewrite (skipn_nth_error_cons _ _ _ Hnth).
      replace (Z.to_nat (materialID + 1)) with (S (Z.to_nat materialID)) by lia.
      reflexivity.
Qed.

(* The materials past the last submesh are never looked at. *)
Lemma draw_materials_stop sol pipe pass sub cam batch objectID mesh materials :
  forall materialID st,
    0 <= materialID ->
    draw_materials mat_mul PerPass getSubpassData sol pipe pass sub cam batch objectID
      mesh materials materialID st
    = draw_materials mat_mul PerPass getSubpassData sol pipe pass sub cam batch objectID
        mesh
        (firstn (List.length (mSubMeshes mesh) - Z.to_nat materialID) materials)
        materialID st.
Proof.
  induction materials as [| material materials IH]; intros materialID st Hpos.
  - rewrite firstn_nil. reflexivity.
  - cbn [draw_materials].
    destruct (materialID >=? Z.of_nat (List.length (mSubMeshes mesh))) eqn:Hge.
    + destruct (firstn _ _); [reflexivity |].
      cbn [draw_materials]. rewrite Hge. reflexivity.
    + assert (Hlt : materialID < Z.of_nat (List.length (mSubMeshes mesh))).
      { destruct (Z.geb_spec materialID (Z.of_nat (List.length (mSubMeshes mesh))));
          [discriminate | lia]. }
      replace (List.length (mSubMeshes mesh) - Z.to_nat materialID)%nat
        with (S (List.length (mSubMeshes mesh) - Z.to_nat (materialID + 1))) by lia.
      cbn [firstn draw_materials]. rewrite Hge.
      apply bind_ext. intros st1. apply IH. lia.
Qed.

Lemma indexed_nonneg {A} (l : list A) :
  Forall (fun p : Z * A => 0 <= fst p) (indexed l).
Proof. apply indexed_from_nonneg. Qed.

Lemma indexed_from_snd {A} (l : list A) (start : nat) :
  map snd (combine (map Z.of_nat (seq start (List.length l))) l) = l.
Proof.
  revert start. induction l as [| a l IH]; intros start; cbn; [reflexivity |].
  rewrite IH. reflexivity.
Qed.

Lemma draw_renderers_draws sol pipe pass sub cam batch
    (renderers : list (Z * MeshRenderer)) :
  Forall (fun p => 0 <= fst p) renderers ->
  forall st log st',
    for_each renderers st (fun '(objectID, renderer) st =>
      draw_materials mat_mul PerPass getSubpassData sol pipe pass sub cam batch
        objectID (mMesh renderer) (mMaterials renderer) 0 st) = (log, Done st') ->
    indexed_draw_commands log
    = concat (map (fun renderer =>
                     material_draws getSubpassData sol pipe pass sub
                       (mSubMeshes (mMesh renderer)) (mMaterials renderer))
                  (map snd renderers)).
Proof.
  induction 1 as [| [objectID renderer] renderers Hpos _ IH]; intros st log st' H.
  - inversion H; subst. reflexivity.
  - cbn [for_each] in H.
    apply bind_Done_inv in H. destruct H as (l1 & st1 & l2 & Hone & Hrest & ->).
    apply draw_materials_draws in Hone; [| lia].
    apply IH in Hrest.
    rewrite indexed_draw_commands_app, Hone, Hrest. reflexivity.
Qed.

(** C7, as the code has it.  For every mesh renderer of a batch the
    materials are taken in index order while the material index is below the
    submesh count; the materials from the submesh count on are not looked
    at.  Each material taken draws its submesh once for every shader subpass
    of the material's queue, so an object batch that is drawn to the end
    submits, renderer by renderer, one indexed draw per submesh/material
    pair and shader subpass.  With three materials of one shader subpass
    each on a mesh of two submeshes that is two indexed draws. *)
Theorem objectBatch_draws sol pipe pass sub cam batch :
  (forall objectID mesh materials st,
     draw_materials mat_mul PerPass getSubpassData sol pipe pass sub cam batch objectID
       mesh materials 0 st
     = draw_materials mat_mul PerPass getSubpassData sol pipe pass sub cam batch objectID
         mesh (firstn (List.length (mSubMeshes mesh)) materials) 0 st)
  /\
  (forall st log st',
     draw_objectBatch mat_mul PerPass getSubpassData sol pipe pass sub cam batch st
       = (log, Done st') ->
     indexed_draw_commands log
     = concat (map (fun renderer =>
                      material_draws getSubpassData sol pipe pass sub
                        (mSubMeshes (mMesh renderer)) (mMaterials renderer))
                   (mMeshRenderers batch)))
  /\
  (forall renderer m1 m2 m3 s1 s2 st log st',
     mMeshRenderers batch = [renderer] ->
     mMaterials renderer = [m1; m2; m3] ->
     mSubMeshes (mMesh renderer) = [s1; s2] ->
     subpass_count getSubpassData sol pipe pass sub m1 = 1%nat ->
     subpass_count getSubpassData sol pipe pass sub m2 = 1%nat ->
     draw_objectBatch mat_mul PerPass getSubpassData sol pipe pass sub cam batch st
       = (log, Done st') ->
     indexed_draw_commands log = [draw_of s1; draw_of s2]).
Proof.
  assert (Hbatch : forall st log st',
     draw_objectBatch mat_mul PerPass getSubpassData sol pipe pass sub cam batch st
       = (log, Done st') ->
     indexed_draw_commands log
     = concat (map (fun renderer =>
                      material_draws getSubpassData sol pipe pass sub
                        (mSubMeshes (mMesh renderer)) (mMaterials renderer))
                   (mMeshRenderers batch))).
  { intros st log st' H. unfold draw_objectBatch in H.
    apply bind_Done_inv in H. destruct H as (a1 & [] & a2 & H1 & H & ->).
    apply bind_Done_inv in H. destruct H as (b1 & [] & b2 & H2 & H & ->).
    apply draw_renderers_draws in H; [| apply indexed_nonneg].
    rewrite !indexed_draw_commands_app, H.
    rewrite (quiet_log _ _ _ (quiet_Expects _) H1).
    rewrite (quiet_log _ _ _ (quiet_Expects _) H2).
    unfold indexed. rewrite indexed_from_snd. reflexivity. }
  split; [| split].
  - intros objectID mesh materials st.
    rewrite draw_materials_stop by lia.
    change (Z.to_nat 0) with O. rewrite Nat.sub_0_r. reflexivity.
  - exact Hbatch.
  - intros renderer m1 m2 m3 s1 s2 st log st' Hr Hm Hs H1 H2 H.
    rewrite (Hbatch _ _ _ H), Hr. cbn [map concat].
    rewrite Hm, Hs. cbn [material_draws]. rewrite H1, H2. reflexivity.
Qed.

End BatchProperties.

(** ** buildShaderData: deferred and immediate compilation *)

Section ShaderStageProperties.

Variable compileShader : string -> string -> string -> string -> Exec string.

(** C9.  With [bCompile] false the pixel and vertex stages require their
    program buffer to be empty: on an empty buffer the generated text is
    stored in it and the compiler is not called; on a buffer that already
    holds something the Expects fails.  With [bCompile] true the generated
    text is handed to the compiler at once and the buffer takes what the
    compiler returns. *)
Theorem buildShaderStage_deferred_or_compiled shaderName src subpassData :
  (mPS subpassData = EmptyString ->
   buildShaderStage compileShader false shaderName PS_ src subpassData
   = ret {| mPS := stage_text src; mVS := mVS subpassData;
            mSemantics := mSemantics subpassData |})
  /\
  (mPS subpassData <> EmptyString ->
   buildShaderStage compileShader false shaderName PS_ src subpassData
   = throw contract_violation)
  /\
  (mVS subpassData = EmptyString ->
   buildShaderStage compileShader false shaderName VS_ src subpassData
   = ret {| mPS := mPS subpassData; mVS := stage_text src;
            mSemantics := add_inputs (getNodeInputsWithoutSource src)
                                     (mSemantics subpassData) |})
  /\
  (mVS subpassData <> EmptyString ->
   buildShaderStage compileShader false shaderName VS_ src subpassData
   = throw contract_violation)
  /\
  buildShaderStage compileShader true shaderName PS_ src subpassData
  = (ps <- compileShader (mPS subpassData) "ps_5_0" (shaderName ++ ".vs")%string
             (stage_text src) ;;
     ret {| mPS := ps; mVS := mVS subpassData; mSemantics := mSemantics subpassData |})
  /\
  buildShaderStage compileShader true shaderName VS_ src subpassData
  = (vs <- compileShader (mVS subpassData) "vs_5_0" (shaderName ++ ".vs")%string
             (stage_text src) ;;
     ret {| mPS := mPS subpassData; mVS := vs;
            mSemantics := add_inputs (getNodeInputsWithoutSource src)
                                     (mSemantics subpassData) |}).
Proof.
  unfold buildShaderStage. repeat split.
  - intros H. rewrite H. reflexivity.
  - intros H. destruct (mPS subpassData); [contradiction | reflexivity].
  - intros H. rewrite H. reflexivity.
  - intros H. destruct (mVS subpassData); [contradiction | reflexivity].
Qed.

End ShaderStageProperties.

(** * Further properties *)

(** ** The frame queue *)

Lemma replace_nth_other {A} (n j : nat) (a : A) (l : list A) :
  j <> n -> nth_error (replace_nth n a l) j = nth_error l j.
Proof.
  revert n j. induction l as [| x l IH]; intros [| n] [| j] H; cbn; auto.
  congruence.
Qed.

(** X1.  A call to beginFrame that returns changes one frame context only:
    the ring keeps its size, every slot but the returned one holds the frame
    it held, and the next ring index is again inside the ring. *)
Theorem beginFrame_touches_one_slot sc q fence log fence' slot q' :
  beginFrame sc q fence = ((log, Done (fence', slot)), q') ->
  Z.of_nat (List.length (mFrames q)) < 2 ^ 32 ->
  List.length (mFrames q') = List.length (mFrames q) /\
  (forall j, j <> slot -> nth_error (mFrames q') j = nth_error (mFrames q) j) /\
  0 <= mNextFrameIndex q' < Z.of_nat (List.length (mFrames q')).
Proof.
  intros H Hsize. apply beginFrame_done in H.
  destruct H as (pFrame & frame' & _ & HR & _ & _ & _ & _ & _ & _ & Hi & Hframes & _).
  rewrite Hframes, replace_nth_length.
  split; [reflexivity |]. split.
  - intros j Hj. apply replace_nth_other. exact Hj.
  - rewrite Hi. unfold u32 in *.
    rewrite (Z.mod_small (Z.of_nat _)) in * by lia.
    apply Z.mod_pos_bound. lia.
Qed.


(** X3.  endFrame on the frame that beginFrame has just returned sets the
    completion event for, and signals, the fence value that this beginFrame
    took from the counter, and queues that value behind what the fence
    already has. *)
Theorem endFrame_signals_frame_fence sc q fence log fence' slot q' :
  beginFrame sc q fence = ((log, Done (fence', slot)), q') ->
  endFrame q' fence' slot
  = ([SetEventOnCompletion (mNextFrameFence q); Signal (mNextFrameFence q)],
     Done {| completed := completed fence';
             queued := queued fence' ++ [mNextFrameFence q] |}).
Proof.
  intros H. apply beginFrame_done in H.
  destruct H as (pFrame & frame' & _ & _ & _ & _ & Hold & _ & _ & _ & _ & Hframes & Hid).
  unfold endFrame. rewrite Hframes, replace_nth_same.
  - rewrite Hid. reflexivity.
  - apply nth_error_Some. rewrite Hold. discriminate.
Qed.

Lemma mod_shift_ne (R i a : Z) :
  0 <= i < R -> 0 < a < R -> (i + a) mod R <> i.
Proof.
  intros Hi Ha.
  destruct (Z_lt_ge_dec (i + a) R) as [Hlt | Hge].
  - rewrite Z.mod_small by lia. lia.
  - replace (i + a) with ((i + a - R) + 1 * R) by lia.
    rewrite Z_mod_plus_full, Z.mod_small by lia. lia.
Qed.

(* The slots that a run does not come by are as they were. *)
Lemma begins_untouched q calls q' :
  begins q calls q' ->
  forall R, R = Z.of_nat (List.length (mFrames q)) -> R < 2 ^ 32 ->
  0 <= mNextFrameIndex q < R ->
  forall j,
    (forall m, (m < List.length calls)%nat ->
               (mNextFrameIndex q + Z.of_nat m) mod R <> Z.of_nat j) ->
    nth_error (mFrames q') j = nth_error (mFrames q) j.
Proof.
  induction 1 as [q | sc q fence log fence' slot q' frame calls q'' Hbegin Hframe Hrest IH];
    intros R HR Hsize Hidx j Hj; [reflexivity |].
  apply beginFrame_done in Hbegin.
  destruct Hbegin as (pFrame & frame' & _ & _ & _ & Hslot & Hold & _ & _
                      & _ & Hi' & Hframes & _).
  assert (Hu : u32 (Z.of_nat (List.length (mFrames q))) = R).
  { unfold u32. rewrite Z.mod_small; lia. }
  rewrite Hu in Hi'.
  assert (Hi1 : mNextFrameIndex q' = (mNextFrameIndex q + 1) mod R).
  { rewrite Hi'. unfold u32. rewrite (Z.mod_small (_ + 1)); lia. }
  rewrite (IH R).
  - rewrite Hframes. apply replace_nth_other.
    specialize (Hj O ltac:(cbn; lia)).
    rewrite Z.add_0_r, Z.mod_small in Hj by lia. lia.
  - rewrite Hframes, replace_nth_length. exact HR.
  - exact Hsize.
  - rewrite Hi1. apply Z.mod_pos_bound. lia.
  - intros m Hm. rewrite Hi1, Zplus_mod_idemp_l.
    replace (mNextFrameIndex q + 1 + Z.of_nat m)
      with (mNextFrameIndex q + Z.of_nat (S m)) by lia.
    apply Hj. cbn. lia.
Qed.

(* The last R calls of a run have left their fence values in their slots. *)
Lemma begins_recent q calls q' :
  begins q calls q' ->
  forall R, R = Z.of_nat (List.length (mFrames q)) -> R < 2 ^ 32 ->
  0 <= mNextFrameIndex q < R ->
  0 <= mNextFrameFence q ->
  mNextFrameFence q + Z.of_nat (List.length calls) <= 2 ^ 64 ->
  forall m,
    (m < List.length calls)%nat ->
    Z.of_nat (List.length calls) <= Z.of_nat m + R ->
    exists frame,
      nth_error (mFrames q') (Z.to_nat ((mNextFrameIndex q + Z.of_nat m) mod R))
        = Some frame /\
      mFrameFenceId frame = mNextFrameFence q + Z.of_nat m.
Proof.
  induction 1 as [q | sc q fence log fence' slot q' frame calls q'' Hbegin Hframe Hrest IH];
    intros R HR Hsize Hidx Hfence Hroom m Hm Hlast; [cbn in Hm; lia |].
  pose proof Hbegin as Hdone. apply beginFrame_done in Hdone.
  destruct Hdone as (pFrame & frame' & _ & _ & _ & Hslot & Hold & _ & _
                     & Hf' & Hi' & Hframes & Hid).
  assert (Hlt : (slot < List.length (mFrames q))%nat).
  { apply nth_error_Some. rewrite Hold. discriminate. }
  assert (Hu : u32 (Z.of_nat (List.length (mFrames q))) = R).
  { unfold u32. rewrite Z.mod_small; lia. }
  rewrite Hu in Hi'.
  assert (Hi1 : mNextFrameIndex q' = (mNextFrameIndex q + 1) mod R).
  { rewrite Hi'. unfold u32. rewrite (Z.mod_small (_ + 1)); lia. }
  assert (HR' : R = Z.of_nat (List.length (mFrames q'))).
  { rewrite Hframes, replace_nth_length. exact HR. }
  assert (Hidx' : 0 <= mNextFrameIndex q' < R).
  { rewrite Hi1. apply Z.mod_pos_bound. lia. }
  cbn [List.length] in *.
  destruct m as [| m].
  - (* the first call's slot is not come by again *)
    rewrite Z.add_0_r, Z.mod_small by lia.
    rewrite (begins_untouched _ _ _ Hrest R HR' Hsize Hidx').
    + rewrite Hframes, <- Hslot, replace_nth_same by exact Hlt.
      exists frame'. split; [reflexivity | lia].
    + intros k Hk. rewrite Hi1, Zplus_mod_idemp_l, Z2Nat.id by lia.
      replace (mNextFrameIndex q + 1 + Z.of_nat k)
        with (mNextFrameIndex q + (1 + Z.of_nat k)) by lia.
      apply mod_shift_ne; lia.
  - assert (Hf1 : mNextFrameFence q' = mNextFrameFence q + 1).
    { rewrite Hf'. unfold u64. rewrite Z.mod_small; lia. }
    destruct (IH R HR' Hsize Hidx') with (m := m) as (fr & Hnth & Hfr); try lia.
    exists fr. split.
    + rewrite <- Hnth. f_equal. f_equal.
      rewrite Hi1, Zplus_mod_idemp_l. f_equal. lia.
    + lia.
Qed.

(** X4.  A slot is come by again exactly a ring later.  After a run of [n]
    returning calls to beginFrame, started with ring index 0 on a ring of
    [R] frames, the slot of the next call, [n mod R], holds the fence value
    handed out [R] calls earlier, [mNextFrameFence + n - R], when [n >= R],
    and still holds the frame it held at the start when [n < R].  So the
    wait of a call is for the frame submitted [R] calls before it. *)
Theorem slot_reused_a_ring_later q0 calls q' :
  begins q0 calls q' ->
  mNextFrameIndex q0 = 0 ->
  Z.of_nat (List.length (mFrames q0)) < 2 ^ 32 ->
  0 <= mNextFrameFence q0 ->
  mNextFrameFence q0 + Z.of_nat (List.length calls) <= 2 ^ 64 ->
  let n := List.length calls in
  let R := List.length (mFrames q0) in
  ((0 < R <= n)%nat ->
   exists frame,
     nth_error (mFrames q') (n mod R) = Some frame /\
     mFrameFenceId frame = mNextFrameFence q0 + Z.of_nat n - Z.of_nat R)
  /\
  ((n < R)%nat -> nth_error (mFrames q') n = nth_error (mFrames q0) n).
Proof.
  intros Hrun Hidx Hsize Hfence Hroom n R. split.
  - intros Hn.
    destruct (begins_recent _ _ _ Hrun (Z.of_nat R) eq_refl Hsize ltac:(lia) Hfence Hroom
                (n - R)%nat) as (frame & Hnth & Hid); try (subst n; lia).
    exists frame. split.
    + rewrite <- Hnth. f_equal. rewrite Hidx, Z.add_0_l.
      rewrite <- Nat2Z.inj_mod, Nat2Z.id.
      replace n with ((n - R) + 1 * R)%nat at 1 by lia.
      apply Nat.Div0.mod_add.
    + rewrite Hid. lia.
  - intros Hn.
    apply (begins_untouched _ _ _ Hrun (Z.of_nat R) eq_refl Hsize); [lia |].
    intros m Hm. rewrite Hidx, Z.add_0_l, Z.mod_small by (subst n; lia).
    subst n. lia.
Qed.

(** ** The loop of beginFrame and endFrame against the fence *)





(** ** What a computation logs *)

Lemma logs_only_weaken {A} (P Q : Event -> Prop) (m : Exec A) :
  (forall e, P e -> Q e) -> logs_only P m -> logs_only Q m.
Proof. intros H. unfold logs_only. apply Forall_impl. exact H. Qed.

Lemma logs_only_ret {A} P (a : A) : logs_only P (ret a).
Proof. constructor. Qed.

Lemma logs_only_throw {A} P f : logs_only P (@throw A f).
Proof. constructor. Qed.

Lemma logs_only_call {A} P (o : Outcome A) : logs_only P (call o).
Proof. constructor. Qed.

Lemma logs_only_Expects P b : logs_only P (Expects b).
Proof. destruct b; constructor. Qed.

Lemma logs_only_at {A} P (l : list A) i : logs_only P (at_ l i).
Proof.
  unfold at_. destruct (i <? 0); [constructor |].
  destruct (nth_error l (Z.to_nat i)); constructor.
Qed.

Lemma logs_only_index {A} P (l : list A) i : logs_only P (index l i).
Proof.
  unfold index. destruct (i <? 0); [constructor |].
  destruct (nth_error l (Z.to_nat i)); constructor.
Qed.

Lemma logs_only_emit (P : Event -> Prop) e : P e -> logs_only P (emit e).
Proof. intros H. repeat constructor. exact H. Qed.

Lemma logs_only_record (P : Event -> Prop) c : P (Record_ c) -> logs_only P (record c).
Proof. apply logs_only_emit. Qed.

Lemma logs_only_bind {A B} P (m : Exec A) (k : A -> Exec B) :
  logs_only P m -> (forall a, logs_only P (k a)) -> logs_only P (bind m k).
Proof.
  unfold logs_only, log_of. intros Hm Hk.
  destruct m as [log [a | f |]]; cbn [bind fst] in *; auto.
  specialize (Hk a). destruct (k a) as [log' r]. cbn [fst] in *.
  apply Forall_app. auto.
Qed.

Lemma logs_only_for_each {A S} P (l : list A) (body : A -> S -> Exec S) :
  (forall a s, logs_only P (body a s)) -> forall s, logs_only P (for_each l s body).
Proof.
  intros H. induction l as [| a l IH]; intros s; cbn [for_each].
  - apply logs_only_ret.
  - apply logs_only_bind; auto.
Qed.

Lemma logs_only_for {A} P (l : list A) (body : A -> Exec unit) :
  (forall a, logs_only P (body a)) -> logs_only P (for_ l body).
Proof. intros H. apply logs_only_for_each. intros a _. apply H. Qed.

Create HintDb only.
#[local] Hint Resolve logs_only_ret logs_only_throw logs_only_call logs_only_Expects
  logs_only_at logs_only_index : only.
#[local] Hint Extern 1 (logs_only _ (record _)) =>
  (apply logs_only_record; reflexivity) : only.
#[local] Hint Extern 1 (logs_only _ (emit _)) =>
  (apply logs_only_emit; reflexivity) : only.
#[local] Hint Extern 1 (logs_only _ (bind_list _)) =>
  (apply logs_only_record; reflexivity) : only.

Ltac only_step :=
  match goal with
  | |- logs_only _ (bind _ _) => apply logs_only_bind; [| intros]
  | |- logs_only _ (for_each _ _ _) => apply logs_only_for_each; intros
  | |- logs_only _ (for_ _ _) => apply logs_only_for; intros
  | |- logs_only _ (if ?b then _ else _) => destruct b
  | |- logs_only _ (match ?x with _ => _ end) => destruct x
  | |- logs_only _ _ => solve [auto with only]
  end.

Lemma put_matrix_logs_nothing P m c : logs_only P (put_matrix m c).
Proof. destruct c as [buf pData]. unfold put_matrix. repeat only_step. Qed.

#[local] Hint Resolve put_matrix_logs_nothing : only.

Abbreviation resolver_only := (logs_only (fun e => resolver_event e = true)).
Abbreviation draw_only := (logs_only (fun e => draw_event e = true)).
Abbreviation pass_only := (logs_only (fun e => pass_event e = true)).

Lemma resolve_constant_buffer_only write cbs idx descID :
  (forall constant c, resolver_only (write constant c)) ->
  resolver_only (resolve_constant_buffer write cbs idx descID).
Proof.
  intros H. unfold resolve_constant_buffer. apply logs_only_bind.
  - induction cbs as [| cb cbs IH]; cbn [find_constant_buffer]; [auto with only |].
    destruct (negb _); [exact IH |].
    unfold build_constant_buffer. repeat only_step.
  - intros found. repeat only_step.
Qed.

Lemma write_perPass_logs_nothing P cam constant c :
  logs_only P (write_perPass cam constant c).
Proof. unfold write_perPass. repeat only_step. Qed.

Section ResolverLogs.

Variable mat_mul : Matrix4f -> Matrix4f -> Matrix4f.
Variable PerPass : Z.

Lemma write_perInstance_logs_nothing P cam pBatch objectID constant c :
  logs_only P (write_perInstance mat_mul cam pBatch objectID constant c).
Proof. unfold write_perInstance. repeat only_step. Qed.

Lemma buildDynamicDescriptors_only shaderSubpass subpassData cam pBatch objectID :
  resolver_only (buildDynamicDescriptors mat_mul PerPass shaderSubpass subpassData cam
                   pBatch objectID).
Proof.
  unfold buildDynamicDescriptors, perInstance_attribute.
  repeat first
    [ apply resolve_constant_buffer_only; intros; apply write_perInstance_logs_nothing
    | only_step ].
Qed.

Lemma perPassDescriptors_only subpass cam :
  resolver_only (perPassDescriptors PerPass subpass cam).
Proof.
  unfold perPassDescriptors, perPass_attribute.
  repeat first
    [ apply resolve_constant_buffer_only; intros; apply write_perPass_logs_nothing
    | only_step ].
Qed.

(** X6.  Whatever they are given and however they end, the two descriptor
    resolvers do nothing but bind root descriptor tables on the command
    list, take descriptors from the heap, upload bytes and create
    constant-buffer views: they record no draw, no state change, no barrier,
    and they never close or submit the list. *)
Theorem resolvers_only_bind_tables shaderSubpass subpassData subpass cam pBatch objectID :
  Forall (fun e => resolver_event e = true)
         (log_of (buildDynamicDescriptors mat_mul PerPass shaderSubpass subpassData cam
                    pBatch objectID))
  /\
  Forall (fun e => resolver_event e = true)
         (log_of (perPassDescriptors PerPass subpass cam))
  /\
  Forall (fun c => exists slot table, c = SetGraphicsRootDescriptorTable slot table)
         (commands (log_of (buildDynamicDescriptors mat_mul PerPass shaderSubpass
                              subpassData cam pBatch objectID)))
  /\
  Forall (fun c => exists slot table, c = SetGraphicsRootDescriptorTable slot table)
         (commands (log_of (perPassDescriptors PerPass subpass cam))).
Proof.
  assert (Hcmd : forall log, Forall (fun e => resolver_event e = true) log ->
            Forall (fun c => exists slot table, c = SetGraphicsRootDescriptorTable slot table)
                   (commands log)).
  { induction 1 as [| e log He _ IH]; [constructor |].
    destruct e as [c | | | | | | | | | | |]; cbn in *; try discriminate; auto.
    destruct c; try discriminate. constructor; eauto. }
  pose proof (buildDynamicDescriptors_only shaderSubpass subpassData cam pBatch objectID).
  pose proof (perPassDescriptors_only subpass cam).
  repeat split; auto.
Qed.

End ResolverLogs.

(** ** What renderFrame records, and when it submits *)

Lemma resolver_is_draw_event e : resolver_event e = true -> draw_event e = true.
Proof. intros H. unfold draw_event. rewrite H. reflexivity. Qed.

Lemma draw_is_pass_event e : draw_event e = true -> pass_event e = true.
Proof. intros H. unfold pass_event. rewrite H. reflexivity. Qed.

Lemma pass_event_not_submission e : pass_event e = true -> is_submission e = false.
Proof.
  destruct e as [c | | | | | | | | | | |]; try reflexivity; try discriminate.
  destruct c; try reflexivity; discriminate.
Qed.

Lemma bind_inv {A B} (m : Exec A) (k : A -> Exec B) log o :
  bind m k = (log, o) ->
  (exists l1 a l2, m = (l1, Done a) /\ k a = (l2, o) /\ log = l1 ++ l2)
  \/ (m = (log, Fatal match o with Fatal f => f | _ => contract_violation end)
      /\ exists f, o = Fatal f)
  \/ (m = (log, Blocked) /\ o = Blocked).
Proof.
  destruct m as [l1 [a | f |]]; cbn.
  - destruct (k a) as [l2 r] eqn:E. intros H. inversion H; subst.
    left. exists l1, a, l2. auto.
  - intros H. inversion H; subst. right. left. eauto.
  - intros H. inversion H; subst. right. right. auto.
Qed.

Section RenderLogs.

Variable mat_mul : Matrix4f -> Matrix4f -> Matrix4f.
Variable PerPass : Z.
Variable getSubpassData :
  DX12Material -> Z -> Z -> Z -> Z -> Outcome (DX12ShaderQueueData * (Z * Z * Z)).

#[local] Hint Extern 1 (logs_only _ (buildDynamicDescriptors _ _ _ _ _ _ _)) =>
  (eapply logs_only_weaken; [| apply buildDynamicDescriptors_only];
   cbv beta; auto using resolver_is_draw_event, draw_is_pass_event) : only.
#[local] Hint Extern 1 (logs_only _ (perPassDescriptors _ _ _)) =>
  (eapply logs_only_weaken; [| apply perPassDescriptors_only];
   cbv beta; auto using resolver_is_draw_event, draw_is_pass_event) : only.

Lemma set_topology_only t st : draw_only (set_topology t st).
Proof. destruct st. unfold set_topology. repeat only_step. Qed.

Lemma shader_subpasses_logs_nothing P queue : logs_only P (shader_subpasses queue).
Proof. unfold shader_subpasses. repeat only_step. Qed.

Lemma material_subpass_logs_nothing P material ids subpassID :
  logs_only P (material_subpass material ids subpassID).
Proof. destruct ids as [[a b] c]. unfold material_subpass. repeat only_step. Qed.

#[local] Hint Resolve set_topology_only shader_subpasses_logs_nothing
  material_subpass_logs_nothing : only.

Lemma draw_shader_subpasses_only material ids key cam pBatch objectID draw subpasses st :
  draw_event (Record_ draw) = true ->
  draw_only (draw_shader_subpasses mat_mul PerPass material ids key cam pBatch objectID
               draw subpasses st).
Proof.
  intros Hdraw. destruct st as [t pso]. unfold draw_shader_subpasses.
  repeat first [ apply logs_only_record; exact Hdraw | only_step ].
Qed.

Lemma draw_materials_only sol pipe pass sub cam batch objectID mesh materials :
  forall materialID st,
    draw_only (draw_materials mat_mul PerPass getSubpassData sol pipe pass sub cam batch
                 objectID mesh materials materialID st).
Proof.
  induction materials as [| material materials IH]; intros materialID st;
    cbn [draw_materials]; [auto with only |].
  destruct (materialID >=? _); [auto with only |].
  apply logs_only_bind; [| intros; apply IH].
  unfold draw_material.
  repeat first [ apply draw_shader_subpasses_only; reflexivity | only_step ].
Qed.

Lemma draw_content_only sol pipe pass sub cam content st :
  draw_only (draw_content mat_mul PerPass getSubpassData sol pipe pass sub cam content st).
Proof.
  unfold draw_content, draw_drawCall, draw_objectBatch.
  repeat first
    [ apply draw_materials_only
    | apply draw_shader_subpasses_only; reflexivity
    | match goal with
      | |- logs_only _ ((match ?p with _ => _ end) _) => destruct p; cbv beta
      end
    | only_step ].
Qed.

Lemma weaken_draw_pass {A} (m : Exec A) : draw_only m -> pass_only m.
Proof. apply logs_only_weaken. exact draw_is_pass_event. Qed.

Lemma renderPass_only pContext resource cam passID pass :
  pass_only (renderPass mat_mul PerPass getSubpassData pContext resource cam passID pass).
Proof.
  unfold renderPass, renderSubpass, preSubpass, postSubpass.
  repeat first
    [ apply weaken_draw_pass; apply draw_content_only
    | match goal with
      | |- logs_only _ ((match ?p with _ => _ end) _) => destruct p; cbv beta
      end
    | only_step ].
Qed.

(** X7.  renderFrame closes the command list and hands it to the queue as
    its last two steps, and only when everything before has gone through.
    When it returns, its log is the barrier on the back buffer, the
    descriptor heap, what the passes recorded, then Close and
    ExecuteCommandLists; the passes record neither.  When it does not
    return, the list has not been closed and nothing has been submitted. *)
Theorem renderFrame_submits_last cam pContext log outcome :
  renderFrame mat_mul PerPass getSubpassData cam pContext = (log, outcome) ->
  (outcome = Done tt ->
   exists barrier passes,
     log = Record_ (ResourceBarrier [barrier]) :: Record_ SetDescriptorHeaps
           :: passes ++ [Record_ Close; ExecuteCommandLists] /\
     Forall (fun e => pass_event e = true) passes)
  /\
  (outcome <> Done tt -> Forall (fun e => is_submission e = false) log).
Proof.
  intros H. unfold renderFrame in H.
  assert (Hpasses : forall pipeline works,
            pass_only (for_ (indexed (mPasses pipeline)) (fun '(passID, pass) =>
              renderPass mat_mul PerPass getSubpassData pContext works cam passID pass))).
  { intros pipeline works. apply logs_only_for. intros [passID pass].
    apply renderPass_only. }
  split.
  - intros ->.
    apply bind_Done_inv in H. destruct H as (l1 & works & l1' & H1 & H & ->).
    apply bind_Done_inv in H. destruct H as (l2 & bb & l2' & H2 & H & ->).
    apply bind_Done_inv in H. destruct H as (l3 & [] & l3' & H3 & H & ->).
    apply bind_Done_inv in H. destruct H as (l4 & rsl & l4' & H4 & H & ->).
    apply bind_Done_inv in H. destruct H as (l5 & pipeline & l5' & H5 & H & ->).
    apply bind_Done_inv in H. destruct H as (l6 & [] & l6' & H6 & H & ->).
    apply bind_Done_inv in H. destruct H as (l7 & [] & l7' & H7 & H & ->).
    apply bind_Done_inv in H. destruct H as (l8 & [] & l8' & H8 & H & ->).
    unfold deref in H1, H4. unfold currentPipeline in H5.
    destruct (mRenderWorks pContext); [| discriminate].
    destruct (mRenderSolution pContext); [| discriminate].
    inversion H1; subst. inversion H4; subst.
    apply index_done in H2. destruct H2 as (_ & _ & ->).
    apply index_done in H5. destruct H5 as (_ & _ & ->).
    inversion H3; subst. inversion H6; subst. inversion H8; subst. inversion H; subst.
    eexists. exists l7. split; [reflexivity |].
    specialize (Hpasses pipeline works). unfold logs_only, log_of in Hpasses.
    rewrite H7 in Hpasses. exact Hpasses.
  - intros Hnot.
    assert (Hnil : Forall (fun e => is_submission e = false) []) by constructor.
    apply bind_inv in H.
    destruct H as [(l1 & works & l1' & H1 & H & ->) | [[H1 _] | [H1 _]]];
      unfold deref in H1; destruct (mRenderWorks pContext); inversion H1; subst; auto.
    apply bind_inv in H.
    destruct H as [(l2 & bb & l2' & H2 & H & ->) | [[H2 _] | [H2 _]]];
      try (pose proof (logs_only_index (fun e => is_submission e = false)
                         (mFramebuffers works) (mBackBufferIndex pContext)) as Hi;
           unfold logs_only, log_of in Hi; rewrite H2 in Hi; cbn [fst] in Hi;
           cbn [app]; exact Hi).
    apply index_done in H2. destruct H2 as (_ & _ & ->).
    apply bind_inv in H.
    destruct H as [(l3 & [] & l3' & H3 & H & ->) | [[H3 _] | [H3 _]]];
      inversion H3; subst.
    cbn [app]. constructor; [reflexivity |].
    apply bind_inv in H.
    destruct H as [(l4 & rsl & l4' & H4 & H & ->) | [[H4 _] | [H4 _]]];
      unfold deref in H4; destruct (mRenderSolution pContext); inversion H4; subst; auto.
    apply bind_inv in H.
    destruct H as [(l5 & pipeline & l5' & H5 & H & ->) | [[H5 _] | [H5 _]]];
      try (pose proof (logs_only_index (fun e => is_submission e = false)
                         (mPipelines rsl) (mPipelineID pContext)) as Hi;
           unfold logs_only, log_of, currentPipeline in *; rewrite H5 in Hi;
           cbn [fst] in Hi; cbn [app]; exact Hi).
    apply index_done in H5. destruct H5 as (_ & _ & ->).
    apply bind_inv in H.
    destruct H as [(l6 & [] & l6' & H6 & H & ->) | [[H6 _] | [H6 _]]];
      inversion H6; subst.
    cbn [app]. constructor; [reflexivity |].
    assert (Hp : forall l o,
              for_ (indexed (mPasses pipeline)) (fun '(passID, pass) =>
                renderPass mat_mul PerPass getSubpassData pContext works cam passID pass)
              = (l, o) -> Forall (fun e => is_submission e = false) l).
    { intros l o E. specialize (Hpasses pipeline works).
      unfold logs_only, log_of in Hpasses. rewrite E in Hpasses. cbn [fst] in Hpasses.
      eapply Forall_impl; [| exact Hpasses]. apply pass_event_not_submission. }
    apply bind_inv in H.
    destruct H as [(l7 & [] & l7' & H7 & H & ->) | [[H7 _] | [H7 _]]];
      try (eapply Hp; exact H7).
    exfalso. apply Hnot.
    apply bind_inv in H.
    destruct H as [(l8 & [] & l8' & H8 & H & ->) | [[H8 _] | [H8 _]]];
      inversion H8; subst.
    inversion H. reflexivity.
Qed.

End RenderLogs.

(** ** Attachments *)

Lemma first_such {A} (p : A -> bool) (l : list A) :
  (exists x, In x l /\ p x = true) ->
  exists pre x post, l = pre ++ x :: post /\ Forall (fun y => p y = false) pre /\ p x = true.
Proof.
  induction l as [| a l IH]; intros (x & Hin & Hp); [destruct Hin |].
  destruct (p a) eqn:Ha.
  - exists [], a, l. repeat split; auto.
  - destruct IH as (pre & y & post & -> & Hpre & Hy).
    + destruct Hin as [-> | Hin]; [congruence | eauto].
    + exists (a :: pre), y, post. repeat split; auto.
Qed.

Lemma output_views_done pContext (outputs : list Attachment) :
  Forall (fun rt => clears_depth (mLoadOp rt) = false) outputs ->
  forall rtvs,
    for_each outputs rtvs (fun rt rtvs =>
      match mLoadOp rt with
      | ClearColor color =>
        record (ClearRenderTargetView (resolve_rtv pContext (mDescriptorHandle rt)) color)
      | ClearDepthStencil _ _ _ _ =>
        throw (runtime_error "RTV should not use clear depth stencil")
      | LoadOther => ret tt
      end ;;
      ret (rtvs ++ [resolve_rtv pContext (mDescriptorHandle rt)]))
    = (map Record_ (target_clears pContext outputs),
       Done (rtvs ++ map (output_view pContext) outputs)).
Proof.
  induction 1 as [| rt outputs Hrt _ IH]; intros rtvs.
  - cbn. rewrite app_nil_r. reflexivity.
  - cbn [for_each].
    unfold target_clears. cbn [flat_map map]. fold (target_clears pContext outputs).
    destruct (mLoadOp rt) eqn:Hop; cbn in Hrt; try discriminate.
    + rewrite bind_assoc, bind_record, bind_ret, IH.
      unfold output_view. cbn [fst snd app map]. rewrite <- app_assoc. reflexivity.
    + rewrite !bind_ret, IH. unfold output_view. cbn [app map]. rewrite <- app_assoc.
      reflexivity.
Qed.

Lemma output_views_raise pContext (pre : list Attachment) rt post :
  Forall (fun rt => clears_depth (mLoadOp rt) = false) pre ->
  clears_depth (mLoadOp rt) = true ->
  forall rtvs,
    for_each (pre ++ rt :: post) rtvs (fun rt rtvs =>
      match mLoadOp rt with
      | ClearColor color =>
        record (ClearRenderTargetView (resolve_rtv pContext (mDescriptorHandle rt)) color)
      | ClearDepthStencil _ _ _ _ =>
        throw (runtime_error "RTV should not use clear depth stencil")
      | LoadOther => ret tt
      end ;;
      ret (rtvs ++ [resolve_rtv pContext (mDescriptorHandle rt)]))
    = (map Record_ (target_clears pContext pre),
       Fatal (runtime_error "RTV should not use clear depth stencil")).
Proof.
  intros Hpre Hrt. induction Hpre as [| a pre Ha _ IH]; intros rtvs.
  - cbn [app for_each]. destruct (mLoadOp rt); try discriminate. reflexivity.
  - cbn [app for_each].
    unfold target_clears. cbn [flat_map map]. fold (target_clears pContext pre).
    destruct (mLoadOp a) eqn:Hop; cbn in Ha; try discriminate.
    + rewrite bind_assoc, bind_record, bind_ret, IH. reflexivity.
    + rewrite !bind_ret, IH. reflexivity.
Qed.

Lemma commands_map_Record cs : commands (map Record_ cs) = cs.
Proof. induction cs as [| c cs IH]; [reflexivity |]. cbn. rewrite IH. reflexivity. Qed.

Lemma target_clears_not_OMSet pContext outputs :
  filter is_OMSetRenderTargets (target_clears pContext outputs) = [].
Proof.
  induction outputs as [| rt outputs IH]; [reflexivity |].
  unfold target_clears. cbn [flat_map]. fold (target_clears pContext outputs).
  rewrite filter_app, IH. destruct (mLoadOp rt); reflexivity.
Qed.

(** X8.  Before a subpass, when no output attachment asks for a depth-stencil
    clear and the depth-stencil attachment does not ask for a colour clear,
    the commands are: a ClearRenderTargetView for each output attachment
    that clears, in order, on its resolved view; the ClearDepthStencilView
    of the depth-stencil attachment if it clears, with the depth flag 1 and
    the stencil flag 2; and then one OMSetRenderTargets with the resolved
    views in order and the depth-stencil view.  OMSetRenderTargets is left
    out exactly when there is no attachment at all. *)
Theorem preSubpass_commands pContext subpass :
  Forall (fun rt => clears_depth (mLoadOp rt) = false) (mOutputAttachments subpass) ->
  (forall ds, mDepthStencilAttachment subpass = Some ds ->
              clears_color (mLoadOp ds) = false) ->
  outcome_of (preSubpass pContext subpass) = Done tt /\
  commands (log_of (preSubpass pContext subpass))
  = target_clears pContext (mOutputAttachments subpass)
    ++ match mDepthStencilAttachment subpass with
       | Some ds =>
         depth_clear ds
         ++ [OMSetRenderTargets (map (output_view pContext) (mOutputAttachments subpass))
               (Some (DSV (mDescriptorHandle ds)))]
       | None =>
         match mOutputAttachments subpass with
         | [] => []
         | _ =>
           [OMSetRenderTargets (map (output_view pContext) (mOutputAttachments subpass))
              None]
         end
       end.
Proof.
  intros Hout Hds. unfold preSubpass.
  rewrite (output_views_done pContext _ Hout []). rewrite bind_done.
  cbn [app fst snd log_of outcome_of].
  destruct (mDepthStencilAttachment subpass) as [ds |].
  - specialize (Hds ds eq_refl). unfold depth_clear.
    destruct (mLoadOp ds) as [c | d s depth stencil |]; cbn in Hds; try discriminate.
    + rewrite !bind_record. cbn [fst snd]. split; [reflexivity |].
      rewrite commands_app, commands_map_Record.
      destruct d, s; reflexivity.
    + rewrite bind_ret. split; [reflexivity |].
      rewrite commands_app, commands_map_Record. reflexivity.
  - destruct (mOutputAttachments subpass) as [| rt rest].
    + split; reflexivity.
    + cbn [map]. split; [reflexivity |].
      rewrite commands_app, commands_map_Record. reflexivity.
Qed.

(** X9.  A load operation that does not fit its attachment is fatal, and no
    render target is bound: an output attachment that asks for a
    depth-stencil clear raises "RTV should not use clear depth stencil"
    after the clears of the attachments before it; with sound output
    attachments, a depth-stencil attachment that asks for a colour clear
    raises "DSV should not use clear color". *)
Theorem preSubpass_rejects_mismatch pContext subpass :
  ((exists rt, In rt (mOutputAttachments subpass) /\ clears_depth (mLoadOp rt) = true) ->
   outcome_of (preSubpass pContext subpass)
     = Fatal (runtime_error "RTV should not use clear depth stencil") /\
   filter is_OMSetRenderTargets (commands (log_of (preSubpass pContext subpass))) = [])
  /\
  (Forall (fun rt => clears_depth (mLoadOp rt) = false) (mOutputAttachments subpass) ->
   forall ds, mDepthStencilAttachment subpass = Some ds ->
     clears_color (mLoadOp ds) = true ->
     outcome_of (preSubpass pContext subpass)
       = Fatal (runtime_error "DSV should not use clear color") /\
     filter is_OMSetRenderTargets (commands (log_of (preSubpass pContext subpass))) = []).
Proof.
  split.
  - intros Hbad.
    destruct (first_such (fun rt => clears_depth (mLoadOp rt)) _ Hbad)
      as (pre & rt & post & Heq & Hpre & Hrt).
    unfold preSubpass. rewrite Heq.
    rewrite (output_views_raise pContext pre rt post Hpre Hrt []).
    cbn [bind log_of outcome_of fst snd]. split; [reflexivity |].
    rewrite commands_map_Record. apply target_clears_not_OMSet.
  - intros Hout ds Hds Hbad. unfold preSubpass.
    rewrite (output_views_done pContext _ Hout []). rewrite bind_done, Hds.
    destruct (mLoadOp ds); cbn in Hbad; try discriminate.
    cbn [bind throw log_of outcome_of fst snd]. split; [reflexivity |].
    rewrite app_nil_r, commands_map_Record. apply target_clears_not_OMSet.
Qed.

Lemma transitions_done pContext resource (transitions : list ViewTransition) :
  Forall (fun t => transition_resource pContext resource t <> None) transitions ->
  forall barriers,
    for_each transitions barriers (fun t barriers =>
      pRes <- (if mFramebufferHandle t =? 0
               then index (mFramebuffers resource) (mBackBufferIndex pContext)
               else index (mFramebuffers resource) (mFramebufferHandle t)) ;;
      ret (barriers ++ [Transition pRes (mSource t) (mTarget t)]))
    = ret (barriers ++ map (transition_barrier pContext resource) transitions).
Proof.
  induction 1 as [| t transitions Ht _ IH]; intros barriers.
  - cbn. rewrite app_nil_r. reflexivity.
  - cbn [for_each map].
    assert (Hidx : (if mFramebufferHandle t =? 0
                    then index (mFramebuffers resource) (mBackBufferIndex pContext)
                    else index (mFramebuffers resource) (mFramebufferHandle t))
                   = ret (pResource (transition_barrier pContext resource t))).
    { unfold transition_barrier, transition_resource in *. cbn [pResource].
      destruct (mFramebufferHandle t =? 0); unfold index;
        match goal with |- context [?i <? 0] => destruct (i <? 0) end;
        try congruence;
        match goal with |- context [nth_error ?l ?n] => destruct (nth_error l n) end;
        congruence. }
    rewrite Hidx, bind_ret, bind_ret, IH, <- app_assoc. reflexivity.
Qed.

(** X10.  After a subpass the declared transitions go out as one
    ResourceBarrier call that holds one barrier per transition, in declared
    order, from the declared source state to the declared target state; a
    transition with framebuffer handle 0 is on the framebuffer at the
    frame's back-buffer index.  Without declared transitions nothing is
    recorded. *)
Theorem postSubpass_commands pContext resource subpass :
  Forall (fun t => transition_resource pContext resource t <> None)
         (mPostViewTransitions subpass) ->
  postSubpass pContext resource subpass
  = match mPostViewTransitions subpass with
    | [] => ret tt
    | transitions =>
      record (ResourceBarrier (map (transition_barrier pContext resource) transitions))
    end.
Proof.
  intros H. unfold postSubpass.
  destruct (mPostViewTransitions subpass) as [| t rest]; [reflexivity |].
  rewrite (transitions_done pContext resource _ H []), bind_ret. reflexivity.
Qed.

(** ** Collections *)

Lemma for_skip {A} (p : A -> bool) (body : A -> Exec unit) (l : list A) :
  (forall a, p a = false -> body a = ret tt) ->
  for_ l body = for_ (filter p l) body.
Proof.
  intros H. induction l as [| a l IH]; [reflexivity |].
  rewrite for__cons. cbn [filter]. destruct (p a) eqn:Hp.
  - rewrite for__cons, IH. reflexivity.
  - rewrite (H a Hp), bind_ret. exact IH.
Qed.

Lemma for_ext {A} (body body' : A -> Exec unit) (l : list A) :
  (forall a, In a l -> body a = body' a) -> for_ l body = for_ l body'.
Proof.
  induction l as [| a l IH]; intros H; [reflexivity |].
  rewrite !for__cons, (H a (or_introl eq_refl)), IH; [reflexivity |].
  intros b Hb. apply H. right. exact Hb.
Qed.

Lemma for_emits {A} (f : A -> Event) (l : list A) :
  for_ l (fun a => emit (f a)) = (map f l, Done tt).
Proof.
  induction l as [| a l IH]; [reflexivity |].
  rewrite for__cons, bind_emit, IH. reflexivity.
Qed.

Lemma for_logs {A} (body : A -> Exec unit) (logs : A -> list Event) (l : list A) :
  (forall a, In a l -> body a = (logs a, Done tt)) ->
  for_ l body = (flat_map logs l, Done tt).
Proof.
  induction l as [| a l IH]; intros H; [reflexivity |].
  rewrite for__cons, (H a (or_introl eq_refl)), bind_done, IH; [reflexivity |].
  intros b Hb. apply H. right. exact Hb.
Qed.

Section CollectionProperties.

Variable mat_mul : Matrix4f -> Matrix4f -> Matrix4f.
Variable PerPass : Z.

(** X11.  For collections that are persistent tables the per-draw resolver
    only binds what was built before: for every collection in order, the
    stored GPU offset of each of its resource-view lists and then of each
    of its sampler lists, at the list's root-parameter slot.  Nothing is
    taken from the heap or uploaded, and the camera, the batch and the
    shader's constant buffers play no part. *)
Theorem persistent_collections_bind_stored_tables shaderSubpass subpassData cam
    pBatch objectID :
  Forall (fun collection => prebuilt collection = true) (mCollections subpassData) ->
  buildDynamicDescriptors mat_mul PerPass shaderSubpass subpassData cam pBatch objectID
  = (flat_map (fun collection =>
                 map table_binding
                     (mResourceViewLists collection ++ mSamplerLists collection))
              (mCollections subpassData),
     Done tt).
Proof.
  intros H. unfold buildDynamicDescriptors.
  apply for_logs. intros collection Hin.
  rewrite Forall_forall in H. specialize (H collection Hin).
  unfold prebuilt, is_Persistent in H. apply andb_prop in H. destruct H as [Ht Hp].
  rewrite Ht. cbn [Expects]. rewrite bind_ret.
  destruct (mPersistency (mIndex collection)); [| discriminate].
  unfold bind_list, record.
  rewrite (for_emits table_binding), bind_done, (for_emits table_binding).
  cbn [fst snd]. rewrite map_app. reflexivity.
Qed.

(** X12.  The per-pass resolver leaves alone every collection whose update
    frequency is not PerPass or whose type is SSV, whatever it holds: the
    resolver does on a subpass exactly what it does on the subpass with only
    its PerPass, non-SSV collections. *)
Theorem perPassDescriptors_skips_other_collections subpass cam :
  perPassDescriptors PerPass subpass cam
  = perPassDescriptors PerPass
      (with_descriptors subpass
         (filter (per_pass_collection PerPass) (mDescriptors subpass)))
      cam.
Proof.
  unfold perPassDescriptors. cbn [mDescriptors with_descriptors].
  rewrite (for_skip (per_pass_collection PerPass)).
  - apply for_ext. intros collection _. reflexivity.
  - intros collection Hp. unfold per_pass_collection in Hp.
    destruct (mUpdate (mIndex collection) =? PerPass); [| reflexivity].
    cbn [negb andb] in *. apply negb_false_iff in Hp. rewrite Hp. reflexivity.
Qed.

End CollectionProperties.

(** ** Payloads *)

Lemma put_matrix_done m buf pData buf' pData' log :
  put_matrix m (buf, pData) = (log, Done (buf', pData')) ->
  log = [] /\ List.length buf' = List.length buf /\
  (pData' <= List.length buf')%nat.
Proof.
  unfold put_matrix, Expects.
  destruct (Nat.leb (pData + sizeof_Matrix4f) (List.length buf)) eqn:Hle; [| discriminate].
  rewrite bind_ret. unfold ret.
  generalize (matrix_data_length m). generalize (matrix_data m). intros data Hdata H.
  injection H as Hlog Hbuf Hp. subst log buf' pData'.
  apply Nat.leb_le in Hle.
  rewrite !length_app, length_firstn, length_skipn, Hdata.
  repeat split; lia.
Qed.

Lemma put_matrix_not_done m c log o :
  put_matrix m c = (log, o) -> log = [].
Proof.
  destruct c as [buf pData]. unfold put_matrix, Expects.
  destruct (Nat.leb _ _); [rewrite bind_ret |]; intros H; inversion H; reflexivity.
Qed.

Lemma write_perPass_keeps_size cam : keeps_size (write_perPass cam).
Proof.
  intros constant [buf pData] log o H. unfold write_perPass in H.
  destruct (cSource constant); try (inversion H; subst; split; [reflexivity | discriminate]).
  destruct (cDataType constant);
    try (inversion H; subst; split; [reflexivity | discriminate]).
  - split; [eapply put_matrix_not_done; eauto |].
    intros [buf' p'] ->. apply put_matrix_done in H. cbn. tauto.
  - split; [eapply put_matrix_not_done; eauto |].
    intros [buf' p'] ->. apply put_matrix_done in H. cbn. tauto.
Qed.

Lemma write_perInstance_keeps_size mat_mul cam pBatch objectID :
  keeps_size (write_perInstance mat_mul cam pBatch objectID).
Proof.
  intros constant [buf pData] log o H. unfold write_perInstance in H.
  destruct (cSource constant); try (inversion H; subst; split; [reflexivity | discriminate]).
  destruct (cDataType constant);
    try (inversion H; subst; split; [reflexivity | discriminate]);
    (destruct pBatch as [batch |];
     [| inversion H; subst; split; [reflexivity | discriminate]]).
  - unfold index in H. destruct (objectID <? 0).
    { inversion H; subst; split; [reflexivity | discriminate]. }
    destruct (nth_error (mWorldTransforms batch) (Z.to_nat objectID)).
    2:{ inversion H; subst; split; [reflexivity | discriminate]. }
    rewrite bind_ret in H.
    split; [eapply put_matrix_not_done; eauto |].
    intros [buf' p'] ->. apply put_matrix_done in H. cbn. tauto.
  - unfold index in H. destruct (objectID <? 0).
    { inversion H; subst; split; [reflexivity | discriminate]. }
    destruct (nth_error (mWorldTransformInvs batch) (Z.to_nat objectID)).
    2:{ inversion H; subst; split; [reflexivity | discriminate]. }
    rewrite bind_ret in H.
    split; [eapply put_matrix_not_done; eauto |].
    intros [buf' p'] ->. apply put_matrix_done in H. cbn. tauto.
Qed.

Lemma fill_keeps_size write (constants : list Constant) :
  keeps_size write ->
  forall c log o,
    for_each constants c write = (log, o) ->
    log = [] /\ forall c', o = Done c' -> List.length (fst c') = List.length (fst c).
Proof.
  intros Hw. induction constants as [| constant constants IH]; intros c log o H.
  - inversion H; subst. split; [reflexivity |]. intros c' E. inversion E. reflexivity.
  - cbn [for_each] in H.
    destruct (write constant c) as [l1 o1] eqn:E1.
    destruct (Hw _ _ _ _ E1) as [-> Hlen1].
    destruct o1 as [c1 | f |].
    + rewrite bind_done in H. cbn [app] in H.
      destruct (for_each constants c1 write) as [l2 o2] eqn:E2.
      destruct (IH _ _ _ E2) as [-> Hlen2].
      inversion H; subst. split; [reflexivity |].
      intros c' E. rewrite (Hlen2 c' E). apply Hlen1. reflexivity.
    + inversion H; subst. split; [reflexivity | discriminate].
    + inversion H; subst. split; [reflexivity | discriminate].
Qed.

Lemma build_constant_buffer_sized write descID cb log outcome :
  keeps_size write ->
  build_constant_buffer write descID cb = (log, outcome) ->
  (outcome = Done tt ->
   exists payload,
     log = [Upload payload (u32 (align_up (mSize cb) 256)) 1 256;
            CreateConstantBufferView (u32 (align_up (mSize cb) 256)) descID] /\
     Z.of_nat (List.length payload) = align_up (mSize cb) 256)
  /\
  (outcome <> Done tt -> log = []).
Proof.
  intros Hw H. unfold build_constant_buffer, Expects in H. cbv zeta in H.
  destruct (negb (mSize cb =? 0)).
  2:{ inversion H; subst. split; [discriminate | reflexivity]. }
  rewrite bind_ret in H.
  destruct (for_each (mConstants cb) (resize (align_up (mSize cb) 256), O) write)
    as [l1 o1] eqn:E1.
  destruct (fill_keeps_size write _ Hw _ _ _ E1) as [-> Hlen].
  destruct o1 as [[payload pData] | f |].
  - specialize (Hlen _ eq_refl). cbn [fst] in Hlen.
    unfold resize in Hlen. rewrite repeat_length in Hlen.
    rewrite bind_done in H. cbn [fst snd app] in H.
    unfold emit in H. rewrite bind_done in H. cbn [fst snd app] in H.
    inversion H; subst. clear H. split; [| intros E; congruence].
    intros _.
    assert (Ha : 0 <= align_up (mSize cb) 256).
    { rewrite align_up_256. unfold u64.
      pose proof (Z.mod_pos_bound (mSize cb + 255) (2 ^ 64) ltac:(lia)).
      pose proof (Z.div_pos ((mSize cb + 255) mod 2 ^ 64) 256 ltac:(lia) ltac:(lia)).
      lia. }
    exists payload. rewrite Hlen, Z2Nat.id by exact Ha. auto.
  - inversion H; subst. split; [discriminate | reflexivity].
  - inversion H; subst. split; [discriminate | reflexivity].
Qed.

(** X13.  Whatever fields a constant buffer declares, in either resolver:
    when it is built, the bytes uploaded are exactly the declared size
    rounded up to a multiple of 256, the upload and the view carry that
    size, and these are the only two steps logged; when building fails, in
    a field or at the bound check before a write, nothing has been uploaded
    and no view has been created. *)
Theorem constant_buffer_upload_is_sized mat_mul cam pBatch objectID descID cb :
  let size := align_up (mSize cb) 256 in
  let sized (m : Exec unit) :=
    (outcome_of m = Done tt ->
     exists payload,
       log_of m = [Upload payload (u32 size) 1 256;
                   CreateConstantBufferView (u32 size) descID] /\
       Z.of_nat (List.length payload) = size)
    /\ (outcome_of m <> Done tt -> log_of m = []) in
  sized (build_constant_buffer (write_perPass cam) descID cb) /\
  sized (build_constant_buffer (write_perInstance mat_mul cam pBatch objectID) descID cb).
Proof.
  intros size sized. subst sized. cbv beta. split.
  - destruct (build_constant_buffer (write_perPass cam) descID cb) as [log o] eqn:E.
    exact (build_constant_buffer_sized _ _ _ _ _ (write_perPass_keeps_size cam) E).
  - destruct (build_constant_buffer (write_perInstance mat_mul cam pBatch objectID)
                descID cb) as [log o] eqn:E.
    exact (build_constant_buffer_sized _ _ _ _ _
             (write_perInstance_keeps_size mat_mul cam pBatch objectID) E).
Qed.

Lemma fill_perInstance mat_mul cam batch objectID world worldInvT
    (constants : list Constant) :
  0 <= objectID ->
  nth_error (mWorldTransforms batch) (Z.to_nat objectID) = Some world ->
  nth_error (mWorldTransformInvs batch) (Z.to_nat objectID) = Some worldInvT ->
  Forall per_object_only constants ->
  forall pre rest,
    (sizeof_Matrix4f * List.length constants <= List.length rest)%nat ->
    for_each constants (pre ++ rest, List.length pre)
      (write_perInstance mat_mul cam (Some batch) objectID)
    = ret (pre ++ concat (map (object_field_bytes (mat_mul (mView cam) world) worldInvT)
                              constants)
               ++ skipn (sizeof_Matrix4f * List.length constants) rest,
           (List.length pre + sizeof_Matrix4f * List.length constants)%nat).
Proof.
  intros Hpos Hw Hi.
  induction 1 as [| constant constants [Hsrc Hdata] _ IH]; intros pre rest Hroom.
  - cbn [for_each map concat List.length]. rewrite Nat.mul_0_r, Nat.add_0_r. reflexivity.
  - change (List.length (constant :: constants))
      with (S (List.length constants)) in *.
    cbn [for_each map concat].
    assert (Hwrite : write_perInstance mat_mul cam (Some batch) objectID constant
                       (pre ++ rest, List.length pre)
                     = put_matrix (match cDataType constant with
                                   | WorldView_ => mat_mul (mView cam) world
                                   | _ => worldInvT
                                   end) (pre ++ rest, List.length pre)).
    { unfold write_perInstance, index. rewrite Hsrc.
      apply Z.ltb_ge in Hpos. rewrite Hpos.
      destruct Hdata as [-> | ->]; [rewrite Hw | rewrite Hi]; rewrite bind_ret;
        reflexivity. }
    rewrite Hwrite, put_matrix_at by (unfold sizeof_Matrix4f in *; lia).
    rewrite bind_ret.
    fold (object_field_bytes (mat_mul (mView cam) world) worldInvT constant).
    set (field := object_field_bytes (mat_mul (mView cam) world) worldInvT constant).
    assert (Hfield : List.length field = sizeof_Matrix4f).
    { subst field. unfold object_field_bytes. apply matrix_data_length. }
    rewrite app_assoc.
    replace (List.length pre + sizeof_Matrix4f)%nat with (List.length (pre ++ field))
      by (rewrite length_app, Hfield; reflexivity).
    rewrite IH by (rewrite length_skipn; unfold sizeof_Matrix4f in *; lia).
    rewrite <- !app_assoc, skipn_skipn, length_app, Hfield.
    replace (sizeof_Matrix4f * List.length constants + sizeof_Matrix4f)%nat
      with (sizeof_Matrix4f * S (List.length constants))%nat by lia.
    replace (List.length pre + sizeof_Matrix4f
             + sizeof_Matrix4f * List.length constants)%nat
      with (List.length pre + sizeof_Matrix4f * S (List.length constants))%nat by lia.
    reflexivity.
Qed.

(** X14.  A per-draw constant buffer whose fields are WorldView and
    WorldInverseTranspose, built for object [objectID] of a batch, is
    uploaded as, field by field in declared order and 64 bytes each from
    offset 0, the product of the camera's view matrix with the object's
    world transform, or the object's inverse-transpose transform, followed
    by zero bytes up to the declared size rounded up to a multiple of
    256. *)
Theorem perInstance_payload mat_mul cam batch objectID world worldInvT descID cb :
  0 <= objectID ->
  nth_error (mWorldTransforms batch) (Z.to_nat objectID) = Some world ->
  nth_error (mWorldTransformInvs batch) (Z.to_nat objectID) = Some worldInvT ->
  0 < mSize cb <= 2 ^ 32 - 256 ->
  Forall per_object_only (mConstants cb) ->
  64 * Z.of_nat (List.length (mConstants cb)) <= mSize cb ->
  let size := 256 * ((mSize cb + 255) / 256) in
  let fields := concat (map (object_field_bytes (mat_mul (mView cam) world) worldInvT)
                            (mConstants cb)) in
  build_constant_buffer (write_perInstance mat_mul cam (Some batch) objectID) descID cb
  = ([Upload (fields ++ repeat Byte.x00 (Z.to_nat size - List.length fields)) size 1 256;
      CreateConstantBufferView size descID], Done tt).
Proof.
  intros Hpos Hw Hi Hsize Hfields Hroom size fields.
  destruct (align_up_256_small (mSize cb)) as [Halign Hbounds]; try lia.
  fold size in Halign. rewrite Halign in Hbounds.
  assert (Hlen : List.length fields
                 = (sizeof_Matrix4f * List.length (mConstants cb))%nat).
  { subst fields. clear. induction (mConstants cb) as [| c l IH]; [reflexivity |].
    cbn [map concat List.length]. rewrite length_app, IH.
    unfold object_field_bytes. rewrite matrix_data_length. unfold sizeof_Matrix4f. lia. }
  unfold build_constant_buffer, Expects. cbv zeta.
  replace (negb (mSize cb =? 0)) with true
    by (symmetry; apply negb_true_iff, Z.eqb_neq; lia).
  rewrite bind_ret, Halign.
  pose proof (fill_perInstance mat_mul cam batch objectID world worldInvT (mConstants cb)
                Hpos Hw Hi Hfields [] (resize size)) as Hfill.
  cbn [app List.length] in Hfill.
  rewrite Hfill.
  2:{ unfold resize. rewrite repeat_length. unfold sizeof_Matrix4f. lia. }
  rewrite bind_ret. cbn [fst].
  unfold resize. rewrite skipn_repeat_zero, <- Hlen.
  fold fields.
  assert (Hview : u32 (Z.of_nat (List.length
                     (fields ++ repeat Byte.x00 (Z.to_nat size - List.length fields))))
                  = size).
  { rewrite length_app, repeat_length, Hlen.
    unfold u32, sizeof_Matrix4f. rewrite Z.mod_small; lia. }
  rewrite Hview. unfold emit. rewrite bind_done. reflexivity.
Qed.

(** ** What the resolvers turn down *)

Lemma never_blocks_ret {A} (a : A) : never_blocks (ret a).
Proof. discriminate. Qed.

Lemma never_blocks_throw {A} f : never_blocks (@throw A f).
Proof. discriminate. Qed.

Lemma never_blocks_Expects b : never_blocks (Expects b).
Proof. destruct b; discriminate. Qed.

Lemma never_blocks_emit e : never_blocks (emit e).
Proof. discriminate. Qed.

Lemma never_blocks_at {A} (l : list A) i : never_blocks (at_ l i).
Proof.
  unfold at_. destruct (i <? 0); [discriminate |].
  destruct (nth_error l (Z.to_nat i)); discriminate.
Qed.

Lemma never_blocks_bind {A B} (m : Exec A) (k : A -> Exec B) :
  never_blocks m -> (forall a, never_blocks (k a)) -> never_blocks (bind m k).
Proof.
  unfold never_blocks, outcome_of. intros Hm Hk.
  destruct m as [log [a | f |]]; cbn [bind snd] in *; try discriminate; auto.
  specialize (Hk a). destruct (k a) as [log' r]. exact Hk.
Qed.

Lemma never_blocks_for_each {A S} (l : list A) (body : A -> S -> Exec S) :
  (forall a s, never_blocks (body a s)) -> forall s, never_blocks (for_each l s body).
Proof.
  intros H. induction l as [| a l IH]; intros s; cbn [for_each].
  - apply never_blocks_ret.
  - apply never_blocks_bind; auto.
Qed.

Lemma never_blocks_for {A} (l : list A) (body : A -> Exec unit) :
  (forall a, never_blocks (body a)) -> never_blocks (for_ l body).
Proof. intros H. apply never_blocks_for_each. intros a _. apply H. Qed.

Create HintDb blocks.
#[local] Hint Resolve never_blocks_ret never_blocks_throw never_blocks_Expects
  never_blocks_emit never_blocks_at index_never_blocks put_matrix_never_blocks
  write_perPass_never_blocks write_perInstance_never_blocks : blocks.
#[local] Hint Extern 1 (never_blocks (record _)) => apply never_blocks_emit : blocks.
#[local] Hint Extern 1 (never_blocks (bind_list _)) => apply never_blocks_emit : blocks.

Ltac blocks_step :=
  match goal with
  | |- never_blocks (bind _ _) => apply never_blocks_bind; [| intros]
  | |- never_blocks (for_each _ _ _) => apply never_blocks_for_each; intros
  | |- never_blocks (for_ _ _) => apply never_blocks_for; intros
  | |- never_blocks (if ?b then _ else _) => destruct b
  | |- never_blocks (match ?x with _ => _ end) => destruct x
  | |- never_blocks _ => solve [auto with blocks]
  end.

Lemma resolve_constant_buffer_never_blocks write cbs idx descID :
  (forall constant c, never_blocks (write constant c)) ->
  never_blocks (resolve_constant_buffer write cbs idx descID).
Proof.
  intros H. unfold resolve_constant_buffer. apply never_blocks_bind.
  - induction cbs as [| cb cbs IH]; cbn [find_constant_buffer]; [auto with blocks |].
    destruct (negb _); [exact IH |].
    unfold build_constant_buffer. repeat blocks_step.
  - intros found. repeat blocks_step.
Qed.

Lemma raises_throw {A} f : raises (@throw A f).
Proof. exists [], f. reflexivity. Qed.

Lemma raises_bind_l {A B} (m : Exec A) (k : A -> Exec B) :
  raises m -> raises (bind m k).
Proof. intros (log & f & ->). exists log, f. reflexivity. Qed.

Lemma raises_bind_r {A B} (m : Exec A) (k : A -> Exec B) :
  never_blocks m -> (forall a, raises (k a)) -> raises (bind m k).
Proof.
  intros Hm Hk. destruct m as [log [a | f |]].
  - destruct (Hk a) as (log' & f & E). rewrite bind_done, E. cbn. eexists. eexists.
    reflexivity.
  - exists log, f. reflexivity.
  - exfalso. apply Hm. reflexivity.
Qed.

Lemma raises_Expects_false {B} (k : unit -> Exec B) : raises (bind (Expects false) k).
Proof. apply raises_bind_l, raises_throw. Qed.

Lemma Expects_true {B} (k : unit -> Exec B) : bind (Expects true) k = k tt.
Proof. apply bind_ret. Qed.

Ltac expects_fails := cbn [negb]; apply raises_Expects_false.
Ltac expects_holds := cbn [negb]; rewrite Expects_true.

Lemma for_each_fails {A S} (body : A -> S -> Exec S) (x : A) (l : list A) :
  (forall a s, never_blocks (body a s)) ->
  (forall s, raises (body x s)) ->
  In x l ->
  forall s, raises (for_each l s body).
Proof.
  intros Hnb Hx. induction l as [| a l IH]; intros Hin s; [destruct Hin |].
  cbn [for_each]. destruct Hin as [-> | Hin].
  - apply raises_bind_l, Hx.
  - apply raises_bind_r; [apply Hnb | intros s'; apply IH; exact Hin].
Qed.

Lemma for_fails {A} (body : A -> Exec unit) (x : A) (l : list A) :
  (forall a, never_blocks (body a)) ->
  raises (body x) ->
  In x l ->
  raises (for_ l body).
Proof.
  intros Hnb Hx Hin. unfold for_.
  apply for_each_fails with (x := x); auto.
Qed.

Lemma length_eqb_0 {A} (l : list A) : Nat.eqb (List.length l) 0 = false ->
  exists a rest, l = a :: rest.
Proof. destruct l; [discriminate | eauto]. Qed.

Section Rejections.

Variable mat_mul : Matrix4f -> Matrix4f -> Matrix4f.
Variable PerPass : Z.

Lemma perInstance_attribute_never_blocks shaderSubpass collection cam pBatch objectID
    attr descID :
  never_blocks (perInstance_attribute mat_mul shaderSubpass collection cam pBatch objectID
                  attr descID).
Proof.
  unfold perInstance_attribute.
  repeat first
    [ apply resolve_constant_buffer_never_blocks; intros;
      apply write_perInstance_never_blocks
    | blocks_step ].
Qed.

Lemma perPass_attribute_never_blocks subpass collection cam attr descID :
  never_blocks (perPass_attribute subpass collection cam attr descID).
Proof.
  unfold perPass_attribute.
  repeat first
    [ apply resolve_constant_buffer_never_blocks; intros;
      apply write_perPass_never_blocks
    | blocks_step ].
Qed.

#[local] Hint Resolve perInstance_attribute_never_blocks
  perPass_attribute_never_blocks : blocks.

(* The ranges of a list with a subrange that has no case. *)
Lemma perDraw_ranges_raise shaderSubpass collection cam pBatch objectID ranges :
  existsb (fun range => existsb perDraw_unsupported_subrange (mSubranges range)) ranges
    = true ->
  forall descID,
    raises (for_each ranges descID (fun range descID =>
      for_each (mSubranges range) descID (fun subrange descID =>
        match srSource subrange with
        | EngineSource_ =>
          for_each (srDescriptors subrange) descID
            (perInstance_attribute mat_mul shaderSubpass collection cam pBatch objectID)
        | RenderTargetSource_ =>
          throw (runtime_error
            "render target source's Update Frequency should not be less than PerPass")
        | MaterialSource_ => throw (runtime_error "not supported yet")
        end))).
Proof.
  intros H descID. apply existsb_exists in H. destruct H as (range & Hrange & H).
  apply existsb_exists in H. destruct H as (subrange & Hsub & H).
  apply for_each_fails with (x := range); [| | exact Hrange].
  { intros. repeat blocks_step. }
  intros d. apply for_each_fails with (x := subrange); [| | exact Hsub].
  { intros. repeat blocks_step. }
  intros d'. unfold perDraw_unsupported_subrange in H.
  destruct (srSource subrange); cbn [is_Engine negb orb] in H;
    try apply raises_throw.
  apply existsb_exists in H. destruct H as (attr & Hattr & H).
  apply for_each_fails with (x := attr); [| | exact Hattr].
  { intros. auto with blocks. }
  intros d''. unfold perInstance_attribute, perDraw_unsupported_attribute in *.
  destruct (dDataType attr); try discriminate; apply raises_bind_l, raises_throw.
Qed.

(** X15.  The per-draw resolver turns down, with a failure, every subpass
    that holds a collection of one of these kinds: one that is not a
    descriptor table; a dynamic one whose update frequency is not below
    PerPass; a dynamic one with a sampler list; a dynamic one with a
    resource-view list that has no range, has capacity 0, or has a subrange
    from a render-target or material source or with a MainTex or an unset
    attribute. *)
Theorem buildDynamicDescriptors_rejects shaderSubpass subpassData cam pBatch objectID
    collection :
  In collection (mCollections subpassData) ->
  perDraw_rejects PerPass collection = true ->
  raises (buildDynamicDescriptors mat_mul PerPass shaderSubpass subpassData cam
            pBatch objectID).
Proof.
  intros Hin Hrej. unfold buildDynamicDescriptors.
  apply for_fails with (x := collection); [| | exact Hin].
  { intros. repeat blocks_step. }
  unfold perDraw_rejects, is_Persistent in Hrej.
  destruct (is_Table (mType (mIndex collection))); [| expects_fails].
  cbn [negb orb] in Hrej. expects_holds.
  destruct (mPersistency (mIndex collection)); [discriminate |].
  cbn [Persistency_eqb negb andb] in Hrej.
  destruct (mUpdate (mIndex collection) <? PerPass); [| expects_fails].
  cbn [negb orb] in Hrej. expects_holds.
  apply orb_prop in Hrej. destruct Hrej as [Hlist | Hsampler].
  - apply raises_bind_l.
    apply existsb_exists in Hlist. destruct Hlist as (list & Hl & Hlist).
    apply for_fails with (x := list); [| | exact Hl].
    { intros. repeat blocks_step. }
    unfold perDraw_unsupported_list in Hlist.
    destruct (Nat.eqb (List.length (mRanges list)) 0); [expects_fails |].
    cbn [negb orb] in Hlist. expects_holds.
    destruct (mCapacity list =? 0); [expects_fails |].
    cbn [negb orb] in Hlist. expects_holds.
    apply raises_bind_r; [auto with blocks | intros _].
    apply raises_bind_l. apply perDraw_ranges_raise. exact Hlist.
  - apply raises_bind_r.
    { repeat blocks_step. }
    intros _. apply negb_true_iff, length_eqb_0 in Hsampler.
    destruct Hsampler as (list & rest & ->).
    rewrite for__cons. apply raises_bind_l.
    expects_holds. apply raises_throw.
Qed.

Lemma perPass_ranges_raise subpass collection cam ranges :
  existsb (fun range => existsb perPass_unsupported_subrange (mSubranges range)) ranges
    = true ->
  forall descID,
    raises (for_each ranges descID (fun range descID =>
      for_each (mSubranges range) descID (fun subrange descID =>
        match srSource subrange with
        | EngineSource_ =>
          for_each (srDescriptors subrange) descID
            (perPass_attribute subpass collection cam)
        | RenderTargetSource_ =>
          throw (runtime_error "dynamic descriptor cannot be render target source")
        | MaterialSource_ => throw (runtime_error "not supported yet")
        end))).
Proof.
  intros H descID. apply existsb_exists in H. destruct H as (range & Hrange & H).
  apply existsb_exists in H. destruct H as (subrange & Hsub & H).
  apply for_each_fails with (x := range); [| | exact Hrange].
  { intros. repeat blocks_step. }
  intros d. apply for_each_fails with (x := subrange); [| | exact Hsub].
  { intros. repeat blocks_step. }
  intros d'. unfold perPass_unsupported_subrange in H.
  destruct (srSource subrange); cbn [is_Engine negb orb] in H;
    try apply raises_throw.
  apply existsb_exists in H. destruct H as (attr & Hattr & H).
  apply for_each_fails with (x := attr); [| | exact Hattr].
  { intros. auto with blocks. }
  intros d''. unfold perPass_attribute.
  destruct (dDataType attr); try discriminate; apply raises_bind_l, raises_throw.
Qed.

(** X16.  The per-pass resolver turns down, with a failure, every subpass
    that holds a PerPass, non-SSV collection of one of these kinds: one
    with a sampler list; one with a resource-view list while it is not a
    descriptor table, or with a resource-view list of capacity 0; a dynamic
    one with a subrange from a render-target or material source or with an
    attribute other than a constant buffer. *)
Theorem perPassDescriptors_rejects subpass cam collection :
  In collection (mDescriptors subpass) ->
  perPass_rejects PerPass collection = true ->
  raises (perPassDescriptors PerPass subpass cam).
Proof.
  intros Hin Hrej. unfold perPassDescriptors.
  apply for_fails with (x := collection); [| | exact Hin].
  { intros. repeat blocks_step. }
  unfold perPass_rejects, per_pass_collection in Hrej.
  apply andb_prop in Hrej. destruct Hrej as [Hsel Hrej].
  apply andb_prop in Hsel. destruct Hsel as [Hup Hssv].
  rewrite Hup. cbn [negb]. apply negb_true_iff in Hssv. rewrite Hssv.
  apply orb_prop in Hrej. destruct Hrej as [Hlist | Hsampler].
  - apply raises_bind_l.
    apply existsb_exists in Hlist. destruct Hlist as (list & Hl & Hlist).
    unfold perPass_unsupported_list, is_Persistent in Hlist.
    destruct (mPersistency (mIndex collection)) eqn:Hp.
    + apply for_fails with (x := list); [| | exact Hl].
      { intros. repeat blocks_step. }
      destruct (is_Table (mType (mIndex collection))); [| expects_fails].
      cbn [negb orb] in Hlist. expects_holds.
      destruct (mCapacity list =? 0); [expects_fails |].
      discriminate.
    + apply for_fails with (x := list); [| | exact Hl].
      { intros. repeat blocks_step. }
      destruct (is_Table (mType (mIndex collection))); [| expects_fails].
      cbn [negb orb] in Hlist. expects_holds.
      destruct (mCapacity list =? 0); [expects_fails |].
      cbn [negb orb Persistency_eqb andb] in Hlist. expects_holds.
      apply raises_bind_r; [auto with blocks | intros _].
      apply raises_bind_l. apply perPass_ranges_raise. exact Hlist.
  - apply raises_bind_r.
    { repeat blocks_step. }
    intros _. apply negb_true_iff, length_eqb_0 in Hsampler.
    destruct Hsampler as (list & rest & ->).
    rewrite for__cons. apply raises_bind_l, raises_throw.
Qed.

End Rejections.

(** ** Draw calls and pipeline states *)

Lemma filter_commands_nil (p : Command -> bool) (log : list Event) :
  Forall (fun e => match e with Record_ c => p c = false | _ => True end) log ->
  filter p (commands log) = [].
Proof.
  induction 1 as [| e log He _ IH]; [reflexivity |].
  destruct e; cbn; auto. rewrite He. exact IH.
Qed.

Lemma resolver_filter_nil (p : Command -> bool) {A} (m : Exec A) log o :
  (forall slot table, p (SetGraphicsRootDescriptorTable slot table) = false) ->
  resolver_only m -> m = (log, o) -> filter p (commands log) = [].
Proof.
  intros Hp Hm ->. apply filter_commands_nil.
  unfold logs_only, log_of in Hm. cbn [fst] in Hm.
  eapply Forall_impl; [| exact Hm].
  intros e He. destruct e as [c | | | | | | | | | | |]; auto.
  destruct c; cbn in He; try discriminate. apply Hp.
Qed.

Lemma nothing_logged {A} (m : Exec A) log o :
  logs_only (fun _ => False) m -> m = (log, o) -> log = [].
Proof.
  intros H ->. unfold logs_only, log_of in H. cbn [fst] in H.
  destruct log; [reflexivity |]. inversion H. contradiction.
Qed.

Section DrawCallProperties.

Variable mat_mul : Matrix4f -> Matrix4f -> Matrix4f.
Variable PerPass : Z.
Variable getSubpassData :
  DX12Material -> Z -> Z -> Z -> Z -> Outcome (DX12ShaderQueueData * (Z * Z * Z)).

(* The loop over the shader subpasses, command by command. *)
Lemma draw_shader_subpasses_shape material ids key cam pBatch objectID draw :
  forall subpasses subpassID pPrevPSO log r,
    for_each subpasses (subpassID, pPrevPSO) (fun shaderSubpass '(subpassID, pPrevPSO) =>
      layoutID <- at_ (mVertexLayoutIndex shaderSubpass) key ;;
      state <- at_ (mStates shaderSubpass) layoutID ;;
      pPrevPSO' <- (if negb (pPrevPSO =? mObject state)
                    then record (SetPipelineState (mObject state)) ;; ret (mObject state)
                    else ret pPrevPSO) ;;
      subpassData <- material_subpass material ids subpassID ;;
      buildDynamicDescriptors mat_mul PerPass shaderSubpass subpassData cam pBatch
        objectID ;;
      record draw ;;
      ret (subpassID + 1, pPrevPSO')) = (log, Done r) ->
    forall p : Command -> bool,
      (forall slot table, p (SetGraphicsRootDescriptorTable slot table) = false) ->
      filter p (commands log)
      = filter p (subpass_commands draw pPrevPSO (map (pso_of key) subpasses))
      /\ snd r = last_pso pPrevPSO (map (pso_of key) subpasses).
Proof.
  induction subpasses as [| shaderSubpass subpasses IH];
    intros subpassID pPrevPSO log r H p Hp.
  - inversion H; subst. split; reflexivity.
  - cbn [for_each] in H.
    apply bind_Done_inv in H. destruct H as (la & [sid pso1] & lb & Hbody & Hrest & ->).
    apply bind_Done_inv in Hbody. destruct Hbody as (a1 & layoutID & a2 & H1 & Hbody & ->).
    apply bind_Done_inv in Hbody. destruct Hbody as (b1 & state & b2 & H2 & Hbody & ->).
    apply bind_Done_inv in Hbody. destruct Hbody as (c1 & pso' & c2 & H3 & Hbody & ->).
    apply bind_Done_inv in Hbody. destruct Hbody as (d1 & data & d2 & H4 & Hbody & ->).
    apply bind_Done_inv in Hbody. destruct Hbody as (e1 & [] & e2 & H5 & Hbody & ->).
    apply bind_Done_inv in Hbody. destruct Hbody as (f1 & [] & f2 & H6 & Hbody & ->).
    inversion H6; subst; clear H6. inversion Hbody; subst; clear Hbody.
    assert (Hpso : pso_of key shaderSubpass = mObject state).
    { unfold pso_of. rewrite H1, H2. reflexivity. }
    destruct (IH _ _ _ _ Hrest p Hp) as [IHlog IHlast].
    cbn [map]. rewrite Hpso.
    pose proof (nothing_logged _ _ _ (logs_only_at _ _ _) H1) as ->.
    pose proof (nothing_logged _ _ _ (logs_only_at _ _ _) H2) as ->.
    pose proof (nothing_logged _ _ _ (material_subpass_logs_nothing _ _ _ _) H4) as ->.
    pose proof (resolver_filter_nil p _ _ _ Hp
                  (buildDynamicDescriptors_only mat_mul PerPass _ _ _ _ _) H5) as He.
    rewrite !commands_app, !filter_app, He, IHlog. cbn [commands app].
    assert (Hc : c1 = map Record_ (if pPrevPSO =? mObject state then []
                                   else [SetPipelineState (mObject state)])
                 /\ pso1 = mObject state).
    { destruct (pPrevPSO =? mObject state) eqn:Heq; cbn [negb] in H3.
      - inversion H3; subst. apply Z.eqb_eq in Heq. auto.
      - rewrite bind_record in H3. inversion H3; subst. auto. }
    destruct Hc as [-> ->]. split.
    + cbn [subpass_commands]. rewrite !filter_app, commands_map_Record.
      cbn [filter app]. rewrite app_nil_r, <- ?app_assoc. reflexivity.
    + exact IHlast.
Qed.

Lemma draw_shader_subpasses_filter material ids key cam pBatch objectID draw
    subpasses t pso log st' (p : Command -> bool) :
  draw_shader_subpasses mat_mul PerPass material ids key cam pBatch objectID draw
    subpasses (t, pso) = (log, Done st') ->
  (forall slot table, p (SetGraphicsRootDescriptorTable slot table) = false) ->
  filter p (commands log)
  = filter p (subpass_commands draw pso (map (pso_of key) subpasses))
  /\ st' = (t, last_pso pso (map (pso_of key) subpasses)).
Proof.
  intros H Hp. unfold draw_shader_subpasses in H.
  apply bind_Done_inv in H. destruct H as (l1 & r & l2 & Hloop & Hret & ->).
  inversion Hret; subst; clear Hret. rewrite app_nil_r.
  destruct (draw_shader_subpasses_shape _ _ _ _ _ _ _ _ _ _ _ _ Hloop p Hp) as [Hlog Hlast].
  split; [exact Hlog |]. f_equal. exact Hlast.
Qed.

Lemma subpass_commands_draws draw prev psos :
  is_any_draw draw = true ->
  filter is_any_draw (subpass_commands draw prev psos) = repeat draw (List.length psos).
Proof.
  intros Hd. revert prev. induction psos as [| pso psos IH]; intros prev; [reflexivity |].
  cbn [subpass_commands List.length repeat]. rewrite !filter_app, IH.
  cbn [filter]. rewrite Hd. destruct (prev =? pso); reflexivity.
Qed.

Lemma subpass_commands_changes draw prev psos :
  is_SetPipelineState draw = false ->
  filter is_SetPipelineState (subpass_commands draw prev psos) = pso_changes prev psos.
Proof.
  intros Hd. revert prev. induction psos as [| pso psos IH]; intros prev; [reflexivity |].
  cbn [subpass_commands pso_changes]. rewrite !filter_app, IH.
  cbn [filter]. rewrite Hd. destruct (prev =? pso); reflexivity.
Qed.

Lemma pso_changes_same x psos :
  Forall (fun pso => pso = x) psos -> pso_changes x psos = [].
Proof.
  induction 1 as [| pso psos -> _ IH]; [reflexivity |].
  cbn [pso_changes]. rewrite Z.eqb_refl, IH. reflexivity.
Qed.

(** X17.  A pipeline state is set only where it changes.  In the loop over
    the shader subpasses of a draw item that goes through, the
    SetPipelineState calls are exactly one for each shader subpass whose
    pipeline state differs from the one bound before it, the first compared
    with the state bound on entry; the state bound on exit is that of the
    last subpass.  When every subpass uses the state already bound, no
    SetPipelineState is recorded. *)
Theorem pipeline_state_set_on_change material ids key cam pBatch objectID draw
    subpasses t pso log st' :
  is_SetPipelineState draw = false ->
  draw_shader_subpasses mat_mul PerPass material ids key cam pBatch objectID draw
    subpasses (t, pso) = (log, Done st') ->
  filter is_SetPipelineState (commands log)
    = pso_changes pso (map (pso_of key) subpasses) /\
  st' = (t, last_pso pso (map (pso_of key) subpasses)) /\
  (Forall (fun shaderSubpass => pso_of key shaderSubpass = pso) subpasses ->
   filter is_SetPipelineState (commands log) = []).
Proof.
  intros Hdraw H.
  destruct (draw_shader_subpasses_filter _ _ _ _ _ _ _ _ _ _ _ _ is_SetPipelineState H)
    as [Hlog Hst]; [reflexivity |].
  rewrite subpass_commands_changes in Hlog by exact Hdraw.
  repeat split; auto.
  intros Hsame. rewrite Hlog. apply pso_changes_same.
  apply Forall_map. exact Hsame.
Qed.

(** X18.  A full-screen-triangle draw call that goes through binds the
    triangle-list topology if it is not bound, binds no vertex buffer and no
    index buffer, and then submits one DrawInstanced(3, 1, 0, 0) for each
    shader subpass of the material's queue and no other draw; the triangle
    list is the topology bound afterwards.  A draw call of any other kind
    raises "mesh drawcall not supported" and records nothing. *)
Theorem fullScreenTriangle_draws sol pipe pass sub cam dc st :
  (forall log st',
     draw_drawCall mat_mul PerPass getSubpassData sol pipe pass sub cam dc st
       = (log, Done st') ->
     dcType dc = FullScreenTriangle_ /\
     (exists rest,
        commands log
        = (if D3D_PRIMITIVE_TOPOLOGY_TRIANGLELIST =? fst st then []
           else [IASetPrimitiveTopology D3D_PRIMITIVE_TOPOLOGY_TRIANGLELIST])
          ++ IASetVertexBuffers [] :: IASetIndexBuffer None :: rest) /\
     filter is_any_draw (commands log)
     = repeat (DrawInstanced 3 1 0 0)
              (subpass_count getSubpassData sol pipe pass sub (dcMaterial dc)) /\
     fst st' = D3D_PRIMITIVE_TOPOLOGY_TRIANGLELIST)
  /\
  (dcType dc <> FullScreenTriangle_ ->
   draw_drawCall mat_mul PerPass getSubpassData sol pipe pass sub cam dc st
   = throw (runtime_error "mesh drawcall not supported")).
Proof.
  split.
  - intros log st' H. unfold draw_drawCall in H.
    destruct (dcType dc); [| discriminate].
    split; [reflexivity |].
    apply bind_Done_inv in H. destruct H as (a1 & st1 & a2 & H1 & H & ->).
    apply bind_Done_inv in H. destruct H as (b1 & [] & b2 & H2 & H & ->).
    apply bind_Done_inv in H. destruct H as (c1 & [] & c2 & H3 & H & ->).
    apply bind_Done_inv in H. destruct H as (d1 & [queue ids] & d2 & H4 & H & ->).
    apply bind_Done_inv in H. destruct H as (e1 & subpasses & e2 & H5 & H & ->).
    inversion H2; subst; clear H2. inversion H3; subst; clear H3.
    unfold call in H4. inversion H4 as [[Hd Hcall]]. subst d1. clear H4.
    pose proof (nothing_logged _ _ _ (shader_subpasses_logs_nothing _ _) H5) as ->.
    assert (Ht : a1 = map Record_
                   (if D3D_PRIMITIVE_TOPOLOGY_TRIANGLELIST =? fst st then []
                    else [IASetPrimitiveTopology D3D_PRIMITIVE_TOPOLOGY_TRIANGLELIST])
                 /\ fst st1 = D3D_PRIMITIVE_TOPOLOGY_TRIANGLELIST).
    { destruct st as [t0 pso0]. unfold set_topology in H1. cbn [fst].
      destruct (D3D_PRIMITIVE_TOPOLOGY_TRIANGLELIST =? t0) eqn:Heq; cbn [negb] in H1.
      - inversion H1; subst. apply Z.eqb_eq in Heq. cbn. auto.
      - rewrite bind_record in H1. inversion H1; subst. auto. }
    destruct Ht as [-> Hst1]. destruct st1 as [t1 pso1]. cbn [fst] in Hst1. subst t1.
    destruct (draw_shader_subpasses_filter _ _ _ _ _ _ _ _ _ _ _ _ is_any_draw H)
      as [Hlog Hst]; [reflexivity |].
    rewrite subpass_commands_draws in Hlog by reflexivity.
    rewrite length_map in Hlog.
    split; [| split].
    + eexists. rewrite !commands_app, commands_map_Record. cbn [app commands].
      reflexivity.
    + rewrite !commands_app, !filter_app, Hlog, commands_map_Record.
      cbn [app commands filter is_any_draw].
      replace (filter is_any_draw
                 (if D3D_PRIMITIVE_TOPOLOGY_TRIANGLELIST =? fst st then []
                  else [IASetPrimitiveTopology D3D_PRIMITIVE_TOPOLOGY_TRIANGLELIST]))
        with (@nil Command) by (destruct (_ =? _); reflexivity).
      cbn [app]. unfold subpass_count. rewrite Hcall, H5. reflexivity.
    + rewrite Hst. reflexivity.
  - intros Hne. unfold draw_drawCall. destruct (dcType dc); [congruence | reflexivity].
Qed.

End DrawCallProperties.

(** ** initPipeline as a frame *)





(** ** The root signature of a subpass *)

Lemma draw_event_keeps_root_signature e : draw_event e = true -> keeps_root_signature e.
Proof.
  destruct e as [c | | | | | | | | | | |]; cbn; auto.
  destruct c; cbn; intros H; try reflexivity; discriminate.
Qed.

Lemma preSubpass_keeps_root_signature pContext subpass :
  logs_only keeps_root_signature (preSubpass pContext subpass).
Proof.
  unfold preSubpass.
  repeat first
    [ match goal with
      | |- logs_only _ (record _) => apply logs_only_record; reflexivity
      end
    | only_step ].
Qed.

Lemma postSubpass_keeps_root_signature pContext resource subpass :
  logs_only keeps_root_signature (postSubpass pContext resource subpass).
Proof.
  unfold postSubpass.
  repeat first
    [ match goal with
      | |- logs_only _ (record _) => apply logs_only_record; reflexivity
      end
    | only_step ].
Qed.

Section RootSignature.

Variable mat_mul : Matrix4f -> Matrix4f -> Matrix4f.
Variable PerPass : Z.
Variable getSubpassData :
  DX12Material -> Z -> Z -> Z -> Z -> Outcome (DX12ShaderQueueData * (Z * Z * Z)).

(* What a queue records behind its root signature. *)
Lemma queue_keeps_root_signature pContext subpass cam passID subpassID
    (queue : RenderQueue) (st : DrawState) :
  logs_only keeps_root_signature
    (perPassDescriptors PerPass subpass cam ;;
     for_each (mContents queue) st
       (draw_content mat_mul PerPass getSubpassData (mSolutionID pContext)
          (mPipelineID pContext) passID subpassID cam)).
Proof.
  apply logs_only_bind.
  - eapply logs_only_weaken; [| apply perPassDescriptors_only].
    intros e He. apply draw_event_keeps_root_signature, resolver_is_draw_event, He.
  - intros _. apply logs_only_for_each. intros content st'.
    eapply logs_only_weaken; [| apply draw_content_only].
    exact draw_event_keeps_root_signature.
Qed.

Lemma queues_set_root_signature pContext subpass cam passID subpassID
    (queues : list RenderQueue) : forall (st : DrawState) log st',
  for_each queues st (fun queue st =>
    record (SetGraphicsRootSignature (mRootSignature subpass)) ;;
    perPassDescriptors PerPass subpass cam ;;
    for_each (mContents queue) st
      (draw_content mat_mul PerPass getSubpassData (mSolutionID pContext)
         (mPipelineID pContext) passID subpassID cam)) = (log, Done st') ->
  filter is_SetGraphicsRootSignature (commands log)
  = repeat (SetGraphicsRootSignature (mRootSignature subpass)) (List.length queues).
Proof.
  induction queues as [| queue queues IH]; intros st log st' H.
  - inversion H; subst. reflexivity.
  - cbn [for_each] in H.
    apply bind_Done_inv in H. destruct H as (l1 & st1 & l2 & Hqueue & Hrest & ->).
    rewrite bind_record in Hqueue. inversion Hqueue as [[Hl1 Hst1]].
    rewrite commands_app, filter_app, (IH _ _ _ Hrest).
    cbn [commands filter is_SetGraphicsRootSignature List.length repeat app].
    rewrite filter_commands_nil; [reflexivity |].
    apply (queue_keeps_root_signature pContext subpass cam passID subpassID queue st).
Qed.

(** X30.  The root signature is set once for every ordered render queue.
    In a subpass that goes through, the SetGraphicsRootSignature calls are
    exactly one for each queue of mOrderedRenderQueue, every one with the
    root signature of the subpass; the attachments, the descriptor
    resolvers, the draws and the transitions set none. *)
Theorem renderSubpass_root_signature pContext resource cam passID subpassID subpass log :
  renderSubpass mat_mul PerPass getSubpassData pContext resource cam passID subpassID
    subpass = (log, Done tt) ->
  filter is_SetGraphicsRootSignature (commands log)
  = repeat (SetGraphicsRootSignature (mRootSignature subpass))
           (List.length (mOrderedRenderQueue subpass)).
Proof.
  intros H. unfold renderSubpass in H.
  apply bind_Done_inv in H. destruct H as (l1 & [] & l2 & Hpre & H & ->).
  apply bind_Done_inv in H. destruct H as (l3 & st & l4 & Hqueues & Hpost & ->).
  rewrite !commands_app, !filter_app.
  rewrite (queues_set_root_signature _ _ _ _ _ _ _ _ _ Hqueues).
  pose proof (preSubpass_keeps_root_signature pContext subpass) as H1.
  pose proof (postSubpass_keeps_root_signature pContext resource subpass) as H4.
  unfold logs_only in H1, H4. rewrite Hpre in H1. rewrite Hpost in H4.
  cbn [log_of fst] in H1, H4.
  rewrite (filter_commands_nil _ l1 H1), (filter_commands_nil _ l4 H4), app_nil_r.
  reflexivity.
Qed.

End RootSignature.

(** ** The shader asset builder *)

Lemma Ensures_true {B} (k : unit -> Exec B) : bind (Ensures true) k = k tt.
Proof. apply bind_ret. Qed.

Lemma for_each_app {A S} (l1 l2 : list A) (body : A -> S -> Exec S) : forall s,
  for_each (l1 ++ l2) s body = (s' <- for_each l1 s body ;; for_each l2 s' body).
Proof.
  induction l1 as [| a l1 IH]; intros s; cbn [app for_each].
  - rewrite bind_ret. reflexivity.
  - rewrite bind_assoc. apply bind_ext. intros s'. apply IH.
Qed.

Lemma for_each_ext {A S} (body body' : A -> S -> Exec S) (l : list A) :
  (forall a s, In a l -> body a s = body' a s) ->
  forall s, for_each l s body = for_each l s body'.
Proof.
  induction l as [| a l IH]; intros H s; [reflexivity |].
  cbn [for_each]. rewrite (H a s (or_introl eq_refl)).
  apply bind_ext. intros s'. apply IH. intros b t Hb. apply H. right. exact Hb.
Qed.

(** *** The textures of a subpass *)

Section Textures.

Variable PerBatch : Z.

Lemma table_loop_done (descriptors : list RootDescriptor) : forall textures,
  existsb (fun d => is_SRV (rdType d) && is_empty (rdName d)) descriptors = false ->
  for_each descriptors textures (fun d textures =>
    if is_SRV (rdType d)
    then Expects (negb (is_empty (rdName d))) ;; ret (textures ++ [rdName d])
    else ret textures)
  = ret (textures ++ table_textures descriptors).
Proof.
  induction descriptors as [| d descriptors IH]; intros textures H.
  - cbn. rewrite app_nil_r. reflexivity.
  - cbn [existsb] in H. apply orb_false_iff in H. destruct H as [Hd H].
    cbn [for_each]. unfold table_textures. cbn [filter].
    destruct (is_SRV (rdType d)).
    + cbn [andb] in Hd. rewrite Hd. expects_holds. rewrite bind_ret, IH by exact H.
      cbn [map]. rewrite <- app_assoc. reflexivity.
    + rewrite bind_ret. apply IH. exact H.
Qed.

Lemma table_loop_fails (descriptors : list RootDescriptor) : forall textures,
  existsb (fun d => is_SRV (rdType d) && is_empty (rdName d)) descriptors = true ->
  for_each descriptors textures (fun d textures =>
    if is_SRV (rdType d)
    then Expects (negb (is_empty (rdName d))) ;; ret (textures ++ [rdName d])
    else ret textures)
  = throw contract_violation.
Proof.
  induction descriptors as [| d descriptors IH]; intros textures H; [discriminate |].
  cbn [existsb] in H. cbn [for_each].
  destruct (is_SRV (rdType d)).
  - destruct (is_empty (rdName d)); [reflexivity |].
    expects_holds. rewrite bind_ret. apply IH. exact H.
  - rewrite bind_ret. apply IH. exact H.
Qed.

(* What the body of the loop over the tables does with one table. *)
Lemma collect_step_done table textures :
  unsupported_root PerBatch table = false ->
  unnamed_texture PerBatch table = false ->
  collectTable PerBatch table textures
  = ret (textures
         ++ (if per_batch_table PerBatch (fst table) then table_textures (snd table)
             else [])).
Proof.
  destruct table as [index descriptors].
  unfold collectTable, unsupported_root, unnamed_texture, per_batch_table. cbn [fst snd].
  destruct (mUpdate index =? PerBatch); cbn [negb andb].
  - destruct (mType index); cbn; try discriminate; intros _ H.
    + apply table_loop_done. exact H.
    + rewrite app_nil_r. reflexivity.
  - intros _ _. rewrite app_nil_r. reflexivity.
Qed.

Lemma collect_step_fails table textures :
  unsupported_root PerBatch table || unnamed_texture PerBatch table = true ->
  collectTable PerBatch table textures
  = throw (root_failure table).
Proof.
  destruct table as [index descriptors].
  unfold collectTable, unsupported_root, unnamed_texture, per_batch_table, root_failure.
  cbn [fst snd].
  destruct (mUpdate index =? PerBatch); cbn [negb andb]; [| discriminate].
  destruct (mType index); cbn; try discriminate; try reflexivity.
  intros H. apply table_loop_fails. exact H.
Qed.

Lemma collectTextures_done tables : forall textures,
  Forall (fun table => unsupported_root PerBatch table = false /\
                       unnamed_texture PerBatch table = false) tables ->
  collectTextures PerBatch tables textures
  = ret (textures ++ batch_textures PerBatch tables).
Proof.
  unfold collectTextures.
  induction tables as [| table tables IH]; intros textures H.
  - cbn. rewrite app_nil_r. reflexivity.
  - inversion H as [| ? ? [H1 H2] Hrest]; subst.
    cbn [for_each].
    rewrite (collect_step_done table textures H1 H2), bind_ret.
    rewrite IH by exact Hrest.
    unfold batch_textures. cbn [flat_map]. rewrite app_assoc. reflexivity.
Qed.

Lemma collectTextures_fails pre table post textures :
  Forall (fun table => unsupported_root PerBatch table = false /\
                       unnamed_texture PerBatch table = false) pre ->
  unsupported_root PerBatch table || unnamed_texture PerBatch table = true ->
  collectTextures PerBatch (pre ++ table :: post) textures = throw (root_failure table).
Proof.
  intros Hpre Htable. pose proof (collectTextures_done pre textures Hpre) as Hdone.
  unfold collectTextures in *. rewrite for_each_app, Hdone, bind_ret. cbn [for_each].
  rewrite (collect_step_fails table _ Htable). reflexivity.
Qed.

(* The loop logs nothing and, when it returns, has appended the texture
   names. *)
Lemma collectTextures_inv tables textures log outcome :
  collectTextures PerBatch tables textures = (log, outcome) ->
  log = [] /\ outcome <> Blocked /\
  forall out, outcome = Done out -> out = textures ++ batch_textures PerBatch tables.
Proof.
  intros H.
  destruct (existsb (fun table => unsupported_root PerBatch table
                                  || unnamed_texture PerBatch table) tables) eqn:E.
  - apply existsb_exists in E.
    destruct (first_such _ _ E) as (pre & table & post & -> & Hpre & Htable).
    rewrite collectTextures_fails in H; auto.
    + inversion H; subst. repeat split; try discriminate.
    + eapply Forall_impl; [| exact Hpre]. cbv beta. intros t Ht.
      apply orb_false_iff in Ht. exact Ht.
  - rewrite collectTextures_done in H.
    + inversion H; subst. repeat split; try discriminate. intros out Hout.
      inversion Hout. reflexivity.
    + apply Forall_forall. intros t Ht. apply orb_false_iff.
      destruct (unsupported_root PerBatch t || unnamed_texture PerBatch t) eqn:Et; auto.
      assert (existsb (fun table => unsupported_root PerBatch table
                                    || unnamed_texture PerBatch table) tables = true)
        by (apply existsb_exists; eauto).
      congruence.
Qed.

(** X20.  The textures of a subpass are the names of the SRV descriptors of
    the per-batch descriptor tables of the root signature, in order, behind
    what the list held; tables of another update frequency and per-batch
    SSV parameters add nothing.  This is so when no per-batch root
    parameter is a root constant, CBV, UAV or SRV and every such SRV
    descriptor has a name; the first table that is not like that ends the
    loop with its failure: "root constants not supported yet", "root cbv
    not supported yet", "root uav not supported yet", "root srv not
    supported yet", or the failed Expects on the name. *)
Theorem collectTextures_result tables textures :
  (Forall (fun table => unsupported_root PerBatch table = false /\
                        unnamed_texture PerBatch table = false) tables ->
   collectTextures PerBatch tables textures
   = ret (textures ++ batch_textures PerBatch tables))
  /\
  (forall pre table post,
     tables = pre ++ table :: post ->
     Forall (fun table => unsupported_root PerBatch table = false /\
                          unnamed_texture PerBatch table = false) pre ->
     unsupported_root PerBatch table || unnamed_texture PerBatch table = true ->
     collectTextures PerBatch tables textures = throw (root_failure table)).
Proof.
  split.
  - apply collectTextures_done.
  - intros pre table post -> Hpre Htable. apply collectTextures_fails; assumption.
Qed.

End Textures.

(** *** The vertex inputs *)

(** X21.  After the vertex-shader inputs are gone through, the list of every
    vertex semantic holds what it held and then the names of the inputs
    with that semantic, in input order; an input whose semantic is no
    vertex element leaves no trace. *)
Theorem add_inputs_by_semantic inputs semantics t :
  add_inputs inputs semantics t
  = semantics t ++ (if is_vertex_semantic t then inputs_of t inputs else []).
Proof.
  unfold add_inputs, inputs_of. revert semantics.
  induction inputs as [| input inputs IH]; intros semantics; cbn [fold_left filter map].
  - destruct (is_vertex_semantic t); rewrite app_nil_r; reflexivity.
  - rewrite IH.
    destruct (inSemantic input), t; cbn [Semantic_eqb is_vertex_semantic map];
      rewrite <- ?app_assoc; reflexivity.
Qed.

(** *** The stages of a subpass *)

Lemma source_of_absent stage (stages : list (ShaderStage * StageSource)) :
  ~ In stage (map fst stages) -> source_of stage stages = None.
Proof.
  unfold source_of. induction stages as [| [s src] stages IH]; intros H; [reflexivity |].
  cbn [find fst]. cbn [map fst In] in H.
  destruct (ShaderStage_eqb s stage) eqn:E.
  - exfalso. apply H. left. destruct s, stage; try discriminate; reflexivity.
  - apply IH. intros Hin. apply H. right. exact Hin.
Qed.

Section Stages.

Variable compileShader : string -> string -> string -> string -> Exec string.

(* The deferred build of stages that are pixel or vertex shaders, each at
   most once, into buffers that are empty where a stage will write. *)
Lemma deferred_stages_done shaderName stages : forall data,
  NoDup (map fst stages) ->
  Forall (fun s => supported_stage (fst s) = true) stages ->
  (In PS_ (map fst stages) -> mPS data = EmptyString) ->
  (In VS_ (map fst stages) -> mVS data = EmptyString) ->
  buildShaderStages compileShader false shaderName stages data
  = ret {| mPS := match source_of PS_ stages with
                  | Some src => stage_text src
                  | None => mPS data
                  end;
           mVS := match source_of VS_ stages with
                  | Some src => stage_text src
                  | None => mVS data
                  end;
           mSemantics := match source_of VS_ stages with
                         | Some src =>
                           add_inputs (getNodeInputsWithoutSource src) (mSemantics data)
                         | None => mSemantics data
                         end |}.
Proof.
  unfold buildShaderStages.
  induction stages as [| [stage src] stages IH]; intros data Hnodup Hsup HPS HVS.
  - destruct data. reflexivity.
  - cbn [map fst] in *. inversion Hnodup as [| ? ? Hnotin Hnodup']; subst.
    inversion Hsup as [| ? ? Hstage Hsup']; subst. cbn [fst] in Hstage.
    cbn [for_each]. unfold buildShaderStage.
    destruct stage; try discriminate.
    + rewrite (HPS (or_introl eq_refl)). cbn [is_empty]. expects_holds.
      rewrite bind_ret, IH; auto.
      * rewrite (source_of_absent PS_ stages Hnotin). unfold source_of.
        cbn [find fst snd ShaderStage_eqb mPS mVS mSemantics]. reflexivity.
      * cbn [mPS]. intros Hin. contradiction.
      * cbn [mVS]. intros Hin. apply HVS. right. exact Hin.
    + rewrite (HVS (or_introl eq_refl)). cbn [is_empty]. expects_holds.
      rewrite bind_ret, IH; auto.
      * rewrite (source_of_absent VS_ stages Hnotin). unfold source_of.
        cbn [find fst snd ShaderStage_eqb mPS mVS mSemantics]. reflexivity.
      * cbn [mPS]. intros Hin. apply HPS. right. exact Hin.
      * cbn [mVS]. intros Hin. contradiction.
Qed.

(** X22.  A deferred build of a new subpass never trips the emptiness
    precondition of its buffers and never asks the compiler: when the
    stages are pixel and vertex shaders, each at most once as in a map,
    the program is left with the generated text of the pixel stage in mPS
    and of the vertex stage in mVS, empty where the stage is missing, and
    with the vertex inputs filed under their semantics; nothing is
    logged. *)
Theorem deferred_stages_of_new_program shaderName stages :
  NoDup (map fst stages) ->
  Forall (fun s => supported_stage (fst s) = true) stages ->
  buildShaderStages compileShader false shaderName stages new_program
  = ret {| mPS := text_of PS_ stages;
           mVS := text_of VS_ stages;
           mSemantics := match source_of VS_ stages with
                         | Some src =>
                           add_inputs (getNodeInputsWithoutSource src) (fun _ => [])
                         | None => fun _ => []
                         end |}.
Proof.
  intros Hnodup Hsup.
  rewrite deferred_stages_done; auto.
Qed.

Lemma buildShaderStage_never_blocks bCompile shaderName stage src data :
  (forall target profile name content,
     never_blocks (compileShader target profile name content)) ->
  never_blocks (buildShaderStage compileShader bCompile shaderName stage src data).
Proof.
  intros H. unfold buildShaderStage.
  destruct stage, bCompile; repeat blocks_step; apply H.
Qed.

(** X23.  A stage that is neither a pixel nor a vertex shader is fatal.  In
    a deferred build into a new subpass, the first such stage ends the
    loop, after the pixel and vertex stages before it, with "shader not
    supported" for a geometry, domain or hull shader and "unknown shader"
    for anything else, and nothing is logged.  In every build, deferred or
    compiled, with a compiler that returns or fails, a subpass that has
    such a stage fails. *)
Theorem unsupported_stage_fails shaderName stages :
  (forall pre stage src post,
     stages = pre ++ (stage, src) :: post ->
     NoDup (map fst pre) ->
     Forall (fun s => supported_stage (fst s) = true) pre ->
     supported_stage stage = false ->
     buildShaderStages compileShader false shaderName stages new_program
     = throw (stage_failure stage))
  /\
  (forall bCompile data stage,
     (forall target profile name content,
        never_blocks (compileShader target profile name content)) ->
     In stage (map fst stages) ->
     supported_stage stage = false ->
     raises (buildShaderStages compileShader bCompile shaderName stages data)).
Proof.
  split.
  - intros pre stage src post -> Hnodup Hsup Hstage.
    pose proof (deferred_stages_done shaderName pre new_program Hnodup Hsup
                  (fun _ => eq_refl) (fun _ => eq_refl)) as Hpre.
    unfold buildShaderStages in *. rewrite for_each_app, Hpre, bind_ret.
    cbn [for_each]. unfold buildShaderStage.
    destruct stage; try discriminate; reflexivity.
  - intros bCompile data stage Hnb Hin Hstage.
    apply in_map_iff in Hin. destruct Hin as ([stage' src] & Heq & Hin).
    cbn [fst] in Heq. subst stage'.
    unfold buildShaderStages.
    apply for_each_fails with (x := (stage, src)); [| | exact Hin].
    + intros [s src'] d. apply buildShaderStage_never_blocks. exact Hnb.
    + intros d. unfold buildShaderStage.
      destruct stage; try discriminate; apply raises_throw.
Qed.

End Stages.

(** *** Maps that are filled entry by entry *)

Lemma map_at_inv {V} (m : list (string * V)) key log outcome :
  map_at m key = (log, outcome) ->
  log = [] /\ outcome <> Blocked /\
  forall v, outcome = Done v -> has_key key m = true /\ In v (map snd m).
Proof.
  induction m as [| [k v] m IH]; cbn [map_at has_key existsb fst map snd In].
  - intros H. inversion H; subst. split; [reflexivity |]. split; discriminate.
  - destruct (String.eqb k key).
    + intros H. inversion H; subst. split; [reflexivity |]. split; [discriminate |].
      intros v' Hv. inversion Hv; subst. auto.
    + intros H. destruct (IH H) as (Hlog & Hnb & Hdone).
      split; [exact Hlog |]. split; [exact Hnb |].
      intros v' Hv. destruct (Hdone v' Hv) as [Hk Hin]. split; [exact Hk | right; exact Hin].
Qed.

Lemma map_at_absent {V} (m : list (string * V)) key :
  has_key key m = false -> map_at m key = throw out_of_range.
Proof.
  induction m as [| [k v] m IH]; cbn [map_at has_key existsb fst]; [reflexivity |].
  destruct (String.eqb k key); [discriminate |]. exact IH.
Qed.

Lemma has_key_app {V} key (m1 m2 : list (string * V)) :
  has_key key (m1 ++ m2) = has_key key m1 || has_key key m2.
Proof. unfold has_key. apply existsb_app. Qed.

Lemma has_key_In {V} key (m : list (string * V)) :
  has_key key m = true <-> In key (map fst m).
Proof.
  unfold has_key. rewrite existsb_exists, in_map_iff. split.
  - intros (kv & Hin & Heq). apply String.eqb_eq in Heq. eauto.
  - intros (kv & Heq & Hin). exists kv. split; [exact Hin |]. apply String.eqb_eq.
    exact Heq.
Qed.

Lemma emplace_each_cons {V W} (build : string -> V -> Exec W) key v m data :
  emplace_each build ((key, v) :: m) data
  = (data' <- (Ensures (negb (has_key key data)) ;;
               w <- build key v ;;
               ret (data ++ [(key, w)])) ;;
     emplace_each build m data').
Proof. reflexivity. Qed.

(* The first key of the map is there already: the Ensures fails before
   anything is built. *)
Lemma emplace_each_present {V W} (build : string -> V -> Exec W) key v m data :
  has_key key data = true ->
  emplace_each build ((key, v) :: m) data = throw contract_violation.
Proof. intros H. rewrite emplace_each_cons, H. reflexivity. Qed.

Lemma emplace_each_Done {V W} (build : string -> V -> Exec W) m :
  forall data log out,
    emplace_each build m data = (log, Done out) ->
    exists ws,
      out = data ++ combine (map fst m) ws /\
      Forall2 (fun kv w => exists log', build (fst kv) (snd kv) = (log', Done w)) m ws.
Proof.
  induction m as [| [key v] m IH]; intros data log out H.
  - inversion H; subst. exists []. rewrite app_nil_r. split; [reflexivity | constructor].
  - rewrite emplace_each_cons in H.
    apply bind_Done_inv in H. destruct H as (l1 & data1 & l2 & Hstep & Hrest & ->).
    apply bind_Done_inv in Hstep. destruct Hstep as (l3 & [] & l4 & _ & Hstep & ->).
    apply bind_Done_inv in Hstep. destruct Hstep as (l5 & w & l6 & Hbuild & Hret & ->).
    inversion Hret; subst.
    destruct (IH _ _ _ Hrest) as (ws & -> & Hws).
    exists (w :: ws). split.
    + cbn [map fst combine]. rewrite <- app_assoc. reflexivity.
    + constructor; [eauto | exact Hws].
Qed.

Lemma combine_fst_length {A B} (l : list A) (l' : list B) :
  List.length l = List.length l' -> map fst (combine l l') = l.
Proof.
  revert l'. induction l as [| a l IH]; intros [| b l'] H; try discriminate; cbn; auto.
  rewrite IH; auto.
Qed.

Lemma emplace_each_keys {V W} (build : string -> V -> Exec W) m data log out :
  emplace_each build m data = (log, Done out) ->
  map fst out = map fst data ++ map fst m.
Proof.
  intros H. destruct (emplace_each_Done _ _ _ _ _ H) as (ws & -> & Hws).
  rewrite map_app, combine_fst_length; [reflexivity |].
  rewrite length_map. eapply Forall2_length. exact Hws.
Qed.

Lemma keyed_app {V W} (f : V -> W) (m1 m2 : list (string * V)) :
  keyed f (m1 ++ m2) = keyed f m1 ++ keyed f m2.
Proof. apply map_app. Qed.

(* Each value built has, under [g], what its source has under [f]. *)
Lemma emplace_each_keyed {V W X} (build : string -> V -> Exec W)
    (f : V -> X) (g : W -> X) m data log out :
  (forall key v log' w, In (key, v) m -> build key v = (log', Done w) -> g w = f v) ->
  emplace_each build m data = (log, Done out) ->
  keyed g out = keyed g data ++ keyed f m.
Proof.
  intros Hbuild H. destruct (emplace_each_Done _ _ _ _ _ H) as (ws & -> & Hws).
  rewrite keyed_app. f_equal. clear H.
  induction Hws as [| [key v] w m ws (log' & Hw) _ IH]; [reflexivity |].
  cbn [map fst snd combine keyed] in *.
  rewrite (Hbuild key v log' w (or_introl eq_refl) Hw).
  f_equal. apply IH. intros key' v' log'' w' Hin. apply Hbuild. right. exact Hin.
Qed.

(* Each value built satisfies [P]. *)
Lemma emplace_each_Forall {V W} (build : string -> V -> Exec W) (P : W -> Prop)
    m data log out :
  (forall key v log' w, In (key, v) m -> build key v = (log', Done w) -> P w) ->
  Forall (fun kw => P (snd kw)) data ->
  emplace_each build m data = (log, Done out) ->
  Forall (fun kw => P (snd kw)) out.
Proof.
  intros Hbuild Hdata H. destruct (emplace_each_Done _ _ _ _ _ H) as (ws & -> & Hws).
  apply Forall_app. split; [exact Hdata |]. clear H Hdata.
  induction Hws as [| [key v] w m ws (log' & Hw) _ IH]; [constructor |].
  cbn [map fst combine]. constructor.
  - cbn [snd]. apply (Hbuild key v log' w (or_introl eq_refl) Hw).
  - apply IH. intros key' v' log'' w' Hin. apply Hbuild. right. exact Hin.
Qed.

(* A vector filled by emplace_back, element by element. *)
Lemma emplace_back_Done {A B} (build : A -> Exec B) l : forall acc log out,
  for_each l acc (fun a acc => b <- build a ;; ret (acc ++ [b])) = (log, Done out) ->
  exists bs,
    out = acc ++ bs /\
    Forall2 (fun a b => exists log', build a = (log', Done b)) l bs.
Proof.
  induction l as [| a l IH]; intros acc log out H.
  - inversion H; subst. exists []. rewrite app_nil_r. split; [reflexivity | constructor].
  - cbn [for_each] in H.
    apply bind_Done_inv in H. destruct H as (l1 & acc1 & l2 & Hstep & Hrest & ->).
    apply bind_Done_inv in Hstep. destruct Hstep as (l3 & b & l4 & Hbuild & Hret & ->).
    inversion Hret; subst.
    destruct (IH _ _ _ Hrest) as (bs & -> & Hbs).
    exists (b :: bs). split.
    + rewrite <- app_assoc. reflexivity.
    + constructor; [eauto | exact Hbs].
Qed.

(** *** buildShaderData *)

(* The loop over the subpasses of a pass, for any body. *)
Lemma subpass_loop_Done (body : string -> ShaderSubpass -> Exec SubpassData)
    passName prototypeName pass : forall k acc log k' out,
  for_each pass (k, acc) (fun subpass '(k, subpasses) =>
    subpassData <- body (shader_name k passName prototypeName) subpass ;;
    ret (S (S k), subpasses ++ [subpassData])) = (log, Done (k', out)) ->
  exists datas,
    out = acc ++ datas /\
    List.length datas = List.length pass /\
    forall i subpass,
      nth_error pass i = Some subpass ->
      exists data log',
        nth_error datas i = Some data /\
        body (shader_name (k + 2 * i) passName prototypeName) subpass = (log', Done data).
Proof.
  induction pass as [| first pass IH]; intros k acc log k' out H.
  - inversion H; subst. exists []. rewrite app_nil_r. split; [reflexivity |].
    split; [reflexivity |]. intros [| i] subpass Hi; discriminate.
  - cbn [for_each] in H.
    apply bind_Done_inv in H. destruct H as (l1 & [k1 acc1] & l2 & Hstep & Hrest & ->).
    apply bind_Done_inv in Hstep. destruct Hstep as (l3 & data & l4 & Hbody & Hret & ->).
    inversion Hret; subst.
    destruct (IH _ _ _ _ _ Hrest) as (datas & -> & Hlen & Hnth).
    exists (data :: datas). split; [rewrite <- app_assoc; reflexivity |].
    split; [cbn; rewrite Hlen; reflexivity |].
    intros [| i] subpass Hi; cbn [nth_error] in *.
    + inversion Hi; subst. exists data, l3. rewrite Nat.mul_0_r, Nat.add_0_r. auto.
    + destruct (Hnth i subpass Hi) as (data' & log' & Hdata & Hbody').
      exists data', log'. split; [exact Hdata |].
      replace (k + 2 * S i)%nat with (S (S k) + 2 * i)%nat by lia. exact Hbody'.
Qed.

Section ShaderDataProperties.

Variable PerBatch : Z.
Variable getRenderBlend : Z -> Z.
Variable getRenderRasterizer : Z -> Z.
Variable getRenderDepthStencil : Z -> Z.
Variable getGroup : string -> string -> string -> Outcome ShaderGroup.
Variable compileShader : string -> string -> string -> string -> Exec string.

Lemma buildSubpasses_Done bCompile prototypeName group passName pass log out :
  buildSubpasses PerBatch getRenderBlend getRenderRasterizer getRenderDepthStencil
    compileShader bCompile prototypeName group passName pass = (log, Done out) ->
  List.length out = List.length pass /\
  forall i subpass,
    nth_error pass i = Some subpass ->
    exists data log',
      nth_error out i = Some data /\
      buildSubpass PerBatch getRenderBlend getRenderRasterizer getRenderDepthStencil
        compileShader bCompile group (shader_name (2 * i) passName prototypeName) subpass
      = (log', Done data).
Proof.
  intros H. unfold buildSubpasses in H.
  apply bind_Done_inv in H. destruct H as (l1 & [k' out'] & l2 & Hloop & Hret & ->).
  inversion Hret; subst. cbn [snd].
  apply (subpass_loop_Done
           (buildSubpass PerBatch getRenderBlend getRenderRasterizer
              getRenderDepthStencil compileShader bCompile group)) in Hloop.
  destruct Hloop as (datas & -> & Hlen & Hnth). cbn [app].
  split; [exact Hlen |]. exact Hnth.
Qed.

(** X24.  The programs of a pass are looked up under every second number.
    When the subpasses of a pass are built, the pass of the data has as
    many subpasses as the pass of the prototype, and subpass number [i],
    counted from 0, is built from the program that the group holds under
    the name "2i/pass/prototype", with "@" for an empty pass name: its
    state is the converted state of the prototype's subpass with the
    sample mask unchanged, its textures are those of the program's
    per-batch tables, and its program is what the stage loop yields under
    that name from a new program. *)
Theorem buildSubpasses_names bCompile prototypeName group passName pass log out :
  buildSubpasses PerBatch getRenderBlend getRenderRasterizer getRenderDepthStencil
    compileShader bCompile prototypeName group passName pass = (log, Done out) ->
  List.length out = List.length pass /\
  forall i subpass,
    nth_error pass i = Some subpass ->
    let shaderName := shader_name (2 * i) passName prototypeName in
    exists program data log',
      map_at group shaderName = ret program /\
      nth_error out i = Some data /\
      mState data
      = render_state getRenderBlend getRenderRasterizer getRenderDepthStencil
          (mShaderState subpass) /\
      mSampleMask (mState data) = mSampleMask (mShaderState subpass) /\
      mTextures data = batch_textures PerBatch (mTables program) /\
      buildShaderStages compileShader bCompile shaderName
        (stage_sources program (mShaders subpass)) new_program
      = (log', Done (mProgram data)).
Proof.
  intros H. apply buildSubpasses_Done in H. destruct H as [Hlen Hnth].
  split; [exact Hlen |]. intros i subpass Hi shaderName.
  destruct (Hnth i subpass Hi) as (data & log' & Hdata & Hbuild).
  fold shaderName in Hbuild. unfold buildSubpass in Hbuild.
  apply bind_Done_inv in Hbuild.
  destruct Hbuild as (l1 & program & l2 & Hprogram & Hbuild & ->).
  apply bind_Done_inv in Hbuild.
  destruct Hbuild as (l3 & textures & l4 & Htextures & Hbuild & ->).
  apply bind_Done_inv in Hbuild.
  destruct Hbuild as (l5 & stages & l6 & Hstages & Hret & ->).
  inversion Hret; subst. cbn [mState mTextures mProgram].
  destruct (map_at_inv _ _ _ _ Hprogram) as (-> & _ & _).
  destruct (collectTextures_inv _ _ _ _ _ Htextures) as (_ & _ & Hout).
  exists program. eexists. exists l5.
  split; [exact Hprogram |]. split; [exact Hdata |].
  cbn [mState mTextures mProgram].
  split; [reflexivity |]. split; [reflexivity |].
  split; [apply (Hout textures eq_refl) | exact Hstages].
Qed.

Lemma buildQueue_outline bCompile prototypeName bundleName pipelineName queueName
    (queue : ShaderQueue) log (out : QueueData) :
  buildQueue PerBatch getRenderBlend getRenderRasterizer getRenderDepthStencil getGroup
    compileShader bCompile prototypeName bundleName pipelineName queueName queue
  = (log, Done out) ->
  map (keyed (@List.length SubpassData)) out
  = map (keyed (@List.length ShaderSubpass)) queue.
Proof.
  intros H. unfold buildQueue in H.
  apply bind_Done_inv in H. destruct H as (l1 & group & l2 & _ & Hloop & ->).
  apply emplace_back_Done in Hloop. destruct Hloop as (levels & -> & Hlevels).
  cbn [app]. clear l2.
  induction Hlevels as [| level levelData queue levels (log' & Hlevel) _ IH];
    [reflexivity |].
  cbn [map]. rewrite IH. f_equal.
  apply (emplace_each_keyed _ (@List.length ShaderSubpass) (@List.length SubpassData))
    in Hlevel; [exact Hlevel |].
  intros passName pass log'' passData _ Hpass.
  apply buildSubpasses_Done in Hpass. apply Hpass.
Qed.

Lemma buildSolution_outline bCompile prototypeName bundleName
    (bundle : ShaderSolution) log (out : SolutionData) :
  buildSolution PerBatch getRenderBlend getRenderRasterizer getRenderDepthStencil getGroup
    compileShader bCompile prototypeName bundleName bundle = (log, Done out) ->
  keyed (keyed (map (keyed (@List.length SubpassData)))) out
  = keyed (keyed (map (keyed (@List.length ShaderSubpass)))) bundle.
Proof.
  intros H. unfold buildSolution in H.
  apply (emplace_each_keyed _ (keyed (map (keyed (@List.length ShaderSubpass))))
           (keyed (map (keyed (@List.length SubpassData))))) in H; [exact H |].
  intros pipelineName pipeline log' pipelineData _ Hpipeline.
  apply (emplace_each_keyed _ (map (keyed (@List.length ShaderSubpass)))
           (map (keyed (@List.length SubpassData)))) in Hpipeline; [exact Hpipeline |].
  intros queueName queue log'' queueData _ Hqueue.
  apply buildQueue_outline in Hqueue. exact Hqueue.
Qed.

(** X25.  The data mirrors the prototype.  When buildShaderData returns,
    the data has the name of the prototype, and besides the solutions it
    held it has one solution for each solution of the prototype, put in in
    the prototype's order and under the same name, with the same pipeline
    names, the same queue names, the same number of levels in every queue,
    the same pass names in every level and the same number of subpasses in
    every pass; the solutions that the data held are still there. *)
Theorem buildShaderData_mirrors prototype prototypeData bCompile log data :
  buildShaderData PerBatch getRenderBlend getRenderRasterizer getRenderDepthStencil
    getGroup compileShader prototype prototypeData bCompile = (log, Done data) ->
  sdName data = ptName prototype /\
  data_outline data = data_outline prototypeData ++ prototype_outline prototype /\
  exists solutions, sdSolutions data = sdSolutions prototypeData ++ solutions.
Proof.
  intros H. unfold buildShaderData in H.
  apply bind_Done_inv in H. destruct H as (l1 & solutions & l2 & Hloop & Hret & ->).
  inversion Hret; subst. cbn [sdName]. split; [reflexivity |].
  unfold data_outline, prototype_outline. cbn [sdSolutions]. split.
  - apply (emplace_each_keyed _
             (keyed (keyed (map (keyed (@List.length ShaderSubpass)))))
             (keyed (keyed (map (keyed (@List.length SubpassData)))))) in Hloop;
      [exact Hloop |].
    intros bundleName bundle log' bundleData _ Hbundle.
    apply buildSolution_outline in Hbundle. exact Hbundle.
  - apply emplace_each_Done in Hloop. destruct Hloop as (ws & -> & _). eauto.
Qed.

(** X26.  A prototype cannot be built twice into the same data.  After
    buildShaderData has returned, a second call on the data it left, for
    any prototype whose first solution has a name that the first prototype
    used or that the data held before, fails the Ensures at once, compiled
    or deferred, before anything is looked up or compiled. *)
Theorem buildShaderData_again prototype prototypeData bCompile log data
    prototype' bCompile' name bundle rest :
  buildShaderData PerBatch getRenderBlend getRenderRasterizer getRenderDepthStencil
    getGroup compileShader prototype prototypeData bCompile = (log, Done data) ->
  ptSolutions prototype' = (name, bundle) :: rest ->
  In name (map fst (sdSolutions prototypeData) ++ map fst (ptSolutions prototype)) ->
  buildShaderData PerBatch getRenderBlend getRenderRasterizer getRenderDepthStencil
    getGroup compileShader prototype' data bCompile' = throw contract_violation.
Proof.
  intros H Hfirst Hin. unfold buildShaderData in *.
  apply bind_Done_inv in H. destruct H as (l1 & solutions & l2 & Hloop & Hret & ->).
  inversion Hret; subst. cbn [sdSolutions].
  apply emplace_each_keys in Hloop.
  rewrite Hfirst, emplace_each_present; [reflexivity |].
  apply has_key_In. rewrite Hloop. exact Hin.
Qed.

End ShaderDataProperties.

(** *** A deferred build *)

Lemma bind_congr {A B} (m m' : Exec A) (k k' : A -> Exec B) :
  m = m' -> (forall a, k a = k' a) -> bind m k = bind m' k'.
Proof. intros -> H. apply bind_ext. exact H. Qed.

Lemma emplace_each_ext {V W} (build build' : string -> V -> Exec W) m :
  (forall key v, build key v = build' key v) ->
  forall data, emplace_each build m data = emplace_each build' m data.
Proof.
  intros H data. unfold emplace_each. apply for_each_ext.
  intros [key v] data' _. apply bind_ext. intros _. rewrite H. reflexivity.
Qed.

Lemma logs_only_map_at {V} P (m : list (string * V)) key : logs_only P (map_at m key).
Proof.
  unfold logs_only. destruct (map_at m key) as [log o] eqn:E.
  apply map_at_inv in E. destruct E as (-> & _). constructor.
Qed.

Lemma logs_only_collectTextures P PerBatch tables textures :
  logs_only P (collectTextures PerBatch tables textures).
Proof.
  unfold logs_only. destruct (collectTextures PerBatch tables textures) as [log o] eqn:E.
  apply collectTextures_inv in E. destruct E as (-> & _). constructor.
Qed.

Lemma logs_only_emplace_each {V W} P (build : string -> V -> Exec W) m :
  (forall key v, logs_only P (build key v)) ->
  forall data, logs_only P (emplace_each build m data).
Proof.
  intros H data. unfold emplace_each. apply logs_only_for_each.
  intros [key v] data'. unfold Ensures. repeat only_step.
Qed.

Section DeferredBuild.

Variable PerBatch : Z.
Variable getRenderBlend : Z -> Z.
Variable getRenderRasterizer : Z -> Z.
Variable getRenderDepthStencil : Z -> Z.
Variable getGroup : string -> string -> string -> Outcome ShaderGroup.

Lemma deferred_stages_ext compile1 compile2 shaderName stages data :
  buildShaderStages compile1 false shaderName stages data
  = buildShaderStages compile2 false shaderName stages data.
Proof.
  unfold buildShaderStages. apply for_each_ext.
  intros [stage src] data' _. destruct stage; reflexivity.
Qed.

Lemma deferred_stages_log P compileShader shaderName stages data :
  logs_only P (buildShaderStages compileShader false shaderName stages data).
Proof.
  unfold buildShaderStages. apply logs_only_for_each.
  intros [stage src] data'. unfold buildShaderStage.
  destruct stage; repeat only_step.
Qed.

(** X27.  A deferred build never calls the compiler: with bCompile false,
    buildShaderData does and yields the same for any two compilers, and
    its log, which only the compiler writes, is empty. *)
Theorem deferred_build_never_compiles compile1 compile2 prototype prototypeData :
  buildShaderData PerBatch getRenderBlend getRenderRasterizer getRenderDepthStencil
    getGroup compile1 prototype prototypeData false
  = buildShaderData PerBatch getRenderBlend getRenderRasterizer getRenderDepthStencil
      getGroup compile2 prototype prototypeData false
  /\
  log_of (buildShaderData PerBatch getRenderBlend getRenderRasterizer
            getRenderDepthStencil getGroup compile1 prototype prototypeData false) = [].
Proof.
  split.
  - unfold buildShaderData. apply bind_congr; [| reflexivity].
    apply emplace_each_ext. intros bundleName bundle. unfold buildSolution.
    apply emplace_each_ext. intros pipelineName pipeline.
    apply emplace_each_ext. intros queueName queue. unfold buildQueue.
    apply bind_ext. intros group. apply for_each_ext. intros level levels _.
    apply bind_congr; [| reflexivity].
    apply emplace_each_ext. intros passName pass. unfold buildSubpasses.
    apply bind_congr; [| reflexivity].
    apply for_each_ext. intros subpass [k subpasses] _. cbv zeta.
    apply bind_congr; [| reflexivity].
    unfold buildSubpass. apply bind_ext. intros program. cbv zeta.
    apply bind_ext. intros textures. apply bind_congr; [| reflexivity].
    apply deferred_stages_ext.
  - assert (H : logs_only (fun _ => False)
                  (buildShaderData PerBatch getRenderBlend getRenderRasterizer
                     getRenderDepthStencil getGroup compile1 prototype prototypeData
                     false)).
    { unfold buildShaderData. only_step; [| auto with only].
      apply logs_only_emplace_each. intros bundleName bundle. unfold buildSolution.
      apply logs_only_emplace_each. intros pipelineName pipeline.
      apply logs_only_emplace_each. intros queueName queue. unfold buildQueue.
      only_step; [auto with only |].
      apply logs_only_for_each. intros level levels. only_step; [| auto with only].
      apply logs_only_emplace_each. intros passName pass. unfold buildSubpasses.
      only_step; [| auto with only].
      apply logs_only_for_each. intros subpass [k subpasses]. cbv zeta.
      only_step; [| auto with only].
      unfold buildSubpass. only_step; [apply logs_only_map_at |]. cbv zeta.
      only_step; [apply logs_only_collectTextures |].
      only_step; [apply deferred_stages_log | auto with only]. }
    unfold logs_only in H. destruct (log_of _) as [| e log]; [reflexivity |].
    inversion H; subst. contradiction.
Qed.

End DeferredBuild.

(** *** buildShaders *)

Section BuildShadersProperties.

Variable getRenderBlend : Z -> Z.
Variable getRenderRasterizer : Z -> Z.
Variable getRenderDepthStencil : Z -> Z.
Variable getGroup : string -> string -> string -> Outcome ShaderGroup.
Variable compileShader : string -> string -> string -> string -> Exec string.

Lemma buildShadersSubpasses_Done prototypeName group passName pass log out :
  buildShadersSubpasses getRenderBlend getRenderRasterizer getRenderDepthStencil
    compileShader prototypeName group passName pass = (log, Done out) ->
  List.length out = List.length pass /\
  Forall (fun data => mTextures data = []) out.
Proof.
  intros H. unfold buildShadersSubpasses in H.
  apply bind_Done_inv in H. destruct H as (l1 & [k' out'] & l2 & Hloop & Hret & ->).
  inversion Hret; subst. cbn [snd].
  apply (subpass_loop_Done
           (buildShadersSubpass getRenderBlend getRenderRasterizer
              getRenderDepthStencil compileShader group)) in Hloop.
  destruct Hloop as (datas & -> & Hlen & Hnth). cbn [app].
  split; [exact Hlen |].
  apply Forall_forall. intros data Hin.
  apply In_nth_error in Hin. destruct Hin as [i Hi].
  assert (Hlt : (i < List.length pass)%nat).
  { rewrite <- Hlen. apply nth_error_Some. congruence. }
  destruct (nth_error pass i) as [subpass |] eqn:Hsub;
    [| apply nth_error_None in Hsub; lia].
  destruct (Hnth i subpass Hsub) as (data' & log' & Hdata & Hbuild).
  assert (data' = data) by congruence. subst data'.
  unfold buildShadersSubpass in Hbuild.
  apply bind_Done_inv in Hbuild. destruct Hbuild as (l3 & program & l4 & _ & Hbuild & _).
  apply bind_Done_inv in Hbuild. destruct Hbuild as (l5 & stages & l6 & _ & Hret' & _).
  inversion Hret'. reflexivity.
Qed.

Lemma buildShadersQueue_Done prototypeName bundleName pipelineName queueName
    (queue : ShaderQueue) log (out : QueueData) :
  buildShadersQueue getRenderBlend getRenderRasterizer getRenderDepthStencil getGroup
    compileShader prototypeName bundleName pipelineName queueName queue
  = (log, Done out) ->
  map (keyed (@List.length SubpassData)) out
  = map (keyed (@List.length ShaderSubpass)) queue /\
  Forall (fun data => mTextures data = [])
         (flat_map (fun level => flat_map (fun pass => snd pass) level) out).
Proof.
  intros H. unfold buildShadersQueue in H.
  apply bind_Done_inv in H. destruct H as (l1 & group & l2 & _ & Hloop & ->).
  apply emplace_back_Done in Hloop. destruct Hloop as (levels & -> & Hlevels).
  cbn [app]. clear l2.
  induction Hlevels as [| level levelData queue levels (log' & Hlevel) _ [IH1 IH2]];
    [split; [reflexivity | constructor] |].
  cbn [map flat_map]. rewrite IH1. split.
  - f_equal.
    apply (emplace_each_keyed _ (@List.length ShaderSubpass) (@List.length SubpassData))
      in Hlevel; [exact Hlevel |].
    intros passName pass log'' passData _ Hpass.
    apply buildShadersSubpasses_Done in Hpass. apply Hpass.
  - apply Forall_app. split; [| exact IH2].
    apply Forall_flat_map.
    apply (emplace_each_Forall _ (Forall (fun data => mTextures data = []))) in Hlevel;
      [exact Hlevel | | constructor].
    intros passName pass log'' passData _ Hpass.
    apply buildShadersSubpasses_Done in Hpass. apply Hpass.
Qed.

(** X28.  buildShaders mirrors the database, and leaves the name and the
    textures empty.  When it returns, mShaders holds what it held and one
    entry for each prototype of the database, put in in the database's
    order and under the key of the prototype; the entry has the same
    solution, pipeline and queue names as the prototype, the same number
    of levels in every queue, the same pass names in every level and the
    same number of subpasses in every pass; its name is not set, and none
    of its subpasses has a texture, whatever the root signatures hold. *)
Theorem buildShaders_mirrors mPrototypes shaders log out :
  buildShaders getRenderBlend getRenderRasterizer getRenderDepthStencil getGroup
    compileShader mPrototypes shaders = (log, Done out) ->
  exists datas,
    out = shaders ++ combine (map fst mPrototypes) datas /\
    Forall2 (fun entry data =>
               sdName data = EmptyString /\
               data_outline data = prototype_outline (snd entry) /\
               Forall (fun subpass => mTextures subpass = []) (data_subpasses data))
            mPrototypes datas.
Proof.
  intros H. unfold buildShaders in H.
  apply emplace_each_Done in H. destruct H as (datas & -> & Hdatas).
  exists datas. split; [reflexivity |].
  eapply Forall2_impl; [| exact Hdatas].
  intros [prototypeName prototype] data (log' & Hdata). cbn [fst snd] in *.
  apply bind_Done_inv in Hdata. destruct Hdata as (l1 & solutions & l2 & Hloop & Hret & _).
  inversion Hret; subst. cbn [sdName]. split; [reflexivity |].
  unfold data_outline, prototype_outline, data_subpasses. cbn [sdSolutions]. split.
  - apply (emplace_each_keyed _
             (keyed (keyed (map (keyed (@List.length ShaderSubpass)))))
             (keyed (keyed (map (keyed (@List.length SubpassData)))))) in Hloop;
      [exact Hloop |].
    intros bundleName bundle la bundleData _ Hbundle.
    apply (emplace_each_keyed _ (keyed (map (keyed (@List.length ShaderSubpass))))
             (keyed (map (keyed (@List.length SubpassData))))) in Hbundle;
      [exact Hbundle |].
    intros pipelineName pipeline lb pipelineData _ Hpipeline.
    apply (emplace_each_keyed _ (map (keyed (@List.length ShaderSubpass)))
             (map (keyed (@List.length SubpassData)))) in Hpipeline; [exact Hpipeline |].
    intros queueName queue lc queueData _ Hqueue.
    apply buildShadersQueue_Done in Hqueue. apply Hqueue.
  - apply Forall_flat_map.
    apply (emplace_each_Forall _ (fun solution : SolutionData =>
             Forall (fun subpass => mTextures subpass = [])
               (flat_map (fun pipeline : string * PipelineData =>
                  flat_map (fun queue : string * QueueData =>
                    flat_map (fun level : LevelData =>
                      flat_map (fun pass : string * PassData => snd pass) level)
                      (snd queue))
                    (snd pipeline))
                  solution))) in Hloop; [exact Hloop | | constructor].
    intros bundleName bundle la bundleData _ Hbundle.
    apply Forall_flat_map.
    apply (emplace_each_Forall _ (fun pipeline : PipelineData =>
             Forall (fun subpass => mTextures subpass = [])
               (flat_map (fun queue : string * QueueData =>
                  flat_map (fun level : LevelData =>
                    flat_map (fun pass : string * PassData => snd pass) level)
                    (snd queue))
                  pipeline))) in Hbundle; [exact Hbundle | | constructor].
    intros pipelineName pipeline lb pipelineData _ Hpipeline.
    apply Forall_flat_map.
    apply (emplace_each_Forall _ (fun queue : QueueData =>
             Forall (fun subpass => mTextures subpass = [])
               (flat_map (fun level : LevelData =>
                  flat_map (fun pass : string * PassData => snd pass) level)
                  queue))) in Hpipeline; [exact Hpipeline | | constructor].
    intros queueName queue lc queueData _ Hqueue.
    apply buildShadersQueue_Done in Hqueue. apply Hqueue.
Qed.

End BuildShadersProperties.

(** *** build *)

Section ResourcesProperties.

Variable ShaderResource : Type.
Variable makeResource : ShaderData -> ShaderResource.
Variable gen : string -> Z.

Lemma find_id_app {V} id (m1 m2 : list (Z * V)) :
  find_id id (m1 ++ m2)
  = match find_id id m1 with
    | Some v => Some v
    | None => find_id id m2
    end.
Proof.
  induction m1 as [| [k v] m1 IH]; cbn [app find_id]; [reflexivity |].
  destruct (k =? id); [reflexivity | exact IH].
Qed.

Lemma has_id_find {V} id (m : list (Z * V)) :
  has_id id m = match find_id id m with
                | Some _ => true
                | None => false
                end.
Proof.
  induction m as [| [k v] m IH]; cbn [has_id existsb find_id fst]; [reflexivity |].
  destruct (k =? id); [reflexivity | exact IH].
Qed.

(* One emplace. *)
Lemma emplace_keeps id (r : ShaderResource) resources name data :
  find_id id resources = Some r ->
  find_id id (if has_id (gen name) resources then resources
              else resources ++ [(gen name, makeResource data)]) = Some r.
Proof.
  intros H. destruct (has_id _ _); [exact H |]. rewrite find_id_app, H. reflexivity.
Qed.

Lemma build_cons name data shaders resources :
  build ShaderResource makeResource gen ((name, data) :: shaders) resources
  = build ShaderResource makeResource gen shaders
      (if has_id (gen name) resources then resources
       else resources ++ [(gen name, makeResource data)]).
Proof. reflexivity. Qed.

Lemma build_keeps shaders : forall resources id r,
  find_id id resources = Some r ->
  find_id id (build ShaderResource makeResource gen shaders resources) = Some r.
Proof.
  induction shaders as [| [name data] shaders IH]; intros resources id r H; [exact H |].
  rewrite build_cons. apply IH. apply emplace_keeps. exact H.
Qed.

(** X29.  build adds and never overwrites.  Every shader that the resources
    held under some id is still what is found under that id.  Every
    prototype of the builder has, after the call, an entry under the id
    generated from its name.  When the ids generated from the names are
    pairwise different and a prototype's id was not in use, the entry
    under that id is the one made from this prototype's data. *)
Theorem build_adds_and_keeps shaders resources :
  (forall id r,
     find_id id resources = Some r ->
     find_id id (build ShaderResource makeResource gen shaders resources) = Some r)
  /\
  (forall name data,
     In (name, data) shaders ->
     has_id (gen name) (build ShaderResource makeResource gen shaders resources) = true)
  /\
  (forall name data,
     In (name, data) shaders ->
     NoDup (map (fun kv => gen (fst kv)) shaders) ->
     has_id (gen name) resources = false ->
     find_id (gen name) (build ShaderResource makeResource gen shaders resources)
     = Some (makeResource data)).
Proof.
  split; [intros id r; apply build_keeps |]. split.
  - revert resources.
    induction shaders as [| [name' data'] shaders IH]; intros resources name data Hin;
      [destruct Hin |].
    rewrite build_cons.
    destruct Hin as [Heq | Hin]; [| apply IH with (data := data); exact Hin].
    inversion Heq; subst.
    rewrite has_id_find.
    destruct (find_id (gen name)
                (if has_id (gen name) resources then resources
                 else resources ++ [(gen name, makeResource data)])) as [r |] eqn:E.
    + rewrite (build_keeps shaders _ _ _ E). reflexivity.
    + exfalso. rewrite has_id_find in E.
      destruct (find_id (gen name) resources) eqn:E'; [congruence |].
      rewrite find_id_app, E' in E. cbn [find_id] in E. rewrite Z.eqb_refl in E.
      discriminate.
  - revert resources.
    induction shaders as [| [name' data'] shaders IH];
      intros resources name data Hin Hnodup Hfree; [destruct Hin |].
    cbn [map fst] in Hnodup. inversion Hnodup as [| ? ? Hnotin Hnodup']; subst.
    rewrite build_cons.
    destruct Hin as [Heq | Hin].
    + inversion Heq; subst. rewrite Hfree.
      apply build_keeps. rewrite has_id_find in Hfree.
      destruct (find_id (gen name) resources) eqn:E; [discriminate |].
      rewrite find_id_app, E. cbn [find_id]. rewrite Z.eqb_refl. reflexivity.
    + apply IH; [exact Hin | exact Hnodup' |].
      assert (Hne : gen name' <> gen name).
      { intros Heq. apply Hnotin. rewrite Heq.
        apply (in_map (fun kv => gen (fst kv)) _ _ Hin). }
      destruct (has_id (gen name') resources); [exact Hfree |].
      unfold has_id in *. rewrite existsb_app, Hfree. cbn [existsb fst].
      apply Z.eqb_neq in Hne. rewrite Hne. reflexivity.
Qed.

End ResourcesProperties.

(** * Instances *)

(** Five frames on a ring of three: slots 0 1 2 0 1, fence values 0 to 4. *)
Lemma beginFrame_slot_and_fence_witness :
  exists calls q',
    run_frames 5 Sample.sc Sample.queue Sample.fence = Some (calls, q') /\
    List.length calls = 5%nat /\
    nth_error calls 3 = Some (0%nat, 3) /\
    nth_error calls 4 = Some (1%nat, 4) /\
    0%nat = (3 mod List.length (mFrames Sample.queue))%nat /\
    3 = mNextFrameFence Sample.queue + Z.of_nat 3 /\
    (forall slot' value', nth_error calls 4 = Some (slot', value') -> value' = 3 + 1).
Proof.
  eexists. eexists.
  split; [vm_compute; reflexivity |].
  split; [reflexivity |].
  split; [reflexivity |].
  split; [reflexivity |].
  eapply (beginFrame_slot_and_fence Sample.queue).
  - apply (run_frames_begins 5 Sample.sc Sample.queue Sample.fence).
    vm_compute. reflexivity.
  - reflexivity.
  - vm_compute. reflexivity.
  - vm_compute. discriminate.
  - vm_compute. discriminate.
  - reflexivity.
Defined.

(** Slot 0 holds frame 5.  With the signal for 5 queued the call returns
    after seeing it; with only 4 queued it does not return. *)
Lemma beginFrame_waits_for_slot_witness :
  (exists log fence' slot q',
     beginFrame Sample.sc Sample.busy_queue Sample.ready_fence
       = ((log, Done (fence', slot)), q') /\
     exists pFrame frame',
       nth_error (mFrames Sample.busy_queue) slot = Some pFrame /\
       mFrameFenceId pFrame <= completed fence' /\
       log = WaitForFence (mFrameFenceId pFrame)
             :: [ResetCommandAllocator slot; ResetCommandList slot;
                 DescriptorsAdvanceFrame; UploadBufferAdvanceFrame] /\
       nth_error (mFrames q') slot = Some frame' /\
       mFrameFenceId frame' = mNextFrameFence Sample.busy_queue)
  /\
  (exists q',
     beginFrame Sample.sc Sample.busy_queue Sample.late_fence
       = (([WaitForFence 5], Blocked), q') /\
     mFrames q' = mFrames Sample.busy_queue).
Proof.
  split.
  - do 4 eexists. split.
    + vm_compute. reflexivity.
    + apply (proj1 (beginFrame_waits_for_slot Sample.sc Sample.busy_queue Sample.ready_fence)).
      vm_compute. reflexivity.
  - apply (proj2 (beginFrame_waits_for_slot Sample.sc Sample.busy_queue Sample.late_fence)
             Sample.busy_frame).
    + reflexivity.
    + vm_compute. discriminate.
    + vm_compute. discriminate.
    + reflexivity.
    + vm_compute. reflexivity.
    + repeat constructor.
Defined.

(** Of the three render targets only the third, declared as a pixel-shader
    resource, gets a barrier. *)
Lemma initPipeline_transitions_witness :
  commands (log_of (fst (initPipeline Sample.sc Sample.queue Sample.fence)))
  = [ResourceBarrier [Transition 102 RESOURCE_STATE_RENDER_TARGET 128]; Close].
Proof.
  refine (initPipeline_transitions Sample.sc Sample.queue Sample.fence
            _ _ _ _ Sample.pipeline _ _ _).
  - vm_compute. reflexivity.
  - reflexivity.
  - intros k state Hin _.
    cbn in Hin.
    destruct Hin as [H | [H | [H | []]]]; inversion H; subst; vm_compute; discriminate.
Defined.

(** C4 as worded does not hold: the barrier recorded for the third render
    target leaves RenderTarget for the declared state; the barrier from the
    declared state to RenderTarget is not recorded. *)
Lemma initPipeline_transition_direction :
  commands (log_of (fst (initPipeline Sample.sc Sample.queue Sample.fence)))
    = [ResourceBarrier [transition_as_recorded 102 128]; Close] /\
  ~ In (ResourceBarrier [transition_as_specified 102 128])
       (commands (log_of (fst (initPipeline Sample.sc Sample.queue Sample.fence)))).
Proof.
  split.
  - vm_compute. reflexivity.
  - vm_compute. intros [H | [H | []]]; discriminate.
Qed.

(** No constant buffer under a per-draw index: not found.  Two under the
    per-pass index: the first is built. *)
Lemma constant_buffer_lookup_witness :
  Forall (fun cb => matches SampleBindings.perInstanceIndex cb = false)
         (mConstantBuffers SampleBindings.ambiguous_subpass) /\
  perPass_attribute SampleBindings.ambiguous_subpass
    {| mIndex := SampleBindings.perInstanceIndex;
       mResourceViewLists := []; mSamplerLists := [] |}
    SampleBindings.cam constant_buffer_attribute 0
  = throw (runtime_error "constant buffer not found") /\
  matches SampleBindings.perPassIndex SampleBindings.viewCB = true /\
  perPass_attribute SampleBindings.ambiguous_subpass SampleBindings.perPassCollection
    SampleBindings.cam constant_buffer_attribute 0
  = (build_constant_buffer (write_perPass SampleBindings.cam) 0 SampleBindings.viewCB ;;
     ret 1%nat).
Proof.
  assert (Hnone : Forall (fun cb => matches SampleBindings.perInstanceIndex cb = false)
                         (mConstantBuffers SampleBindings.ambiguous_subpass))
    by (repeat constructor).
  split; [exact Hnone |].
  split.
  - exact (proj1 (constant_buffer_lookup SampleBindings.mat_mul
                    SampleBindings.ambiguous_subpass
                    {| mVertexLayoutIndex := []; mStates := []; ssConstantBuffers := [] |}
                    {| mIndex := SampleBindings.perInstanceIndex;
                       mResourceViewLists := []; mSamplerLists := [] |}
                    SampleBindings.cam None 0 0%nat) Hnone).
  - split; [reflexivity |].
    apply (proj1 (proj2 (proj2 (constant_buffer_lookup SampleBindings.mat_mul
                    SampleBindings.ambiguous_subpass
                    {| mVertexLayoutIndex := []; mStates := []; ssConstantBuffers := [] |}
                    SampleBindings.perPassCollection
                    SampleBindings.cam None 0 0%nat)))
             [] SampleBindings.viewCB [SampleBindings.projViewCB]).
    + reflexivity.
    + constructor.
    + reflexivity.
Defined.

(** C3 as worded does not hold: with two constant buffers declared under the
    collection's index the per-pass resolver returns, having uploaded the
    256 bytes of the first one. *)
Lemma ambiguous_constant_buffer_is_resolved :
  matches SampleBindings.perPassIndex SampleBindings.viewCB = true /\
  matches SampleBindings.perPassIndex SampleBindings.projViewCB = true /\
  perPassDescriptors SampleBindings.PerPass SampleBindings.ambiguous_subpass
    SampleBindings.cam
  = ([AllocateCircular 1;
      Upload (matrix_data (mView SampleBindings.cam) ++ repeat Byte.x00 192) 256 1 256;
      CreateConstantBufferView 256 0;
      Record_ (SetGraphicsRootDescriptorTable 3 (CircularBase 1))],
     Done tt).
Proof. repeat split. Qed.

(** A WorldView field in a per-pass buffer, a Projection field in a per-draw
    buffer: neither is built. *)
Lemma constant_scope_enforced_witness :
  (In (SampleBindings.engine WorldView_) (mConstants SampleBindings.worldViewCB) /\
   per_object_only (SampleBindings.engine WorldView_) /\
   exists log f,
     build_constant_buffer (write_perPass SampleBindings.cam) 0 SampleBindings.worldViewCB
     = (log, Fatal f))
  /\
  (In (SampleBindings.engine Proj_) (mConstants SampleBindings.projViewCB) /\
   per_pass_only (SampleBindings.engine Proj_) /\
   exists log f,
     build_constant_buffer
       (write_perInstance SampleBindings.mat_mul SampleBindings.cam None 0)
       0 SampleBindings.projViewCB
     = (log, Fatal f)).
Proof.
  pose proof (constant_scope_enforced SampleBindings.mat_mul SampleBindings.cam)
    as (_ & _ & _ & Hdraw & Hpass & _).
  assert (H1 : In (SampleBindings.engine WorldView_)
                  (mConstants SampleBindings.worldViewCB)) by (left; reflexivity).
  assert (H2 : per_object_only (SampleBindings.engine WorldView_))
    by (split; [reflexivity | left; reflexivity]).
  assert (H3 : In (SampleBindings.engine Proj_)
                  (mConstants SampleBindings.projViewCB)) by (left; reflexivity).
  assert (H4 : per_pass_only (SampleBindings.engine Proj_))
    by (split; [reflexivity | left; reflexivity]).
  split.
  - split; [exact H1 | split; [exact H2 |]].
    exact (Hpass 0%nat SampleBindings.worldViewCB _ H1 H2).
  - split; [exact H3 | split; [exact H4 |]].
    exact (Hdraw None 0 0%nat SampleBindings.projViewCB _ H3 H4).
Defined.

(** The definition [View], declared size 64: 256 bytes, view size 256. *)
Lemma perPass_payload_witness :
  0 < mSize SampleBindings.viewCB <= 2 ^ 32 - 256 /\
  Forall per_pass_only (mConstants SampleBindings.viewCB) /\
  64 * Z.of_nat (List.length (mConstants SampleBindings.viewCB))
    <= mSize SampleBindings.viewCB /\
  build_constant_buffer (write_perPass SampleBindings.cam) 0 SampleBindings.viewCB
  = ([Upload (matrix_data (mView SampleBindings.cam) ++ repeat Byte.x00 192) 256 1 256;
      CreateConstantBufferView 256 0], Done tt).
Proof.
  assert (H1 : 0 < mSize SampleBindings.viewCB <= 2 ^ 32 - 256) by (cbn; lia).
  assert (H2 : Forall per_pass_only (mConstants SampleBindings.viewCB)).
  { constructor; [split; [reflexivity | right; reflexivity] | constructor]. }
  assert (H3 : 64 * Z.of_nat (List.length (mConstants SampleBindings.viewCB))
               <= mSize SampleBindings.viewCB) by (cbn; lia).
  split; [exact H1 |]. split; [exact H2 |]. split; [exact H3 |].
  exact (proj1 (proj1 (perPass_payload SampleBindings.cam)
                  SampleBindings.viewCB 0%nat H1 H2 H3)).
Defined.

(** Two back buffers, back-buffer index 1: handle 0 is view 1, handle 2 is
    view 3, handle 5 is view 5. *)
Lemma resolve_rtv_sentinels_witness :
  let pContext := {|
    mFrameFenceId := 0; mBackBufferIndex := 1; mBackBufferCount := 2;
    mBackBuffer := 1; mBackBufferRTV := (1, false); mBackBufferRTVsRGB := (1, true);
    mRenderSolution := None; mRenderWorks := None;
    mSolutionID := 0; mPipelineID := 0 |} in
  resolve_rtv pContext 0 = RTV 1 /\
  resolve_rtv pContext 2 = RTV 3 /\
  resolve_rtv pContext 5 = RTV 5.
Proof.
  intros pContext.
  assert (Hfit : 0 <= mBackBufferIndex pContext + mBackBufferCount pContext < 2 ^ 32)
    by (cbn; lia).
  split; [| split].
  - exact (proj1 (resolve_rtv_sentinels pContext 0 Hfit) eq_refl).
  - exact (proj1 (proj2 (resolve_rtv_sentinels pContext 2 Hfit)) eq_refl).
  - apply (proj1 (proj2 (proj2 (resolve_rtv_sentinels pContext 5 Hfit)))); discriminate.
Defined.

(** A frame on back buffer 0, whose framebuffer is resource 100. *)
Lemma renderFrame_first_command_witness :
  mRenderWorks Sample.busy_frame = Some Sample.works /\
  0 <= mBackBufferIndex Sample.busy_frame /\
  nth_error (mFramebuffers Sample.works)
            (Z.to_nat (mBackBufferIndex Sample.busy_frame)) = Some 100 /\
  exists rest,
    log_of (renderFrame SampleBindings.mat_mul SampleBindings.PerPass
              SampleScene.getSubpassData SampleBindings.cam Sample.busy_frame)
      = Record_ (ResourceBarrier [Transition 100 0 4]) :: rest /\
    commands (log_of (renderFrame SampleBindings.mat_mul SampleBindings.PerPass
                        SampleScene.getSubpassData SampleBindings.cam Sample.busy_frame))
      = ResourceBarrier [Transition 100 0 4] :: commands rest.
Proof.
  assert (H1 : mRenderWorks Sample.busy_frame = Some Sample.works) by reflexivity.
  assert (H2 : 0 <= mBackBufferIndex Sample.busy_frame) by (cbn; lia).
  assert (H3 : nth_error (mFramebuffers Sample.works)
                 (Z.to_nat (mBackBufferIndex Sample.busy_frame)) = Some 100)
    by reflexivity.
  split; [exact H1 |]. split; [exact H2 |]. split; [exact H3 |].
  exact (renderFrame_first_command SampleBindings.mat_mul SampleBindings.PerPass
           SampleScene.getSubpassData SampleBindings.cam Sample.busy_frame
           Sample.works 100 H1 H2 H3).
Defined.

(** Three materials whose shader has one subpass, on two submeshes: two
    indexed draws, one per submesh. *)
Lemma objectBatch_draws_witness :
  exists log st',
    draw_objectBatch SampleBindings.mat_mul SampleBindings.PerPass
      SampleScene.getSubpassData 0 0 0 0 SampleBindings.cam (SampleScene.batch 1) (0, 0)
      = (log, Done st') /\
    indexed_draw_commands log
    = [DrawIndexedInstanced 6 1 0 0 0; DrawIndexedInstanced 12 1 6 0 0].
Proof.
  eexists. eexists. split.
  - vm_compute. reflexivity.
  - eapply (proj2 (proj2 (objectBatch_draws SampleBindings.mat_mul SampleBindings.PerPass
                            SampleScene.getSubpassData 0 0 0 0 SampleBindings.cam
                            (SampleScene.batch 1)))
              (SampleScene.renderer 1) _ _ _
              {| mIndexCount := 6; mIndexOffset := 0 |}
              {| mIndexCount := 12; mIndexOffset := 6 |} (0, 0)).
    + reflexivity.
    + reflexivity.
    + reflexivity.
    + reflexivity.
    + reflexivity.
    + vm_compute. reflexivity.
Defined.

(** C7 as worded does not hold: three materials on two submeshes, the run
    completes, and four indexed draws are submitted, because the shader of
    each material has two subpasses. *)
Lemma three_materials_two_submeshes_four_draws :
  List.length (mMaterials (SampleScene.renderer 2)) = 3%nat /\
  List.length (mSubMeshes (mMesh (SampleScene.renderer 2))) = 2%nat /\
  outcome_of (draw_objectBatch SampleBindings.mat_mul SampleBindings.PerPass
                SampleScene.getSubpassData 0 0 0 0 SampleBindings.cam
                (SampleScene.batch 2) (0, 0)) = Done (4, 9) /\
  indexed_draw_commands
    (log_of (draw_objectBatch SampleBindings.mat_mul SampleBindings.PerPass
               SampleScene.getSubpassData 0 0 0 0 SampleBindings.cam
               (SampleScene.batch 2) (0, 0)))
  = [DrawIndexedInstanced 6 1 0 0 0; DrawIndexedInstanced 6 1 0 0 0;
     DrawIndexedInstanced 12 1 6 0 0; DrawIndexedInstanced 12 1 6 0 0] /\
  indexed_draws
    (log_of (draw_objectBatch SampleBindings.mat_mul SampleBindings.PerPass
               SampleScene.getSubpassData 0 0 0 0 SampleBindings.cam
               (SampleScene.batch 2) (0, 0))) <> 2%nat.
Proof.
  repeat split; try (vm_compute; reflexivity).
  vm_compute. discriminate.
Qed.

(** Deferred: an empty pixel buffer takes the text, a populated one fails the
    Expects. *)
Lemma buildShaderStage_deferred_or_compiled_witness :
  mPS SampleShaders.empty = EmptyString /\
  buildShaderStage SampleShaders.compileShader false "0/@/Unlit" PS_
    SampleShaders.pixel SampleShaders.empty
  = ret {| mPS := stage_text SampleShaders.pixel; mVS := mVS SampleShaders.empty;
           mSemantics := mSemantics SampleShaders.empty |} /\
  mPS SampleShaders.populated <> EmptyString /\
  buildShaderStage SampleShaders.compileShader false "0/@/Unlit" PS_
    SampleShaders.pixel SampleShaders.populated
  = throw contract_violation.
Proof.
  assert (H1 : mPS SampleShaders.empty = EmptyString) by reflexivity.
  assert (H2 : mPS SampleShaders.populated <> EmptyString) by discriminate.
  split; [exact H1 |]. split.
  - exact (proj1 (buildShaderStage_deferred_or_compiled SampleShaders.compileShader
                    "0/@/Unlit" SampleShaders.pixel SampleShaders.empty) H1).
  - split; [exact H2 |].
    exact (proj1 (proj2 (buildShaderStage_deferred_or_compiled
                           SampleShaders.compileShader
                           "0/@/Unlit" SampleShaders.pixel SampleShaders.populated)) H2).
Defined.

(** * More instances *)

(** Slot 0 of a ring of two is taken; slot 1 keeps its frame and the next
    index is 1. *)
Lemma beginFrame_touches_one_slot_witness :
  exists log fence' slot q',
    beginFrame Sample.sc Sample.busy_queue Sample.ready_fence
      = ((log, Done (fence', slot)), q') /\
    List.length (mFrames q') = List.length (mFrames Sample.busy_queue) /\
    (forall j, j <> slot ->
               nth_error (mFrames q') j = nth_error (mFrames Sample.busy_queue) j) /\
    0 <= mNextFrameIndex q' < Z.of_nat (List.length (mFrames q')).
Proof.
  eassert (E : beginFrame Sample.sc Sample.busy_queue Sample.ready_fence
               = ((_, Done (_, _)), _)) by (vm_compute; reflexivity).
  do 4 eexists. split; [exact E |].
  apply (beginFrame_touches_one_slot _ _ _ _ _ _ _ E).
  vm_compute. reflexivity.
Defined.


(** The frame begun with counter 6 signals 6. *)
Lemma endFrame_signals_frame_fence_witness :
  exists log fence' slot q',
    beginFrame Sample.sc Sample.busy_queue Sample.ready_fence
      = ((log, Done (fence', slot)), q') /\
    endFrame q' fence' slot
    = ([SetEventOnCompletion 6; Signal 6],
       Done {| completed := completed fence'; queued := queued fence' ++ [6] |}).
Proof.
  eassert (E : beginFrame Sample.sc Sample.busy_queue Sample.ready_fence
               = ((_, Done (_, _)), _)) by (vm_compute; reflexivity).
  do 4 eexists. split; [exact E |].
  exact (endFrame_signals_frame_fence _ _ _ _ _ _ _ E).
Defined.

(** Five frames on a ring of three: the next slot, 2, holds fence value 2,
    handed out three calls before. *)
Lemma slot_reused_a_ring_later_witness :
  exists calls q',
    run_frames 5 Sample.sc Sample.queue Sample.fence = Some (calls, q') /\
    List.length calls = 5%nat /\
    exists frame,
      nth_error (mFrames q') 2 = Some frame /\ mFrameFenceId frame = 2.
Proof.
  eassert (E : run_frames 5 Sample.sc Sample.queue Sample.fence = Some (_, _))
    by (vm_compute; reflexivity).
  do 2 eexists. split; [exact E |]. split; [reflexivity |].
  apply (proj1 (slot_reused_a_ring_later Sample.queue _ _
                  (run_frames_begins 5 Sample.sc Sample.queue Sample.fence _ _ E)
                  eq_refl eq_refl ltac:(vm_compute; discriminate)
                  ltac:(vm_compute; discriminate))).
  cbn. lia.
Defined.


(** A frame with one pass, one subpass and one full-screen triangle is
    closed and submitted at the end; a frame without a render solution is
    not. *)
Lemma renderFrame_submits_last_witness :
  (exists barrier passes,
     log_of (renderFrame SampleBindings.mat_mul SampleBindings.PerPass
               SampleScene.getSubpassData SampleBindings.cam SampleFrame.context)
     = Record_ (ResourceBarrier [barrier]) :: Record_ SetDescriptorHeaps
       :: passes ++ [Record_ Close; ExecuteCommandLists] /\
     Forall (fun e => pass_event e = true) passes)
  /\
  Forall (fun e => is_submission e = false)
         (log_of (renderFrame SampleBindings.mat_mul SampleBindings.PerPass
                    SampleScene.getSubpassData SampleBindings.cam SampleFrame.unbound)).
Proof.
  split.
  - apply (proj1 (renderFrame_submits_last SampleBindings.mat_mul SampleBindings.PerPass
                    SampleScene.getSubpassData SampleBindings.cam SampleFrame.context
                    _ _ (surjective_pairing _))).
    vm_compute. reflexivity.
  - apply (proj2 (renderFrame_submits_last SampleBindings.mat_mul SampleBindings.PerPass
                    SampleScene.getSubpassData SampleBindings.cam SampleFrame.unbound
                    _ _ (surjective_pairing _))).
    vm_compute. discriminate.
Defined.

(** The back buffer is cleared, the second target is not, the depth is
    cleared with flag 1, and both targets are bound with the depth view. *)
Lemma preSubpass_commands_witness :
  outcome_of (preSubpass SampleFrame.context SampleFrame.subpass) = Done tt /\
  commands (log_of (preSubpass SampleFrame.context SampleFrame.subpass))
  = [ClearRenderTargetView (RTV 1) [0; 0; 0; 1065353216];
     ClearDepthStencilView (DSV 1) 1 1065353216 0;
     OMSetRenderTargets [RTV 1; RTV 5] (Some (DSV 1))].
Proof.
  apply (preSubpass_commands SampleFrame.context SampleFrame.subpass).
  - repeat constructor.
  - intros ds H. inversion H. reflexivity.
Defined.

(** A depth-stencil clear on the second output attachment, and a colour
    clear on the depth-stencil attachment. *)
Lemma preSubpass_rejects_mismatch_witness :
  (outcome_of (preSubpass SampleFrame.context SampleFrame.depth_on_output)
     = Fatal (runtime_error "RTV should not use clear depth stencil") /\
   filter is_OMSetRenderTargets
     (commands (log_of (preSubpass SampleFrame.context SampleFrame.depth_on_output))) = [])
  /\
  (outcome_of (preSubpass SampleFrame.context SampleFrame.color_on_depth)
     = Fatal (runtime_error "DSV should not use clear color") /\
   filter is_OMSetRenderTargets
     (commands (log_of (preSubpass SampleFrame.context SampleFrame.color_on_depth))) = []).
Proof.
  split.
  - apply (proj1 (preSubpass_rejects_mismatch SampleFrame.context
                    SampleFrame.depth_on_output)).
    exists SampleFrame.depth. split; [right; left; reflexivity | reflexivity].
  - apply (proj2 (preSubpass_rejects_mismatch SampleFrame.context
                    SampleFrame.color_on_depth)) with (ds := SampleFrame.color).
    + repeat constructor.
    + reflexivity.
    + reflexivity.
Defined.

(** Handle 0 on back buffer 1 is framebuffer 101; handle 2 is framebuffer
    102. *)
Lemma postSubpass_commands_witness :
  postSubpass SampleFrame.context Sample.works SampleFrame.subpass
  = record (ResourceBarrier [Transition 101 4 0; Transition 102 4 128]).
Proof.
  apply (postSubpass_commands SampleFrame.context Sample.works SampleFrame.subpass).
  repeat constructor; vm_compute; discriminate.
Defined.

(** One persistent collection with a resource-view list and a sampler
    list. *)
Lemma persistent_collections_bind_stored_tables_witness :
  buildDynamicDescriptors SampleBindings.mat_mul SampleBindings.PerPass
    SampleScene.shaderSubpass {| mCollections := [SampleCollections.persistent] |}
    SampleBindings.cam None 0
  = ([Record_ (SetGraphicsRootDescriptorTable 1 (GpuOffset 40));
      Record_ (SetGraphicsRootDescriptorTable 2 (GpuOffset 8))], Done tt).
Proof.
  apply (persistent_collections_bind_stored_tables SampleBindings.mat_mul
           SampleBindings.PerPass SampleScene.shaderSubpass
           {| mCollections := [SampleCollections.persistent] |}
           SampleBindings.cam None 0).
  repeat constructor.
Defined.

(** The world-view buffer of object 0: 64 bytes of the product, 192 zero
    bytes. *)
Lemma perInstance_payload_witness :
  build_constant_buffer
    (write_perInstance SampleBindings.mat_mul SampleBindings.cam
       (Some (SampleScene.batch 1)) 0) 0 SampleScene.objectCB
  = ([Upload (matrix_data (SampleBindings.mat_mul (mView SampleBindings.cam)
                                                  SampleScene.transform)
              ++ repeat Byte.x00 192) 256 1 256;
      CreateConstantBufferView 256 0], Done tt).
Proof.
  apply (perInstance_payload SampleBindings.mat_mul SampleBindings.cam
           (SampleScene.batch 1) 0 SampleScene.transform SampleScene.transform
           0%nat SampleScene.objectCB).
  - lia.
  - reflexivity.
  - reflexivity.
  - cbn. lia.
  - constructor; [split; [reflexivity | left; reflexivity] | constructor].
  - cbn. lia.
Defined.

(** A dynamic per-draw collection with a sampler list. *)
Lemma buildDynamicDescriptors_rejects_witness :
  raises (buildDynamicDescriptors SampleBindings.mat_mul SampleBindings.PerPass
            SampleScene.shaderSubpass
            {| mCollections := [SampleScene.perInstanceCollection;
                                SampleCollections.dynamic_samplers] |}
            SampleBindings.cam (Some (SampleScene.batch 1)) 0).
Proof.
  apply (buildDynamicDescriptors_rejects SampleBindings.mat_mul SampleBindings.PerPass
           SampleScene.shaderSubpass
           {| mCollections := [SampleScene.perInstanceCollection;
                               SampleCollections.dynamic_samplers] |}
           SampleBindings.cam (Some (SampleScene.batch 1)) 0
           SampleCollections.dynamic_samplers).
  - right. left. reflexivity.
  - reflexivity.
Defined.

(** A per-pass collection with a sampler list. *)
Lemma perPassDescriptors_rejects_witness :
  raises (perPassDescriptors SampleBindings.PerPass SampleCollections.perPass_subpass
            SampleBindings.cam).
Proof.
  apply (perPassDescriptors_rejects SampleBindings.PerPass
           SampleCollections.perPass_subpass SampleBindings.cam
           SampleCollections.perPass_samplers).
  - right. left. reflexivity.
  - reflexivity.
Defined.

(** Three shader subpasses on states 9, 9 and 11 with 9 bound: one
    SetPipelineState, for 11. *)
Lemma pipeline_state_set_on_change_witness :
  exists log st',
    draw_shader_subpasses SampleBindings.mat_mul SampleBindings.PerPass
      (SampleCollections.screen_material 3) (0, 0, 0) 0 SampleBindings.cam None 0
      (DrawInstanced 3 1 0 0) SampleCollections.subpasses (4, 9) = (log, Done st') /\
    filter is_SetPipelineState (commands log) = [SetPipelineState 11] /\
    st' = (4, 11).
Proof.
  eassert (E : draw_shader_subpasses SampleBindings.mat_mul SampleBindings.PerPass
                 (SampleCollections.screen_material 3) (0, 0, 0) 0
                 SampleBindings.cam None 0
                 (DrawInstanced 3 1 0 0) SampleCollections.subpasses (4, 9)
               = (_, Done _)) by (vm_compute; reflexivity).
  do 2 eexists. split; [exact E |].
  destruct (pipeline_state_set_on_change SampleBindings.mat_mul SampleBindings.PerPass
              _ _ _ _ _ _ (DrawInstanced 3 1 0 0) _ _ _ _ _ eq_refl E)
    as (H1 & H2 & _).
  split; [exact H1 | exact H2].
Defined.

(** A full-screen triangle whose material has two shader subpasses, with no
    topology bound: two DrawInstanced(3, 1, 0, 0). *)
Lemma fullScreenTriangle_draws_witness :
  exists log st',
    draw_drawCall SampleBindings.mat_mul SampleBindings.PerPass
      SampleScene.getSubpassData 0 0 0 0 SampleBindings.cam SampleFrame.triangle (0, 0)
      = (log, Done st') /\
    filter is_any_draw (commands log)
      = [DrawInstanced 3 1 0 0; DrawInstanced 3 1 0 0] /\
    fst st' = 4.
Proof.
  eassert (E : draw_drawCall SampleBindings.mat_mul SampleBindings.PerPass
                 SampleScene.getSubpassData 0 0 0 0 SampleBindings.cam
                 SampleFrame.triangle (0, 0) = (_, Done _))
    by (vm_compute; reflexivity).
  do 2 eexists. split; [exact E |].
  destruct (proj1 (fullScreenTriangle_draws SampleBindings.mat_mul SampleBindings.PerPass
                     SampleScene.getSubpassData 0 0 0 0 SampleBindings.cam
                     SampleFrame.triangle (0, 0)) _ _ E) as (_ & _ & H1 & H2).
  split; [exact H1 | exact H2].
Defined.

(** A subpass with two ordered render queues. *)
Lemma renderSubpass_root_signature_witness :
  exists log,
    renderSubpass SampleBindings.mat_mul SampleBindings.PerPass SampleScene.getSubpassData
      SampleFrame.context Sample.works SampleBindings.cam 0 0 SampleFrame.two_queues
    = (log, Done tt) /\
    filter is_SetGraphicsRootSignature (commands log)
    = [SetGraphicsRootSignature 7; SetGraphicsRootSignature 7].
Proof.
  eassert (E : renderSubpass SampleBindings.mat_mul SampleBindings.PerPass
                 SampleScene.getSubpassData SampleFrame.context Sample.works
                 SampleBindings.cam 0 0 SampleFrame.two_queues = (_, Done tt))
    by (vm_compute; reflexivity).
  eexists. split; [exact E |].
  exact (renderSubpass_root_signature _ _ _ _ _ _ _ _ _ _ E).
Defined.


(** The two textures of the per-batch table; a per-batch root CBV behind
    sound tables. *)
Lemma collectTextures_result_witness :
  collectTextures SampleBuilder.PerBatch SampleBuilder.tables []
  = ret ["MainTex"%string; "Normal"%string]
  /\
  collectTextures SampleBuilder.PerBatch SampleBuilder.tables_with_root_cbv []
  = throw (runtime_error "root cbv not supported yet").
Proof.
  assert (Hsound : Forall (fun table =>
                      unsupported_root SampleBuilder.PerBatch table = false /\
                      unnamed_texture SampleBuilder.PerBatch table = false)
                     SampleBuilder.tables) by (repeat constructor).
  split.
  - apply (proj1 (collectTextures_result SampleBuilder.PerBatch SampleBuilder.tables [])).
    exact Hsound.
  - apply (proj2 (collectTextures_result SampleBuilder.PerBatch
                    SampleBuilder.tables_with_root_cbv [])
             SampleBuilder.tables (SampleBuilder.perBatchCBV, []) []).
    + reflexivity.
    + exact Hsound.
    + reflexivity.
Defined.

(** A pixel and a vertex stage: both texts, and the vertex inputs by
    semantic. *)
Lemma deferred_stages_of_new_program_witness :
  exists data,
    buildShaderStages SampleShaders.compileShader false "0/@/Unlit"
      [(PS_, SampleShaders.pixel); (VS_, SampleBuilder.vertex)] new_program = ret data /\
    mPS data = stage_text SampleShaders.pixel /\
    mVS data = stage_text SampleBuilder.vertex /\
    mSemantics data TEXCOORD_ = ["uv0"%string; "uv1"%string] /\
    mSemantics data Semantic_other = [].
Proof.
  eexists. split.
  - apply (deferred_stages_of_new_program SampleShaders.compileShader "0/@/Unlit"
             [(PS_, SampleShaders.pixel); (VS_, SampleBuilder.vertex)]).
    + repeat constructor; cbn; intuition discriminate.
    + repeat constructor.
  - repeat split.
Defined.

(** A geometry stage behind the pixel stage. *)
Lemma unsupported_stage_fails_witness :
  buildShaderStages SampleShaders.compileShader false "0/@/Unlit"
    [(PS_, SampleShaders.pixel); (GS_, SampleShaders.pixel); (VS_, SampleBuilder.vertex)]
    new_program
  = throw (invalid_argument "shader not supported")
  /\
  raises (buildShaderStages SampleShaders.compileShader true "0/@/Unlit"
            [(PS_, SampleShaders.pixel); (GS_, SampleShaders.pixel);
             (VS_, SampleBuilder.vertex)] new_program).
Proof.
  split.
  - apply (proj1 (unsupported_stage_fails SampleShaders.compileShader "0/@/Unlit"
                    [(PS_, SampleShaders.pixel); (GS_, SampleShaders.pixel);
                     (VS_, SampleBuilder.vertex)])
             [(PS_, SampleShaders.pixel)] GS_ SampleShaders.pixel
             [(VS_, SampleBuilder.vertex)]).
    + reflexivity.
    + repeat constructor. cbn. intuition.
    + repeat constructor.
    + reflexivity.
  - apply (proj2 (unsupported_stage_fails SampleShaders.compileShader "0/@/Unlit"
                    [(PS_, SampleShaders.pixel); (GS_, SampleShaders.pixel);
                     (VS_, SampleBuilder.vertex)])
             true new_program GS_).
    + intros target profile name content. discriminate.
    + right. left. reflexivity.
    + reflexivity.
Defined.

(** A pass of two subpasses: the second is built from the program under
    2, not from the one under 1. *)
Lemma buildSubpasses_names_witness :
  exists log out,
    buildSubpasses SampleBuilder.PerBatch SampleBuilder.getRenderBlend
      SampleBuilder.getRenderRasterizer SampleBuilder.getRenderDepthStencil
      SampleShaders.compileShader false "Unlit" SampleBuilder.group EmptyString
      [SampleBuilder.subpass; SampleBuilder.subpass] = (log, Done out) /\
    List.length out = 2%nat /\
    exists data,
      map_at SampleBuilder.group "2/@/Unlit" = ret SampleBuilder.textured /\
      nth_error out 1 = Some data /\
      mSampleMask (mState data) = 4294967295 /\
      mTextures data = ["MainTex"%string; "Normal"%string].
Proof.
  eassert (E : buildSubpasses SampleBuilder.PerBatch SampleBuilder.getRenderBlend
                 SampleBuilder.getRenderRasterizer SampleBuilder.getRenderDepthStencil
                 SampleShaders.compileShader false "Unlit" SampleBuilder.group EmptyString
                 [SampleBuilder.subpass; SampleBuilder.subpass] = (_, Done _))
    by (vm_compute; reflexivity).
  do 2 eexists. split; [exact E |].
  destruct (buildSubpasses_names _ _ _ _ _ _ _ _ _ _ _ _ E) as [Hlen Hnth].
  split; [exact Hlen |].
  destruct (Hnth 1%nat SampleBuilder.subpass eq_refl)
    as (program & data & log' & Hprogram & Hdata & _ & Hmask & Htextures & _).
  assert (Hp : program = SampleBuilder.textured).
  { vm_compute in Hprogram. inversion Hprogram. reflexivity. }
  subst program.
  exists data. split; [vm_compute; reflexivity |]. split; [exact Hdata |].
  split; [exact Hmask | exact Htextures].
Defined.

(** The prototype with one solution, pipeline, queue, level and pass of two
    subpasses. *)
Lemma buildShaderData_mirrors_witness :
  exists log data,
    buildShaderData SampleBuilder.PerBatch SampleBuilder.getRenderBlend
      SampleBuilder.getRenderRasterizer SampleBuilder.getRenderDepthStencil
      SampleBuilder.getGroup SampleShaders.compileShader
      SampleBuilder.prototype SampleBuilder.new_data true = (log, Done data) /\
    sdName data = "Unlit"%string /\
    data_outline data
    = [ ("Forward"%string,
         [ ("Default"%string,
            [ ("Opaque"%string, [ [ (EmptyString, 2%nat) ] ]) ]) ]) ].
Proof.
  eassert (E : buildShaderData SampleBuilder.PerBatch SampleBuilder.getRenderBlend
                 SampleBuilder.getRenderRasterizer SampleBuilder.getRenderDepthStencil
                 SampleBuilder.getGroup SampleShaders.compileShader
                 SampleBuilder.prototype SampleBuilder.new_data true = (_, Done _))
    by (vm_compute; reflexivity).
  do 2 eexists. split; [exact E |].
  destruct (buildShaderData_mirrors _ _ _ _ _ _ _ _ _ _ _ E) as (Hname & Houtline & _).
  split; [exact Hname | exact Houtline].
Defined.

(** The same prototype, built again into what the first call left. *)
Lemma buildShaderData_again_witness :
  exists log data,
    buildShaderData SampleBuilder.PerBatch SampleBuilder.getRenderBlend
      SampleBuilder.getRenderRasterizer SampleBuilder.getRenderDepthStencil
      SampleBuilder.getGroup SampleShaders.compileShader
      SampleBuilder.prototype SampleBuilder.new_data false = (log, Done data) /\
    buildShaderData SampleBuilder.PerBatch SampleBuilder.getRenderBlend
      SampleBuilder.getRenderRasterizer SampleBuilder.getRenderDepthStencil
      SampleBuilder.getGroup SampleShaders.compileShader
      SampleBuilder.prototype data false = throw contract_violation.
Proof.
  eassert (E : buildShaderData SampleBuilder.PerBatch SampleBuilder.getRenderBlend
                 SampleBuilder.getRenderRasterizer SampleBuilder.getRenderDepthStencil
                 SampleBuilder.getGroup SampleShaders.compileShader
                 SampleBuilder.prototype SampleBuilder.new_data false = (_, Done _))
    by (vm_compute; reflexivity).
  do 2 eexists. split; [exact E |].
  eapply (buildShaderData_again _ _ _ _ _ _ _ _ _ _ _ SampleBuilder.prototype false
            "Forward"%string _ _ E).
  - reflexivity.
  - left. reflexivity.
Defined.

(** A database of one prototype. *)
Lemma buildShaders_mirrors_witness :
  exists log data,
    buildShaders SampleBuilder.getRenderBlend SampleBuilder.getRenderRasterizer
      SampleBuilder.getRenderDepthStencil SampleBuilder.getGroup
      SampleShaders.compileShader [("Unlit"%string, SampleBuilder.prototype)] []
    = (log, Done [("Unlit"%string, data)]) /\
    sdName data = EmptyString /\
    data_outline data = prototype_outline SampleBuilder.prototype /\
    Forall (fun subpass => mTextures subpass = []) (data_subpasses data).
Proof.
  eassert (E : buildShaders SampleBuilder.getRenderBlend SampleBuilder.getRenderRasterizer
                 SampleBuilder.getRenderDepthStencil SampleBuilder.getGroup
                 SampleShaders.compileShader [("Unlit"%string, SampleBuilder.prototype)] []
               = (_, Done [(_, _)])) by (vm_compute; reflexivity).
  do 2 eexists. split; [exact E |].
  destruct (buildShaders_mirrors _ _ _ _ _ _ _ _ _ E) as (datas & Hout & Hdatas).
  inversion Hdatas as [| entry data' ? datas' Hdata Hrest]; subst.
  inversion Hrest; subst. cbn in Hout. inversion Hout; subst.
  exact Hdata.
Defined.

(** The id of "Unlit" is in use and stays with the older shader; "Lit" is
    registered. *)
Lemma build_adds_and_keeps_witness :
  let resources := [(5, SampleBuilder.older_data)] in
  let shaders := [("Unlit"%string, SampleBuilder.unlit_data);
                  ("Lit"%string, SampleBuilder.lit_data)] in
  find_id 5 (build ShaderData (fun data => data) SampleBuilder.gen shaders resources)
    = Some SampleBuilder.older_data /\
  has_id (SampleBuilder.gen "Unlit")
         (build ShaderData (fun data => data) SampleBuilder.gen shaders resources) = true /\
  find_id (SampleBuilder.gen "Lit")
          (build ShaderData (fun data => data) SampleBuilder.gen shaders resources)
    = Some SampleBuilder.lit_data.
Proof.
  intros resources shaders.
  destruct (build_adds_and_keeps ShaderData (fun data => data) SampleBuilder.gen
              shaders resources) as (Hkeep & Hadd & Hnew).
  split; [apply Hkeep; reflexivity |].
  split; [apply (Hadd "Unlit"%string SampleBuilder.unlit_data); left; reflexivity |].
  apply (Hnew "Lit"%string SampleBuilder.lit_data).
  - right. left. reflexivity.
  - repeat constructor; cbn; intuition discriminate.
  - reflexivity.
Defined.
